(** * XrdCephPosix: the POSIX adapter over the striped object store

    A shallow embedding of [src/0.1/src/XrdCeph/XrdCephPosix.cc].  Every global of
    the translation unit is a field of [World]; every function of the file
    is a Rocq function of the same name that threads the world explicitly.
    The librados / libradosstriper calls are the fields of [Librados];
    C++ exceptions and undefined behaviour are outcomes of their own. *)

From Stdlib Require Import ZArith String Ascii List Lia DecimalString DecimalN DecimalPos.
From stdpp Require Import gmap gmultiset strings.

Local Open Scope Z_scope.

(** ** Platform constants (Linux, LP64), from <fcntl.h>, <errno.h>, <unistd.h> *)

Module Posix.
Definition O_RDONLY : Z := 0.
Definition O_WRONLY : Z := 1.
Definition O_RDWR   : Z := 2.
Definition O_CREAT  : Z := 64.    (* 0100 *)
Definition O_EXCL   : Z := 128.   (* 0200 *)
Definition O_TRUNC  : Z := 512.   (* 01000 *)

Definition ENOENT : Z := 2.
Definition EBADF  : Z := 9.
Definition EEXIST : Z := 17.
Definition EINVAL : Z := 22.

Definition SEEK_SET : Z := 0.
Definition SEEK_CUR : Z := 1.

Definition UINT_MAX   : Z := 2 ^ 32 - 1.
Definition ULONG_MAX  : Z := 2 ^ 64 - 1.   (* unsigned long is 64 bits wide *)
Definition ULLONG_MAX : Z := 2 ^ 64 - 1.

(** conversions between the integer types the code mixes *)
Definition to_uint (z : Z) : Z := z mod 2 ^ 32.
Definition to_int (z : Z) : Z :=
  let m := z mod 2 ^ 32 in if m <? 2 ^ 31 then m else m - 2 ^ 32.
Definition to_ull (z : Z) : Z := z mod 2 ^ 64.
Definition to_ssize (z : Z) : Z :=
  let m := z mod 2 ^ 64 in if m <? 2 ^ 63 then m else m - 2 ^ 64.
End Posix.
Import Posix.

(** ** std::string and C strings *)

Module Str.
Definition NUL : ascii := Ascii.zero.

Fixpoint drop (n : nat) (s : string) : string :=
  match n, s with
  | O, _ => s
  | S _, EmptyString => EmptyString
  | S k, String _ r => drop k r
  end.

Fixpoint take (n : nat) (s : string) : string :=
  match n, s with
  | O, _ => EmptyString
  | S _, EmptyString => EmptyString
  | S k, String c r => String c (take k r)
  end.

Fixpoint index_of (c : ascii) (s : string) : option nat :=
  match s with
  | EmptyString => None
  | String d r => if Ascii.eqb c d then Some O else option_map S (index_of c r)
  end.

(** [s.find(c, pos)]; [None] is [std::string::npos] *)
Definition find (s : string) (c : ascii) (pos : nat) : option nat :=
  option_map (Nat.add pos) (index_of c (drop pos s)).

(** [s.c_str()] read as a C string: the characters before the first NUL *)
Fixpoint cstr (s : string) : string :=
  match s with
  | EmptyString => EmptyString
  | String c r => if Ascii.eqb c NUL then EmptyString else String c (cstr r)
  end.

(** [*p] where [p] points at the start of [rest] inside a NUL-terminated
    buffer *)
Definition deref (rest : string) : ascii :=
  match rest with EmptyString => NUL | String c _ => c end.

(** decimal output of an unsigned value, as [operator<<] prints it *)
Definition of_unsigned (z : Z) : string :=
  NilZero.string_of_uint (N.to_uint (Z.to_N z)).
End Str.

(** ** Exceptions, and the two result types *)

Inductive exn : Type :=
| invalid_argument (what : string)
| out_of_range (what : string)
| end_of_buffer.                (* ceph::buffer::end_of_buffer, from bufferlist::copy *)

(** code that touches no global: a value or a thrown exception *)
Inductive except (A : Type) : Type :=
| Val (a : A)
| Raise (e : exn).
Arguments Val {A} a.
Arguments Raise {A} e.

Definition ebind {A B} (m : except A) (k : A -> except B) : except B :=
  match m with Val a => k a | Raise e => Raise e end.

Declare Scope except_scope.
Delimit Scope except_scope with except.
Notation "'let!' x ':=' m 'in' k" := (ebind m (fun x => k))
  (at level 10, x pattern, m at level 100, k at level 200) : except_scope.

(** [s.substr(pos, n)]: throws when [pos > s.size()] *)
Definition substr (s : string) (pos : nat) (n : option nat) : except string :=
  if (String.length s <? pos)%nat then Raise (out_of_range "basic_string::substr")
  else Val (match n with
            | None => Str.drop pos s
            | Some k => Str.take k (Str.drop pos s)
            end).

(** ** strtoul / strtoull in base 10 (C locale) *)

Definition isspace (c : ascii) : bool :=
  let n := nat_of_ascii c in
  ((n =? 32) || ((9 <=? n) && (n <=? 13)))%nat.

Definition digit_of (c : ascii) : option Z :=
  let n := Z.of_nat (nat_of_ascii c) in
  if (48 <=? n) && (n <=? 57) then Some (n - 48) else None.

Fixpoint skip_space (s : string) : string :=
  match s with
  | String c r => if isspace c then skip_space r else s
  | EmptyString => s
  end.

(** the longest run of digits at the head of [s]: its value (unbounded),
    whether it is non-empty, and what follows it *)
Fixpoint scan_digits (s : string) (acc : Z) (any : bool) : Z * bool * string :=
  match s with
  | String c r =>
      match digit_of c with
      | Some d => scan_digits r (10 * acc + d) true
      | None => (acc, any, s)
      end
  | EmptyString => (acc, any, s)
  end.

Record strto_result := {
  strto_value : Z;        (* the returned number *)
  strto_end : string;     (* the text [end] points at *)
  strto_erange : bool;    (* errno == ERANGE after the call *)
}.

(** [strtoul]/[strtoull] for an unsigned type whose largest value is [max]:
    optional white space, optional sign, digits.  Without digits nothing is
    converted and [end] is the start of the input; on overflow the result
    is [max] and errno is ERANGE; a minus sign negates in the unsigned
    type. *)
Definition strto_unsigned (max : Z) (s : string) : strto_result :=
  let s1 := skip_space s in
  let '(neg, s2) :=
    match s1 with
    | String "-"%char r => (true, r)
    | String "+"%char r => (false, r)
    | _ => (false, s1)
    end in
  let '(v, any, rest) := scan_digits s2 0 false in
  if negb any then {| strto_value := 0; strto_end := s; strto_erange := false |}
  else if max <? v then {| strto_value := max; strto_end := rest; strto_erange := true |}
  else {| strto_value := (if neg then (- v) mod (max + 1) else v);
          strto_end := rest; strto_erange := false |}.

Definition strtoull (s : string) : strto_result := strto_unsigned ULLONG_MAX (Str.cstr s).
Definition strtoul (s : string) : strto_result := strto_unsigned ULONG_MAX (Str.cstr s).

(** ** The adapter's own parsing helpers *)

Definition stoull (s : string) : except Z :=
  let r := strtoull s in
  if negb (Ascii.eqb (Str.deref (strto_end r)) Str.NUL) then Raise (invalid_argument s)
  else if strto_erange r then Raise (out_of_range s)
  else Val (strto_value r).

Definition stoui (s : string) : except Z :=
  let r := strtoul s in
  if negb (Ascii.eqb (Str.deref (strto_end r)) Str.NUL) then Raise (invalid_argument s)
  else if strto_erange r || (UINT_MAX <? strto_value r) then Raise (out_of_range s)
  else Val (to_uint (strto_value r)).

(** ** File metadata *)

Record CephFile := {
  name : string;
  pool : string;
  userId : string;
  nbStripes : Z;      (* unsigned int *)
  stripeUnit : Z;     (* unsigned long long *)
  objectSize : Z;     (* unsigned long long *)
}.

(** [struct CephFileRef : CephFile] *)
Record CephFileRef := {
  file : CephFile;
  flags : Z;          (* int *)
  mode : Z;           (* mode_t *)
  offset : Z;         (* unsigned long long *)
}.

Definition with_name (v : string) (f : CephFile) : CephFile :=
  {| name := v; pool := pool f; userId := userId f; nbStripes := nbStripes f;
     stripeUnit := stripeUnit f; objectSize := objectSize f |}.
Definition with_pool (v : string) (f : CephFile) : CephFile :=
  {| name := name f; pool := v; userId := userId f; nbStripes := nbStripes f;
     stripeUnit := stripeUnit f; objectSize := objectSize f |}.
Definition with_userId (v : string) (f : CephFile) : CephFile :=
  {| name := name f; pool := pool f; userId := v; nbStripes := nbStripes f;
     stripeUnit := stripeUnit f; objectSize := objectSize f |}.
Definition with_nbStripes (v : Z) (f : CephFile) : CephFile :=
  {| name := name f; pool := pool f; userId := userId f; nbStripes := v;
     stripeUnit := stripeUnit f; objectSize := objectSize f |}.
Definition with_stripeUnit (v : Z) (f : CephFile) : CephFile :=
  {| name := name f; pool := pool f; userId := userId f; nbStripes := nbStripes f;
     stripeUnit := v; objectSize := objectSize f |}.
Definition with_objectSize (v : Z) (f : CephFile) : CephFile :=
  {| name := name f; pool := pool f; userId := userId f; nbStripes := nbStripes f;
     stripeUnit := stripeUnit f; objectSize := v |}.
Definition with_offset (v : Z) (fr : CephFileRef) : CephFileRef :=
  {| file := file fr; flags := flags fr; mode := mode fr; offset := v |}.

(** a [CephFile] local before anything is assigned to it; every field is
    overwritten by [fillCephFile] *)
Definition CephFile_fresh : CephFile :=
  {| name := ""; pool := ""; userId := ""; nbStripes := 0; stripeUnit := 0; objectSize := 0 |}.

(** initial value of [g_defaultParams] *)
Definition g_defaultParams_init : CephFile :=
  {| name := ""; pool := "default"; userId := "admin"; nbStripes := 1;
     stripeUnit := 4 * 1024 * 1024; objectSize := 4 * 1024 * 1024 |}.

(** Modelled from the spec: the class [XrdOucEnv] is declared in
    XrdOuc/XrdOucEnv.hh, which is not among the sources; the spec calls it
    the optional ambient key/value environment.  [None] is the null
    pointer, [e !! k] is [env->Get(k)], which answers a C string or null. *)
Abbreviation XrdOucEnv := (option (gmap string string)).

Definition env_Get (env : XrdOucEnv) (key : string) : option string :=
  match env with
  | None => None
  | Some e => e !! key
  end.

(** ** The path and parameter parser

    Positions are [nat]; the source carries them through [int] and
    [unsigned int], which is the identity on strings shorter than 2^31
    characters.  The functions read [g_defaultParams], passed here as
    [defaults]. *)

Section Parser.
Variable defaults : CephFile.
Local Open Scope except_scope.

Definition fillCephUserId (params : string) (env : XrdOucEnv) (f : CephFile)
  : except (nat * CephFile) :=
  let f := with_userId (userId defaults) f in
  match Str.find params "@" 0 with
  | Some atPos =>
      let! u := substr params 0 (Some atPos) in
      Val (S atPos, with_userId u f)
  | None =>
      Val (O, match env_Get env "cephUserId" with
              | Some cuser => with_userId cuser f
              | None => f
              end)
  end.

Definition fillCephPool (params : string) (offset : nat) (env : XrdOucEnv) (f : CephFile)
  : except (nat * CephFile) :=
  let f := with_pool (pool defaults) f in
  match Str.find params "," offset with
  | None =>
      if (String.length params =? offset)%nat then
        Val (String.length params,
             match env_Get env "cephPool" with
             | Some cpool => with_pool cpool f
             | None => f
             end)
      else
        let! p := substr params offset None in
        Val (String.length params, with_pool p f)
  | Some comPos =>
      let! p := substr params offset (Some (comPos - offset)%nat) in
      Val (S comPos, with_pool p f)
  end.

Definition fillCephNbStripes (params : string) (offset : nat) (env : XrdOucEnv) (f : CephFile)
  : except (nat * CephFile) :=
  let f := with_nbStripes (nbStripes defaults) f in
  match Str.find params "," offset with
  | None =>
      if (String.length params =? offset)%nat then
        match env_Get env "cephNbStripes" with
        | Some cNbStripes =>
            let! n := stoui cNbStripes in
            Val (String.length params, with_nbStripes n f)
        | None => Val (String.length params, f)
        end
      else
        let! t := substr params offset None in
        let! n := stoui t in
        Val (String.length params, with_nbStripes n f)
  | Some comPos =>
      let! t := substr params offset (Some (comPos - offset)%nat) in
      let! n := stoui t in
      Val (S comPos, with_nbStripes n f)
  end.

Definition fillCephStripeUnit (params : string) (offset : nat) (env : XrdOucEnv) (f : CephFile)
  : except (nat * CephFile) :=
  let f := with_stripeUnit (stripeUnit defaults) f in
  match Str.find params "," offset with
  | None =>
      if (String.length params =? offset)%nat then
        match env_Get env "cephStripeUnit" with
        | Some cStripeUnit =>
            let! n := stoull cStripeUnit in
            Val (String.length params, with_stripeUnit n f)
        | None => Val (String.length params, f)
        end
      else
        let! t := substr params offset None in
        let! n := stoull t in
        Val (String.length params, with_stripeUnit n f)
  | Some comPos =>
      let! t := substr params offset (Some (comPos - offset)%nat) in
      let! n := stoull t in
      Val (S comPos, with_stripeUnit n f)
  end.

Definition fillCephObjectSize (params : string) (offset : nat) (env : XrdOucEnv) (f : CephFile)
  : except CephFile :=
  let f := with_objectSize (objectSize defaults) f in
  if (String.length params =? offset)%nat then
    match env_Get env "cephObjectSize" with
    | Some cObjectSize =>
        let! n := stoull cObjectSize in
        Val (with_objectSize n f)
    | None => Val f
    end
  else
    let! t := substr params offset None in
    let! n := stoull t in
    Val (with_objectSize n f).

Definition fillCephFileParams (params : string) (env : XrdOucEnv) (f : CephFile)
  : except CephFile :=
  let! (afterUser, f) := fillCephUserId params env f in
  let! (afterPool, f) := fillCephPool params afterUser env f in
  let! (afterNbStripes, f) := fillCephNbStripes params afterPool env f in
  let! (afterStripeUnit, f) := fillCephStripeUnit params afterNbStripes env f in
  fillCephObjectSize params afterStripeUnit env f.

(** [path] is a [const char *]; [std::string spath = path] stops at the
    first NUL *)
Definition fillCephFile (path : string) (env : XrdOucEnv) (f : CephFile)
  : except CephFile :=
  let spath := Str.cstr path in
  match Str.find spath ":" 0 with
  | None => fillCephFileParams "" env (with_name spath f)
  | Some colonPos =>
      let! n := substr spath (S colonPos) None in
      let! p := substr spath 0 (Some colonPos) in
      fillCephFileParams p env (with_name n f)
  end.

Definition getCephFile (path : string) (env : XrdOucEnv) : except CephFile :=
  fillCephFile path env CephFile_fresh.

(** the [offset] argument is ignored by the source: the cursor starts at 0 *)
Definition getCephFileRef (path : string) (env : XrdOucEnv) (flags mode offset : Z)
  : except CephFileRef :=
  let! f := fillCephFile path env CephFile_fresh in
  Val {| file := f; flags := flags; mode := mode; offset := 0 |}.
End Parser.

(** ** The object store behind librados

    Heap objects ([librados::Rados], [librados::IoCtx],
    [libradosstriper::RadosStriper]) are addresses; a null pointer is [None].
    What each library call answers is a field of [Librados]; [Store] is the
    state of the object store itself. *)

Abbreviation ptr := positive.

Record Librados (Store : Type) := {
  rados_init : string -> Z;                       (* Rados::init(userId) *)
  rados_conf_read_file : Z;                       (* Rados::conf_read_file(NULL) *)
  rados_connect : Z;                              (* Rados::connect() *)
  rados_ioctx_create : string -> Z;               (* Rados::ioctx_create(pool, ioctx) *)
  striper_create : Z;                             (* RadosStriper::striper_create *)
  set_object_layout_stripe_count : Z -> Z;
  set_object_layout_stripe_unit : Z -> Z;
  set_object_layout_object_size : Z -> Z;
  (** [stat(name, &size, &mtime)]: return code and the two out-parameters
      as they stand after the call on a zeroed [struct stat] *)
  striper_stat : Store -> ptr -> string -> Z * Z * Z;
  (** [write(name, bl, len, off)] *)
  striper_write : Store -> ptr -> string -> list Byte.byte -> Z -> Z * Store;
  (** [read(name, &bl, len, off)]: return code and the buffer list *)
  striper_read : Store -> ptr -> string -> Z -> Z -> Z * list Byte.byte;
  (** [trunc(name, size)] and [remove(name)] *)
  striper_trunc : Store -> ptr -> string -> Z -> Z * Store;
  striper_remove : Store -> ptr -> string -> Z * Store;
}.
Arguments rados_init {Store}.
Arguments rados_conf_read_file {Store}.
Arguments rados_connect {Store}.
Arguments rados_ioctx_create {Store}.
Arguments striper_create {Store}.
Arguments set_object_layout_stripe_count {Store}.
Arguments set_object_layout_stripe_unit {Store}.
Arguments set_object_layout_object_size {Store}.
Arguments striper_stat {Store}.
Arguments striper_write {Store}.
Arguments striper_read {Store}.
Arguments striper_trunc {Store}.
Arguments striper_remove {Store}.

(** ** The globals of the translation unit, the heap and the store *)

Record World (Store : Type) := {
  g_radosStripers : gmap string ptr;
  g_ioCtx : gmap string ptr;
  g_cluster : option ptr;
  g_fds : gmap Z CephFileRef;              (* keys are unsigned int *)
  g_filesOpenForWrite : gmultiset string;
  g_nextCephFd : Z;                        (* unsigned int *)
  g_defaultParams : CephFile;
  live : gset ptr;                         (* objects allocated and not yet deleted *)
  store : Store;
}.
Arguments g_radosStripers {Store}.
Arguments g_ioCtx {Store}.
Arguments g_cluster {Store}.
Arguments g_fds {Store}.
Arguments g_filesOpenForWrite {Store}.
Arguments g_nextCephFd {Store}.
Arguments g_defaultParams {Store}.
Arguments live {Store}.
Arguments store {Store}.

(** the state of a process at start-up *)
Definition World_init {Store} (st : Store) : World Store :=
  {| g_radosStripers := ∅; g_ioCtx := ∅; g_cluster := None; g_fds := ∅;
     g_filesOpenForWrite := ∅; g_nextCephFd := 0;
     g_defaultParams := g_defaultParams_init; live := ∅; store := st |}.

Section Setters.
Context {Store : Type}.
Implicit Type w : World Store.

Definition set_g_radosStripers (v : gmap string ptr) w : World Store :=
  {| g_radosStripers := v; g_ioCtx := g_ioCtx w; g_cluster := g_cluster w;
     g_fds := g_fds w; g_filesOpenForWrite := g_filesOpenForWrite w;
     g_nextCephFd := g_nextCephFd w; g_defaultParams := g_defaultParams w;
     live := live w; store := store w |}.
Definition set_g_ioCtx (v : gmap string ptr) w : World Store :=
  {| g_radosStripers := g_radosStripers w; g_ioCtx := v; g_cluster := g_cluster w;
     g_fds := g_fds w; g_filesOpenForWrite := g_filesOpenForWrite w;
     g_nextCephFd := g_nextCephFd w; g_defaultParams := g_defaultParams w;
     live := live w; store := store w |}.
Definition set_g_cluster (v : option ptr) w : World Store :=
  {| g_radosStripers := g_radosStripers w; g_ioCtx := g_ioCtx w; g_cluster := v;
     g_fds := g_fds w; g_filesOpenForWrite := g_filesOpenForWrite w;
     g_nextCephFd := g_nextCephFd w; g_defaultParams := g_defaultParams w;
     live := live w; store := store w |}.
Definition set_g_fds (v : gmap Z CephFileRef) w : World Store :=
  {| g_radosStripers := g_radosStripers w; g_ioCtx := g_ioCtx w; g_cluster := g_cluster w;
     g_fds := v; g_filesOpenForWrite := g_filesOpenForWrite w;
     g_nextCephFd := g_nextCephFd w; g_defaultParams := g_defaultParams w;
     live := live w; store := store w |}.
Definition set_g_filesOpenForWrite (v : gmultiset string) w : World Store :=
  {| g_radosStripers := g_radosStripers w; g_ioCtx := g_ioCtx w; g_cluster := g_cluster w;
     g_fds := g_fds w; g_filesOpenForWrite := v;
     g_nextCephFd := g_nextCephFd w; g_defaultParams := g_defaultParams w;
     live := live w; store := store w |}.
Definition set_g_nextCephFd (v : Z) w : World Store :=
  {| g_radosStripers := g_radosStripers w; g_ioCtx := g_ioCtx w; g_cluster := g_cluster w;
     g_fds := g_fds w; g_filesOpenForWrite := g_filesOpenForWrite w;
     g_nextCephFd := v; g_defaultParams := g_defaultParams w;
     live := live w; store := store w |}.
Definition set_g_defaultParams (v : CephFile) w : World Store :=
  {| g_radosStripers := g_radosStripers w; g_ioCtx := g_ioCtx w; g_cluster := g_cluster w;
     g_fds := g_fds w; g_filesOpenForWrite := g_filesOpenForWrite w;
     g_nextCephFd := g_nextCephFd w; g_defaultParams := v;
     live := live w; store := store w |}.
Definition set_live (v : gset ptr) w : World Store :=
  {| g_radosStripers := g_radosStripers w; g_ioCtx := g_ioCtx w; g_cluster := g_cluster w;
     g_fds := g_fds w; g_filesOpenForWrite := g_filesOpenForWrite w;
     g_nextCephFd := g_nextCephFd w; g_defaultParams := g_defaultParams w;
     live := v; store := store w |}.
Definition set_store (v : Store) w : World Store :=
  {| g_radosStripers := g_radosStripers w; g_ioCtx := g_ioCtx w; g_cluster := g_cluster w;
     g_fds := g_fds w; g_filesOpenForWrite := g_filesOpenForWrite w;
     g_nextCephFd := g_nextCephFd w; g_defaultParams := g_defaultParams w;
     live := live w; store := v |}.
End Setters.

(** ** Outcomes of code that runs against the world *)

Inductive outcome (W A : Type) : Type :=
| Ret (a : A) (w : W)          (* normal return *)
| Throw (e : exn) (w : W)      (* a C++ exception leaves the function *)
| Undefined.                   (* undefined behaviour: dangling or null
                                  dereference, double delete, write out of bounds *)
Arguments Ret {W A} a w.
Arguments Throw {W A} e w.
Arguments Undefined {W A}.

Module Run.
Section Run.
Context {W : Type}.
Definition M (A : Type) : Type := W -> outcome W A.

Definition ret {A} (a : A) : M A := fun w => Ret a w.
Definition bind {A B} (m : M A) (k : A -> M B) : M B :=
  fun w => match m w with
           | Ret a w' => k a w'
           | Throw e w' => Throw e w'
           | Undefined => Undefined
           end.
Definition get : M W := fun w => Ret w w.
Definition modify (f : W -> W) : M unit := fun w => Ret tt (f w).
Definition undefined {A} : M A := fun _ => Undefined.
Definition of_except {A} (m : except A) : M A :=
  fun w => match m with Val a => Ret a w | Raise e => Throw e w end.
End Run.
End Run.
Import Run.

Declare Scope run_scope.
Delimit Scope run_scope with run.
Notation "'let*' x ':=' m 'in' k" := (bind m (fun x => k))
  (at level 10, x pattern, m at level 100, k at level 200) : run_scope.
Notation "m ;; k" := (bind m (fun _ => k))
  (at level 100, k at level 200, right associativity) : run_scope.

(** ** The resource pool *)

Section Pool.
Context {Store : Type} (lib : Librados Store).
Local Open Scope run_scope.
Abbreviation M := (@M (World Store)).

(** [new T]: some address that is not in use.  The branches of the
    source that test the result of [new] against 0 are unreachable. *)
Definition cxx_new : M ptr :=
  fun w => let p := fresh (live w) in Ret p (set_live ({[p]} ∪ live w) w).

(** [delete p]: nothing for a null pointer; deleting what is not
    allocated (any more) is undefined *)
Definition cxx_delete (p : option ptr) : M unit :=
  match p with
  | None => ret tt
  | Some q =>
      fun w => if decide (q ∈ live w)
               then Ret tt (set_live (live w ∖ {[q]}) w)
               else Undefined
  end.

(** [g_cluster->...]: the global must point to a live object *)
Definition cluster_deref : M ptr :=
  fun w => match g_cluster w with
           | Some c => if decide (c ∈ live w) then Ret c w else Undefined
           | None => Undefined
           end.

(** [g_cluster->shutdown(); delete g_cluster; g_cluster = 0;] *)
Definition cluster_teardown : M unit :=
  let* c := cluster_deref in
  cxx_delete (Some c) ;;
  modify (set_g_cluster None).

(** [std::map::insert]: an existing key keeps its value *)
Definition map_insert (k : string) (v : ptr) (m : gmap string ptr) : gmap string ptr :=
  match m !! k with
  | Some _ => m
  | None => <[k := v]> m
  end.

(** the key of the pool: [userId@pool,nbStripes,stripeUnit,objectSize] *)
Definition userAtPool (f : CephFile) : string :=
  userId f +:+ "@" +:+ pool f +:+ "," +:+ Str.of_unsigned (nbStripes f) +:+ ","
    +:+ Str.of_unsigned (stripeUnit f) +:+ "," +:+ Str.of_unsigned (objectSize f).

(** the block under [if (0 == g_cluster)]: [true] when a connected
    cluster is in place, [false] when [getRadosStriper] returns 0 *)
Definition connect_cluster (f : CephFile) : M bool :=
  let* w := get in
  match g_cluster w with
  | Some _ => ret true
  | None =>
      let* c := cxx_new in
      modify (set_g_cluster (Some c)) ;;
      if negb (rados_init lib (userId f) =? 0) then
        cxx_delete (Some c) ;; modify (set_g_cluster None) ;; ret false
      else if negb (rados_conf_read_file lib =? 0) then
        cluster_teardown ;; ret false
      else if negb (rados_connect lib =? 0) then
        cluster_teardown ;; ret false
      else ret true
  end.

Definition getRadosStriper (f : CephFile) : M (option ptr) :=
  let* w := get in
  match g_radosStripers w !! userAtPool f with
  | Some striper => ret (Some striper)
  | None =>
      let* connected := connect_cluster f in
      if negb connected then ret None else
      (* create IoCtx for our pool *)
      let* ioctx := cxx_new in
      let* _ := cluster_deref in
      if negb (rados_ioctx_create lib (pool f) =? 0) then
        cluster_teardown ;; cxx_delete (Some ioctx) ;; ret None
      else
      (* create RadosStriper connection *)
      let* striper := cxx_new in
      if negb (striper_create lib =? 0) then
        cxx_delete (Some striper) ;; cxx_delete (Some ioctx) ;; cluster_teardown ;; ret None
      else
      (* setup layout *)
      if negb (set_object_layout_stripe_count lib (nbStripes f) =? 0) then
        cxx_delete (Some striper) ;; cxx_delete (Some ioctx) ;; cluster_teardown ;; ret None
      else if negb (set_object_layout_stripe_unit lib (stripeUnit f) =? 0) then
        cxx_delete (Some striper) ;; cxx_delete (Some ioctx) ;; cluster_teardown ;; ret None
      else if negb (set_object_layout_object_size lib (objectSize f) =? 0) then
        cxx_delete (Some striper) ;; cxx_delete (Some ioctx) ;; cluster_teardown ;; ret None
      else
        modify (fun w => set_g_ioCtx (map_insert (userAtPool f) ioctx (g_ioCtx w)) w) ;;
        modify (fun w => set_g_radosStripers
                           (map_insert (userAtPool f) striper (g_radosStripers w)) w) ;;
        (* return it->second *)
        let* w := get in
        ret (g_radosStripers w !! userAtPool f)
  end.

Fixpoint cxx_delete_each (ps : list ptr) : M unit :=
  match ps with
  | [] => ret tt
  | p :: ps => cxx_delete (Some p) ;; cxx_delete_each ps
  end.

Definition ceph_posix_disconnect_all : M unit :=
  let* w := get in
  cxx_delete_each (snd <$> map_to_list (g_radosStripers w)) ;;
  modify (set_g_radosStripers ∅) ;;
  let* w := get in
  cxx_delete_each (snd <$> map_to_list (g_ioCtx w)) ;;
  modify (set_g_ioCtx ∅) ;;
  let* w := get in
  cxx_delete (g_cluster w).
End Pool.

(** ** Descriptor table and I/O engine *)

(** the fields of [struct stat] the adapter assigns; [memset] zeroes the
    whole structure first *)
Record stat_buf := {
  st_size : Z;
  st_atime : Z;
  st_mtime : Z;
  st_ctime : Z;
  st_mode : Z;
}.

Definition MODE_0666 : Z := 438.   (* the octal literal 0666 *)

Definition stat_zero : stat_buf :=
  {| st_size := 0; st_atime := 0; st_mtime := 0; st_ctime := 0; st_mode := 0 |}.

Section Descriptors.
Context {Store : Type} (lib : Librados Store).
Local Open Scope run_scope.
Abbreviation M' := (@M (World Store)).

Definition ceph_posix_set_defaults (value : option string) : M' unit :=
  match value with
  | Some v =>
      let* w := get in
      let* newdefault :=
        of_except (fillCephFileParams (g_defaultParams w) v None CephFile_fresh) in
      modify (set_g_defaultParams newdefault)
  | None => ret tt
  end.

Definition ceph_posix_internal_truncate (f : CephFile) (size : Z) : M' Z :=
  let* striper := getRadosStriper lib f in
  match striper with
  | None => ret (- EINVAL)
  | Some s =>
      let* w := get in
      let '(rc, st') := striper_trunc lib (store w) s (name f) size in
      modify (set_store st') ;;
      ret rc
  end.

Definition ceph_posix_open (env : XrdOucEnv) (pathname : string) (flags mode : Z) : M' Z :=
  let* w := get in
  let* fr := of_except (getCephFileRef (g_defaultParams w) pathname env flags mode 0) in
  modify (fun w => set_g_fds (<[g_nextCephFd w := fr]> (g_fds w)) w) ;;
  modify (fun w => set_g_nextCephFd (to_uint (g_nextCephFd w + 1)) w) ;;
  (if negb (Z.land flags (Z.lor O_WRONLY O_RDWR) =? 0)
   then modify (fun w => set_g_filesOpenForWrite
                           ({[+ name (file fr) +]} ⊎ g_filesOpenForWrite w) w)
   else ret tt) ;;
  (* in case of O_TRUNC, we should truncate the file *)
  let truncate_and_return : M' Z :=
    let return_fd : M' Z :=
      let* w := get in ret (to_int (g_nextCephFd w - 1)) in
    if negb (Z.land flags O_TRUNC =? 0) then
      let* rc := ceph_posix_internal_truncate (file fr) 0 in
      (* fail only if file exists and cannot be truncated *)
      if (rc <? 0) && negb (rc =? - ENOENT) then ret rc else return_fd
    else return_fd in
  (* in case of O_CREAT and O_EXCL, we should complain if the file exists *)
  if negb (Z.land flags O_CREAT =? 0) && negb (Z.land flags O_EXCL =? 0) then
    let* striper := getRadosStriper lib (file fr) in
    match striper with
    | None => ret (- EINVAL)
    | Some s =>
        let* w := get in
        let '(rc, _, _) := striper_stat lib (store w) s (name (file fr)) in
        if negb (rc =? - ENOENT) then
          if rc =? 0 then ret (- EEXIST) else ret rc
        else truncate_and_return
    end
  else truncate_and_return.

(** [g_fds.find(fd)]: the [int] converts to the [unsigned int] key *)
Definition find_fd (fd : Z) (w : World Store) : option CephFileRef :=
  g_fds w !! to_uint fd.

Definition ceph_posix_close (fd : Z) : M' Z :=
  let* w := get in
  match find_fd fd w with
  | Some fr =>
      (if negb (Z.land (flags fr) (Z.lor O_WRONLY O_RDWR) =? 0) then
         (* erase(find(name)): erasing the end iterator is undefined *)
         if decide (name (file fr) ∈ g_filesOpenForWrite w)
         then modify (fun w => set_g_filesOpenForWrite
                                 (g_filesOpenForWrite w ∖ {[+ name (file fr) +]}) w)
         else undefined
       else ret tt) ;;
      modify (fun w => set_g_fds (base.delete (to_uint fd) (g_fds w)) w) ;;
      ret 0
  | None => ret (- EBADF)
  end.

(** [lseek_compute_offset] on the table entry of [fd]; [off] is the
    [offset] argument *)
Definition lseek_compute_offset (fd : Z) (fr : CephFileRef) (off whence : Z) : M' Z :=
  if whence =? SEEK_SET then
    modify (fun w => set_g_fds (<[to_uint fd := with_offset (to_ull off) fr]> (g_fds w)) w) ;;
    ret (to_ssize (to_ull off))
  else if whence =? SEEK_CUR then
    let o := to_ull (offset fr + off) in
    modify (fun w => set_g_fds (<[to_uint fd := with_offset o fr]> (g_fds w)) w) ;;
    ret (to_ssize o)
  else ret (- EINVAL).

Definition ceph_posix_lseek64 (fd offset whence : Z) : M' Z :=
  let* w := get in
  match find_fd fd w with
  | Some fr => lseek_compute_offset fd fr offset whence
  | None => ret (- EBADF)
  end.

Definition ceph_posix_lseek (fd offset whence : Z) : M' Z :=
  let* w := get in
  match find_fd fd w with
  | Some fr => lseek_compute_offset fd fr offset whence
  | None => ret (- EBADF)
  end.

(** [buf] holds the [count] bytes the caller passes *)
Definition ceph_posix_write (fd : Z) (buf : list Byte.byte) : M' Z :=
  let count := Z.of_nat (length buf) in
  let* w := get in
  match find_fd fd w with
  | Some fr =>
      if Z.land (flags fr) (Z.lor O_WRONLY O_RDWR) =? 0 then ret (- EBADF) else
      let* striper := getRadosStriper lib (file fr) in
      match striper with
      | None => ret (- EINVAL)
      | Some s =>
          let* w := get in
          let '(rc, st') :=
            striper_write lib (store w) s (name (file fr)) buf (offset fr) in
          modify (set_store st') ;;
          if negb (rc =? 0) then ret rc else
          modify (fun w => set_g_fds
                    (<[to_uint fd := with_offset (to_ull (offset fr + count)) fr]>
                       (g_fds w)) w) ;;
          ret count
      end
  | None => ret (- EBADF)
  end.

Definition ceph_posix_pwrite (fd : Z) (buf : list Byte.byte) (offset : Z) : M' Z :=
  let count := Z.of_nat (length buf) in
  let* w := get in
  match find_fd fd w with
  | Some fr =>
      if Z.land (flags fr) (Z.lor O_WRONLY O_RDWR) =? 0 then ret (- EBADF) else
      let* striper := getRadosStriper lib (file fr) in
      match striper with
      | None => ret (- EINVAL)
      | Some s =>
          let* w := get in
          let '(rc, st') := striper_write lib (store w) s (name (file fr)) buf offset in
          modify (set_store st') ;;
          if negb (rc =? 0) then ret rc else ret count
      end
  | None => ret (- EBADF)
  end.

(** [bl.copy(0, rc, buf)]: the first [rc] bytes of the buffer list *)
Definition bl_copy (bl : list Byte.byte) (rc : Z) : M' (list Byte.byte) :=
  if Z.of_nat (length bl) <? rc then of_except (Raise end_of_buffer)
  else ret (take (Z.to_nat rc) bl).

(** the result is the return value and the bytes stored into [buf] *)
Definition ceph_posix_read (fd : Z) (count : Z) : M' (Z * list Byte.byte) :=
  let* w := get in
  match find_fd fd w with
  | Some fr =>
      if negb (Z.land (flags fr) (Z.lor O_WRONLY O_RDWR) =? 0) then ret (- EBADF, []) else
      let* striper := getRadosStriper lib (file fr) in
      match striper with
      | None => ret (- EINVAL, [])
      | Some s =>
          let* w := get in
          let '(rc, bl) :=
            striper_read lib (store w) s (name (file fr)) count (offset fr) in
          if rc <? 0 then ret (rc, []) else
          let* data := bl_copy bl rc in
          modify (fun w => set_g_fds
                    (<[to_uint fd := with_offset (to_ull (offset fr + rc)) fr]>
                       (g_fds w)) w) ;;
          ret (rc, data)
      end
  | None => ret (- EBADF, [])
  end.

Definition ceph_posix_pread (fd : Z) (count offset : Z) : M' (Z * list Byte.byte) :=
  let* w := get in
  match find_fd fd w with
  | Some fr =>
      if negb (Z.land (flags fr) (Z.lor O_WRONLY O_RDWR) =? 0) then ret (- EBADF, []) else
      let* striper := getRadosStriper lib (file fr) in
      match striper with
      | None => ret (- EINVAL, [])
      | Some s =>
          let* w := get in
          let '(rc, bl) := striper_read lib (store w) s (name (file fr)) count offset in
          if rc <? 0 then ret (rc, []) else
          let* data := bl_copy bl rc in
          ret (rc, data)
      end
  | None => ret (- EBADF, [])
  end.

(** the result is the return value and [*buf] after the call *)
Definition ceph_posix_fstat (fd : Z) (buf : stat_buf) : M' (Z * stat_buf) :=
  let* w := get in
  match find_fd fd w with
  | Some fr =>
      let* striper := getRadosStriper lib (file fr) in
      match striper with
      | None => ret (- EINVAL, buf)
      | Some s =>
          let* w := get in
          let '(rc, size, atime) := striper_stat lib (store w) s (name (file fr)) in
          if negb (rc =? 0) then
            ret (to_int (- rc),
                 {| st_size := size; st_atime := atime; st_mtime := 0;
                    st_ctime := 0; st_mode := 0 |})
          else
            ret (0, {| st_size := size; st_atime := atime; st_mtime := atime;
                       st_ctime := atime; st_mode := MODE_0666 |})
      end
  | None => ret (- EBADF, buf)
  end.

(** [now] is what [time(NULL)] answers *)
Definition ceph_posix_stat (now : Z) (env : XrdOucEnv) (pathname : string) (buf : stat_buf)
  : M' (Z * stat_buf) :=
  let* w := get in
  let* f := of_except (getCephFile (g_defaultParams w) pathname env) in
  let* striper := getRadosStriper lib f in
  match striper with
  | None => ret (- EINVAL, buf)
  | Some s =>
      let* w := get in
      let '(rc, size, atime) := striper_stat lib (store w) s (name f) in
      let fill (size atime : Z) : M' (Z * stat_buf) :=
        ret (0, {| st_size := size; st_atime := atime; st_mtime := atime;
                   st_ctime := atime; st_mode := MODE_0666 |}) in
      if negb (rc =? 0) then
        (* for non existing file. Check that we did not open it for write recently
           in that case, we return 0 size and current time *)
        if (rc =? - ENOENT) && bool_decide (name f ∈ g_filesOpenForWrite w) then
          fill 0 now
        else
          ret (to_int (- rc),
               {| st_size := size; st_atime := atime; st_mtime := 0;
                  st_ctime := 0; st_mode := 0 |})
      else fill size atime
  end.

Definition ceph_posix_fsync (fd : Z) : M' Z :=
  let* w := get in
  match find_fd fd w with
  | Some _ => ret 0
  | None => ret (- EBADF)
  end.

Definition ceph_posix_ftruncate (fd size : Z) : M' Z :=
  let* w := get in
  match find_fd fd w with
  | Some fr => ceph_posix_internal_truncate (file fr) size
  | None => ret (- EBADF)
  end.

Definition ceph_posix_truncate (env : XrdOucEnv) (pathname : string) (size : Z) : M' Z :=
  let* w := get in
  let* f := of_except (getCephFile (g_defaultParams w) pathname env) in
  ceph_posix_internal_truncate f size.

Definition ceph_posix_unlink (env : XrdOucEnv) (pathname : string) : M' Z :=
  let* w := get in
  let* f := of_except (getCephFile (g_defaultParams w) pathname env) in
  let* striper := getRadosStriper lib f in
  match striper with
  | None => ret (- EINVAL)
  | Some s =>
      let* w := get in
      let '(rc, st') := striper_remove lib (store w) s (name f) in
      modify (set_store st') ;;
      ret rc
  end.
End Descriptors.

(** ** Directory enumeration *)

(** [struct DirIterator].  The cursor is the part of the object listing
    that is still ahead; [m_end_first] is what [iterator->first] reads once
    the cursor equals [objects_end()], which librados decides. *)
Record DirIterator := {
  m_iterator : list string;
  m_end_first : string;
  m_ioctx : ptr;
}.

Definition first_stripe_suffix : string := ".0000000000000000".

(** [key.compare(key.size()-17, 17, ".0000000000000000") != 0].  The
    position is unsigned: for a key shorter than 17 characters it wraps
    past [size()] and [compare] throws. *)
Definition differs_from_first_stripe (key : string) : except bool :=
  if (String.length key <? 17)%nat then Raise (out_of_range "basic_string::compare")
  else Val (negb (String.eqb (Str.drop (String.length key - 17) key) first_stripe_suffix)).

(** the [while] loop of [ceph_posix_readdir]; the condition reads
    [iterator->first] before it tests for the end *)
Fixpoint skip_other_stripes (end_first : string) (ioctx : ptr) (keys : list string)
  : outcome DirIterator unit :=
  let here := {| m_iterator := keys; m_end_first := end_first; m_ioctx := ioctx |} in
  match keys with
  | [] =>
      match differs_from_first_stripe end_first with
      | Raise e => Throw e here
      | Val _ => Ret tt here
      end
  | k :: rest =>
      match differs_from_first_stripe k with
      | Raise e => Throw e here
      | Val true => skip_other_stripes end_first ioctx rest
      | Val false => Ret tt here
      end
  end.

(** the result is the return value and [buff] read as a C string *)
Definition ceph_posix_readdir (blen : Z) : @M DirIterator (Z * string) :=
  (let* _ := (fun d => skip_other_stripes (m_end_first d) (m_ioctx d) (m_iterator d)) in
   let* d := get in
   match m_iterator d with
   | [] => ret (0, "")
   | k :: rest =>
       let l := to_int (Z.of_nat (String.length k) - 17) in
       let blen := if l <? blen then l else blen in
       (* strncpy(buff, key, blen-1); buff[blen-1] = 0; *)
       if blen <=? 0 then undefined
       else
         modify (fun d => {| m_iterator := rest; m_end_first := m_end_first d;
                             m_ioctx := m_ioctx d |}) ;;
         ret (0, Str.take (Z.to_nat (blen - 1)) (Str.cstr k))
   end)%run.

(** ** An in-memory object store

    One pool of named byte strings with a modification time; every
    connection call succeeds and the layout setters reject 0. *)

Module MemStore.
Abbreviation Store := (gmap string (list Byte.byte * Z)).

Definition zeros (n : nat) : list Byte.byte := replicate n Byte.x00.

Definition stat (s : Store) (_ : ptr) (n : string) : Z * Z * Z :=
  match s !! n with
  | Some (data, mtime) => (0, Z.of_nat (length data), mtime)
  | None => (- ENOENT, 0, 0)
  end.

Definition write (s : Store) (_ : ptr) (n : string) (buf : list Byte.byte) (off : Z)
  : Z * Store :=
  let old := match s !! n with Some (data, _) => data | None => [] end in
  let o := Z.to_nat off in
  let data := take o (old ++ zeros (o - length old)) ++ buf ++ drop (o + length buf) old in
  (0, <[n := (data, 1)]> s).

Definition read (s : Store) (_ : ptr) (n : string) (count off : Z) : Z * list Byte.byte :=
  match s !! n with
  | Some (data, _) =>
      let bl := take (Z.to_nat count) (drop (Z.to_nat off) data) in
      (Z.of_nat (length bl), bl)
  | None => (- ENOENT, [])
  end.

Definition trunc (s : Store) (_ : ptr) (n : string) (size : Z) : Z * Store :=
  match s !! n with
  | Some (data, _) =>
      let k := Z.to_nat size in
      (0, <[n := (take k (data ++ zeros (k - length data)), 1)]> s)
  | None => (- ENOENT, s)
  end.

Definition remove (s : Store) (_ : ptr) (n : string) : Z * Store :=
  match s !! n with
  | Some _ => (0, base.delete n s)
  | None => (- ENOENT, s)
  end.

Definition reject_zero (v : Z) : Z := if v =? 0 then - EINVAL else 0.

Definition lib : Librados Store :=
  {| rados_init := fun _ => 0;
     rados_conf_read_file := 0;
     rados_connect := 0;
     rados_ioctx_create := fun _ => 0;
     striper_create := 0;
     set_object_layout_stripe_count := reject_zero;
     set_object_layout_stripe_unit := reject_zero;
     set_object_layout_object_size := reject_zero;
     striper_stat := stat;
     striper_write := write;
     striper_read := read;
     striper_trunc := trunc;
     striper_remove := remove |}.

(** a process that has not called the adapter yet, over an empty store *)
Definition boot : World Store := World_init ∅.
End MemStore.

(** ** Vocabulary of the statements *)

(** what an operation leaves alone when it only goes through the pool *)
Definition same_files {Store} (w w' : World Store) : Prop :=
  g_fds w' = g_fds w /\ g_filesOpenForWrite w' = g_filesOpenForWrite w /\
  g_nextCephFd w' = g_nextCephFd w /\ g_defaultParams w' = g_defaultParams w /\
  store w' = store w.

(** the cursor of a descriptor *)
Definition cursor {Store} (fd : Z) (w : World Store) : option Z :=
  offset <$> find_fd fd w.

(** the access mode bits of the open flags *)
Definition accmode (fl : Z) : Z := Z.land fl (Z.lor O_WRONLY O_RDWR).


(** a cluster handle is in place, or this call can establish one *)
Definition cluster_obtainable {Store} (lib : Librados Store) (f : CephFile)
    (w : World Store) : Prop :=
  match g_cluster w with
  | Some c => c ∈ live w
  | None => rados_init lib (userId f) = 0 /\ rados_conf_read_file lib = 0 /\
            rados_connect lib = 0
  end.

(** the objects a cluster pointer accounts for *)
Definition cluster_object (c : option ptr) : gset ptr :=
  match c with Some p => {[p]} | None => ∅ end.

(** the world of [ceph_posix_open] once the new descriptor is entered in
    the table, before the file is probed *)
Definition registered {Store} (fr : CephFileRef) (w : World Store) : World Store :=
  let w1 := set_g_fds (<[g_nextCephFd w := fr]> (g_fds w)) w in
  let w2 := set_g_nextCephFd (to_uint (g_nextCephFd w1 + 1)) w1 in
  if negb (accmode (flags fr) =? 0)
  then set_g_filesOpenForWrite ({[+ name (file fr) +]} ⊎ g_filesOpenForWrite w2) w2
  else w2.

(** the store gives back what it accepted *)
Definition read_after_write {Store} (lib : Librados Store) : Prop :=
  forall st s n buf off st',
    striper_write lib st s n buf off = (0, st') ->
    striper_read lib st' s n (Z.of_nat (length buf)) off = (Z.of_nat (length buf), buf).

(** texts of layout fields *)
Definition is_digit (c : ascii) : bool :=
  match digit_of c with Some _ => true | None => false end.

Definition is_sign (c : ascii) : bool := Ascii.eqb c "+" || Ascii.eqb c "-".

Fixpoint all_digits (s : string) : bool :=
  match s with
  | EmptyString => true
  | String c r => is_digit c && all_digits r
  end.

(** the number a string of digits denotes *)
Fixpoint decimal (acc : Z) (s : string) : Z :=
  match s with
  | String c r =>
      match digit_of c with
      | Some d => decimal (10 * acc + d) r
      | None => acc
      end
  | EmptyString => acc
  end.

(** the exceptions of the number parsers *)
Definition layout_exn (e : exn) : Prop :=
  exists t, e = invalid_argument t \/ e = out_of_range t.

(** [c] does not occur in [s] *)
Definition lacks (c : ascii) (s : string) : Prop := Str.index_of c s = None.

(** ** The layout fields of a path

    The syntax of a path is
    [[userId@]pool[,nbStripes[,stripeUnit[,objectSize]]]:]<actual path>;
    what is not written comes from the environment. *)

(** the parameter part: what stands before the first colon *)
Definition params_of (path : string) : string :=
  let spath := Str.cstr path in
  match Str.index_of ":" spath with
  | Some i => Str.take i spath
  | None => EmptyString
  end.

(** the parameter part without the user: what follows the first '@' *)
Definition after_user (params : string) : string :=
  match Str.index_of "@" params with
  | Some i => Str.drop (S i) params
  | None => params
  end.

(** a text that is written: not empty *)
Definition written (r : string) : option string :=
  match r with
  | EmptyString => None
  | _ => Some r
  end.

(** the field at the head of the remaining parameters [r]: its text up to
    the next comma, or all of [r] if that is written, and what remains
    after the comma *)
Definition next_field (r : string) : option string * string :=
  match Str.index_of "," r with
  | Some i => (Some (Str.take i r), Str.drop (S i) r)
  | None => (written r, EmptyString)
  end.

(** the text the parser reads for a field: the one in the path, else the
    one in the environment *)
Definition field_text (in_path : option string) (env : XrdOucEnv) (key : string)
  : option string :=
  match in_path with
  | Some t => Some t
  | None => env_Get env key
  end.

(** the sign and the digits of a number text, after its leading white
    space *)
Definition sign_and_digits (s : string) : bool * string :=
  match skip_space s with
  | String "-"%char r => (true, r)
  | String "+"%char r => (false, r)
  | _ => (false, skip_space s)
  end.

(** a text that is no number for a field of at most [limit].  The empty
    text is taken (as 0).  Any other text has to be optional white space,
    an optional sign and one or more decimal digits up to its end (a C
    string ends at its first NUL), the digits have to denote at most
    2^64-1, and the value, which a minus sign negates modulo 2^64, at most
    [limit]. *)
Definition rejected (limit : Z) (s : string) : bool :=
  let t := Str.cstr s in
  let '(neg, ds) := sign_and_digits t in
  let m := decimal 0 ds in
  negb (String.eqb t "") &&
  (negb (all_digits ds) || String.eqb ds "" || (ULONG_MAX <? m) ||
   (limit <? (if neg then (- m) mod (ULONG_MAX + 1) else m))).

Definition rejected_field (limit : Z) (text : option string) : bool :=
  match text with
  | Some t => rejected limit t
  | None => false
  end.

(** parameters with a stripe count, stripe unit or object size that is no
    number in range, written after the pool or found in the environment *)
Definition bad_params (params : string) (env : XrdOucEnv) : bool :=
  let '(_, r1) := next_field (after_user params) in
  let '(a, r2) := next_field r1 in
  let '(b, r3) := next_field r2 in
  rejected_field UINT_MAX (field_text a env "cephNbStripes") ||
  rejected_field ULLONG_MAX (field_text b env "cephStripeUnit") ||
  rejected_field ULLONG_MAX (field_text (written r3) env "cephObjectSize").

(** a path and an environment with such a field *)
Definition bad_layout (path : string) (env : XrdOucEnv) : bool :=
  bad_params (params_of path) env.

(** ** Worked states over the in-memory store *)

Module Scenario.
Import MemStore.

(** the world an operation leaves behind *)
Definition exec {A} (m : @M (World Store) A) (w : World Store) : World Store :=
  match m w with
  | Ret _ w' => w'
  | Throw _ w' => w'
  | Undefined => w
  end.

(** one pooled session, for the default layout *)
Definition pooled : World Store := exec (getRadosStriper lib g_defaultParams_init) boot.

(** another pool, with a stripe count the store rejects *)
Definition zero_stripes : CephFile :=
  with_nbStripes 0 (with_pool "other" g_defaultParams_init).

Definition wr_flags : Z := Z.lor O_WRONLY O_CREAT.
Definition excl_flags : Z := Z.lor O_WRONLY (Z.lor O_CREAT O_EXCL).

Definition abc : list Byte.byte := [Byte.x61; Byte.x62; Byte.x63].

(** "f" opened for writing as descriptor 0 *)
Definition opened : World Store := exec (ceph_posix_open lib None "f" wr_flags 0) boot.
(** ... and three bytes written through it *)
Definition written : World Store := exec (ceph_posix_write lib 0 abc) opened.
(** "g" opened read-write as descriptor 0 *)
Definition opened_rdwr : World Store := exec (ceph_posix_open lib None "g" O_RDWR 0) boot.
(** "f" opened for writing as 0 and for reading as 1 *)
Definition two_handles : World Store :=
  exec (ceph_posix_open lib None "f" O_RDONLY 0) opened.

(** the default layout under the name "f" *)
Definition file_f : CephFile := with_name "f" g_defaultParams_init.
(** [opened] and [two_handles] once the session of "f" is pooled *)
Definition opened_pooled : World Store := exec (getRadosStriper lib file_f) opened.
Definition two_handles_pooled : World Store :=
  exec (getRadosStriper lib file_f) two_handles.
(** a second, exclusive open of "f" after the three bytes are stored *)
Definition reopened : World Store :=
  exec (ceph_posix_open lib None "f" excl_flags 0) written.
(** [pooled] after a global disconnect *)
Definition disconnected : World Store := exec ceph_posix_disconnect_all pooled.

(** the table entries of the descriptors above *)
Definition fr_write : CephFileRef :=
  {| file := file_f; flags := wr_flags; mode := 0; offset := 0 |}.
Definition fr_read : CephFileRef :=
  {| file := file_f; flags := O_RDONLY; mode := 0; offset := 0 |}.
Definition fr_excl : CephFileRef :=
  {| file := file_f; flags := excl_flags; mode := 0; offset := 0 |}.
Definition fr_rdwr : CephFileRef :=
  {| file := with_name "g" g_defaultParams_init; flags := O_RDWR; mode := 0; offset := 0 |}.

(** the store once [abc] is written at offset 0 of "f" *)
Definition stored_abc : Store :=
  (MemStore.write (store two_handles_pooled) 3%positive "f" abc 0).2.

(** the listing of a pool with the logical files "a" and "b", two
    stripe objects each *)
Definition listing_ab : DirIterator :=
  {| m_iterator := ["a.0000000000000000"; "a.0000000000000001";
                    "b.0000000000000000"; "b.0000000000000001"];
     m_end_first := ""; m_ioctx := 2%positive |}.

Definition listing_run1 : DirIterator :=
  {| m_iterator := ["run1.0000000000000001"; "run1.0000000000000000"];
     m_end_first := ""; m_ioctx := 2%positive |}.
End Scenario.

(** ** More of the file: fcntl and the extended attributes *)

Module PosixMore.
Definition F_GETFL : Z := 3.
Definition ENOTSUP : Z := 95.
Definition S_IFDIR : Z := 16384.     (* 0040000 *)
Definition MODE_0700 : Z := 448.     (* 0700 *)
End PosixMore.
Import PosixMore.

(** the attribute calls of libradosstriper *)
Record LibradosAttr (Store : Type) := {
  (** [getxattr(name, attr, bl)]: return code and the buffer list *)
  striper_getxattr : Store -> ptr -> string -> string -> Z * list Byte.byte;
  (** [setxattr(name, attr, bl)] and [rmxattr(name, attr)] *)
  striper_setxattr : Store -> ptr -> string -> string -> list Byte.byte -> Z * Store;
  striper_rmxattr : Store -> ptr -> string -> string -> Z * Store;
}.
Arguments striper_getxattr {Store}.
Arguments striper_setxattr {Store}.
Arguments striper_rmxattr {Store}.

Section Attributes.
Context {Store : Type} (lib : Librados Store) (alib : LibradosAttr Store).
Local Open Scope run_scope.
Abbreviation MA := (@M (World Store)).

(** [case F_GETFL: return fr.mode;] *)
Definition ceph_posix_fcntl (fd cmd : Z) : MA Z :=
  let* w := get in
  match find_fd fd w with
  | Some fr =>
      if cmd =? F_GETFL then ret (to_int (mode fr)) else ret (- EINVAL)
  | None => ret (- EBADF)
  end.

(** the result is the return value and the bytes stored into [value];
    [attr] is the attribute name *)
Definition ceph_posix_internal_getxattr (f : CephFile) (attr : string) (size : Z)
  : MA (Z * list Byte.byte) :=
  let* striper := getRadosStriper lib f in
  match striper with
  | None => ret (- EINVAL, [])
  | Some s =>
      let* w := get in
      let '(rc, bl) := striper_getxattr alib (store w) s (name f) attr in
      if rc <? 0 then ret (rc, []) else
      let returned_size := if rc <? size then rc else size in
      let* data := bl_copy bl returned_size in
      ret (returned_size, data)
  end.

Definition ceph_posix_getxattr (env : XrdOucEnv) (path attr : string) (size : Z)
  : MA (Z * list Byte.byte) :=
  let* w := get in
  let* f := of_except (getCephFile (g_defaultParams w) path env) in
  ceph_posix_internal_getxattr f attr size.

Definition ceph_posix_fgetxattr (fd : Z) (attr : string) (size : Z)
  : MA (Z * list Byte.byte) :=
  let* w := get in
  match find_fd fd w with
  | Some fr => ceph_posix_internal_getxattr (file fr) attr size
  | None => ret (- EBADF, [])
  end.

(** [value] holds the [size] bytes the caller passes; [flags] is unused *)
Definition ceph_posix_internal_setxattr (f : CephFile) (attr : string)
    (value : list Byte.byte) (flags : Z) : MA Z :=
  let* striper := getRadosStriper lib f in
  match striper with
  | None => ret (- EINVAL)
  | Some s =>
      let* w := get in
      let '(rc, st') := striper_setxattr alib (store w) s (name f) attr value in
      modify (set_store st') ;;
      if negb (rc =? 0) then ret (to_int (- rc)) else ret 0
  end.

Definition ceph_posix_setxattr (env : XrdOucEnv) (path attr : string)
    (value : list Byte.byte) (flags : Z) : MA Z :=
  let* w := get in
  let* f := of_except (getCephFile (g_defaultParams w) path env) in
  ceph_posix_internal_setxattr f attr value flags.

Definition ceph_posix_fsetxattr (fd : Z) (attr : string)
    (value : list Byte.byte) (flags : Z) : MA Z :=
  let* w := get in
  match find_fd fd w with
  | Some fr => ceph_posix_internal_setxattr (file fr) attr value flags
  | None => ret (- EBADF)
  end.

Definition ceph_posix_internal_removexattr (f : CephFile) (attr : string) : MA Z :=
  let* striper := getRadosStriper lib f in
  match striper with
  | None => ret (- EINVAL)
  | Some s =>
      let* w := get in
      let '(rc, st') := striper_rmxattr alib (store w) s (name f) attr in
      modify (set_store st') ;;
      if negb (rc =? 0) then ret (to_int (- rc)) else ret 0
  end.

Definition ceph_posix_removexattr (env : XrdOucEnv) (path attr : string) : MA Z :=
  let* w := get in
  let* f := of_except (getCephFile (g_defaultParams w) path env) in
  ceph_posix_internal_removexattr f attr.

Definition ceph_posix_fremovexattr (fd : Z) (attr : string) : MA Z :=
  let* w := get in
  match find_fd fd w with
  | Some fr => ceph_posix_internal_removexattr (file fr) attr
  | None => ret (- EBADF)
  end.
End Attributes.

(** ** The storage plug-in on top: XrdCephOss.cc *)

Section Oss.
Context {Store : Type} (lib : Librados Store).
Local Open Scope run_scope.
Abbreviation MO := (@M (World Store)).

(** [try { body } catch (std::exception e) { handler }]: every exception
    of the model derives from [std::exception] *)
Definition try_catch {A} (body handler : MO A) : MO A :=
  fun w => match body w with
           | Throw _ w' => handler w'
           | o => o
           end.

(** [XrdCephOss::Stat]; [strcmp] reads [path] as a C string.  The only
    exception of [ceph_posix_stat] comes from the parser, before [buff] is
    written. *)
Definition XrdCephOss_Stat (now : Z) (path : string) (buff : stat_buf) (opts : Z)
    (env : XrdOucEnv) : MO (Z * stat_buf) :=
  try_catch
    (if String.eqb (Str.cstr path) "/" then
       (* special case of a stat made by the locate interface *)
       ret (0, {| st_size := 0; st_atime := 0; st_mtime := 0; st_ctime := 0;
                  st_mode := Z.lor S_IFDIR MODE_0700 |})
     else ceph_posix_stat lib now env path buff)
    (ret (- EINVAL, buff)).

Definition XrdCephOss_Truncate (path : string) (size : Z) (env : XrdOucEnv) : MO Z :=
  try_catch (ceph_posix_truncate lib env path size) (ret (- EINVAL)).

Definition XrdCephOss_Unlink (path : string) (Opts : Z) (env : XrdOucEnv) : MO Z :=
  try_catch (ceph_posix_unlink lib env path) (ret (- EINVAL)).

(** the operations the plug-in does not offer *)
Definition XrdCephOss_Chmod : Z := - ENOTSUP.
Definition XrdCephOss_Create : Z := - ENOTSUP.
Definition XrdCephOss_Mkdir : Z := - ENOTSUP.
Definition XrdCephOss_Remdir : Z := - ENOTSUP.
Definition XrdCephOss_Rename : Z := - ENOTSUP.
End Oss.

(** ** More vocabulary *)

(** the value of a decimal numeral, read from the left *)
Fixpoint uint_value (acc : Z) (d : Decimal.uint) : Z :=
  match d with
  | Decimal.Nil => acc
  | Decimal.D0 l => uint_value (10 * acc) l
  | Decimal.D1 l => uint_value (10 * acc + 1) l
  | Decimal.D2 l => uint_value (10 * acc + 2) l
  | Decimal.D3 l => uint_value (10 * acc + 3) l
  | Decimal.D4 l => uint_value (10 * acc + 4) l
  | Decimal.D5 l => uint_value (10 * acc + 5) l
  | Decimal.D6 l => uint_value (10 * acc + 6) l
  | Decimal.D7 l => uint_value (10 * acc + 7) l
  | Decimal.D8 l => uint_value (10 * acc + 8) l
  | Decimal.D9 l => uint_value (10 * acc + 9) l
  end.

(** a string of digits (possibly empty) that denotes at most [max] *)
Definition digits_upto (max : Z) (s : string) : Prop :=
  all_digits s = true /\ decimal 0 s <= max.

(** an identity whose key reads back: the user has none of the
    separators, the pool has no comma and no colon, the numbers fit their
    types *)
Definition keyed (f : CephFile) : Prop :=
  (lacks "@" (userId f) /\ lacks "," (userId f) /\ lacks ":" (userId f) /\
   lacks Str.NUL (userId f)) /\
  (lacks "," (pool f) /\ lacks ":" (pool f) /\ lacks Str.NUL (pool f)) /\
  0 <= nbStripes f <= UINT_MAX /\
  0 <= stripeUnit f <= ULLONG_MAX /\
  0 <= objectSize f <= ULLONG_MAX.

(** same layout, whatever the name *)
Definition layout_equivalent (f g : CephFile) : Prop :=
  userId f = userId g /\ pool f = pool g /\ nbStripes f = nbStripes g /\
  stripeUnit f = stripeUnit g /\ objectSize f = objectSize g.

(** the heap as the pool expects it: the cluster object and every pooled
    striper and pool binding are allocated and pairwise different, and no
    two keys share an object *)
Definition heap_wf {Store} (w : World Store) : Prop :=
  (forall k s, g_radosStripers w !! k = Some s -> s ∈ live w) /\
  (forall k i, g_ioCtx w !! k = Some i -> i ∈ live w) /\
  (forall c, g_cluster w = Some c ->
     c ∈ live w /\ (forall k, g_radosStripers w !! k <> Some c) /\
     (forall k, g_ioCtx w !! k <> Some c)) /\
  (forall k1 k2 s, g_radosStripers w !! k1 = Some s ->
     g_radosStripers w !! k2 = Some s -> k1 = k2) /\
  (forall k1 k2 i, g_ioCtx w !! k1 = Some i -> g_ioCtx w !! k2 = Some i -> k1 = k2) /\
  (forall k1 k2 p, g_radosStripers w !! k1 = Some p -> g_ioCtx w !! k2 <> Some p).

(** the handle counter has the range of its type *)
Definition counter_ok {Store} (w : World Store) : Prop :=
  0 <= g_nextCephFd w < 2 ^ 32.

(** every library call of a session set-up succeeds for [f] *)
Definition session_accepted {Store} (lib : Librados Store) (f : CephFile) : Prop :=
  rados_ioctx_create lib (pool f) = 0 /\ striper_create lib = 0 /\
  set_object_layout_stripe_count lib (nbStripes f) = 0 /\
  set_object_layout_stripe_unit lib (stripeUnit f) = 0 /\
  set_object_layout_object_size lib (objectSize f) = 0.

(** a key that is not the first stripe of anything, long enough to be
    compared *)
Definition other_stripe (k : string) : Prop :=
  differs_from_first_stripe k = Val true.

(** the world after a session for [f] is set up on top of a live cluster *)
Definition session_world {Store} (f : CephFile) (w : World Store) : World Store :=
  let io := fresh (live w) in
  let st := fresh ({[io]} ∪ live w) in
  set_g_radosStripers (<[userAtPool f := st]> (g_radosStripers w))
    (set_g_ioCtx (map_insert (userAtPool f) io (g_ioCtx w))
       (set_live ({[st]} ∪ ({[io]} ∪ live w)) w)).

(** the world after a failed set-up *)
Definition failure_world {Store} (w : World Store) : World Store :=
  set_g_cluster None (set_live (live w ∖ cluster_object (g_cluster w)) w).

(** the world once a cluster is connected *)
Definition connected_world {Store} (w : World Store) : World Store :=
  let c := fresh (live w) in set_g_cluster (Some c) (set_live ({[c]} ∪ live w) w).

(** ** More worked states *)

Module Tour.
Import MemStore Scenario.

(** attributes are not kept by the in-memory store *)
Definition alib : LibradosAttr Store :=
  {| striper_getxattr := fun _ _ _ _ => (5, [Byte.x68; Byte.x65; Byte.x6c; Byte.x6c; Byte.x6f]);
     striper_setxattr := fun st _ _ _ _ => (- ENOENT, st);
     striper_rmxattr := fun st _ _ _ => (- ENOENT, st) |}.

Definition alice : CephFile :=
  {| name := "data/run1"; pool := "poolA"; userId := "alice"; nbStripes := 3;
     stripeUnit := 65536; objectSize := 262144 |}.

(** a library whose cluster cannot be reached *)
Definition unreachable : Librados Store :=
  {| rados_init := fun _ => 0;
     rados_conf_read_file := 0;
     rados_connect := - 110;
     rados_ioctx_create := fun _ => 0;
     striper_create := 0;
     set_object_layout_stripe_count := reject_zero;
     set_object_layout_stripe_unit := reject_zero;
     set_object_layout_object_size := reject_zero;
     striper_stat := stat;
     striper_write := write;
     striper_read := read;
     striper_trunc := trunc;
     striper_remove := remove |}.

(** the stripes of "run1" between objects that belong to other files *)
Definition listing_mixed : DirIterator :=
  {| m_iterator := ["other.0000000000000002"; "run1.0000000000000001";
                    "run1.0000000000000000"; "tail.0000000000000000"];
     m_end_first := ""; m_ioctx := 2%positive |}.

(** an object that no striper wrote *)
Definition listing_foreign : DirIterator :=
  {| m_iterator := ["other.0000000000000002"; "README"; "run1.0000000000000000"];
     m_end_first := ""; m_ioctx := 2%positive |}.
(** [pooled] with a second session, for [alice] *)
Definition two_sessions : World Store := exec (getRadosStriper lib alice) pooled.

(** the same layout as [alice] under another name *)
Definition alice_other : CephFile := with_name "data/run2" alice.

(** a user with an '@' on pool "c", and the user "a" on a pool with an '@' *)
Definition at_in_user : CephFile :=
  {| name := "x"; pool := "c"; userId := "a@b"; nbStripes := 1;
     stripeUnit := 4194304; objectSize := 4194304 |}.
Definition at_in_pool : CephFile :=
  {| name := "x"; pool := "b@c"; userId := "a"; nbStripes := 1;
     stripeUnit := 4194304; objectSize := 4194304 |}.

(** an environment that names a pool and a stripe count *)
Definition env_poolB : XrdOucEnv :=
  Some {[ "cephPool" := "poolB"; "cephNbStripes" := "4" ]}.

(** [two_handles] once [abc] is written through descriptor 0 *)
Definition two_written : World Store := exec (ceph_posix_write lib 0 abc) two_handles.

(** a name nobody stored, opened read-only as descriptor 0 on top of [pooled] *)
Definition fr_missing : CephFileRef :=
  {| file := with_name "nofile" g_defaultParams_init; flags := O_RDONLY;
     mode := 0; offset := 0 |}.
Definition missing_opened : World Store :=
  exec (ceph_posix_open lib None "nofile" O_RDONLY 0) pooled.

(** a store that has no room left *)
Definition full : Librados Store :=
  {| rados_init := fun _ => 0;
     rados_conf_read_file := 0;
     rados_connect := 0;
     rados_ioctx_create := fun _ => 0;
     striper_create := 0;
     set_object_layout_stripe_count := reject_zero;
     set_object_layout_stripe_unit := reject_zero;
     set_object_layout_object_size := reject_zero;
     striper_stat := stat;
     striper_write := fun st _ _ _ _ => (- 28, st);
     striper_read := read;
     striper_trunc := trunc;
     striper_remove := remove |}.

(** the table entries of an exclusive create of "new", of a truncating
    open of "f" and of an open with mode 0644 *)
Definition fr_new : CephFileRef :=
  {| file := with_name "new" g_defaultParams_init; flags := excl_flags;
     mode := 0; offset := 0 |}.
Definition trunc_flags : Z := Z.lor O_WRONLY O_TRUNC.
Definition fr_trunc : CephFileRef :=
  {| file := file_f; flags := trunc_flags; mode := 0; offset := 0 |}.
Definition fr_0644 : CephFileRef :=
  {| file := file_f; flags := O_RDONLY; mode := 420; offset := 0 |}.

(** a listing without any first stripe *)
Definition listing_others : DirIterator :=
  {| m_iterator := ["other.0000000000000002"; "run1.0000000000000001"];
     m_end_first := ""; m_ioctx := 2%positive |}.
(** an environment whose stripe unit has a blank after the digits, and
    one whose stripe count is no number *)
Definition env_trailing_space : XrdOucEnv := Some {[ "cephStripeUnit" := "12 " ]}.
Definition env_no_number : XrdOucEnv := Some {[ "cephNbStripes" := "x" ]}.
End Tour.

(** * Theorems *)

(** ** Strings *)

Section StringFacts.
Implicit Types (a b s : string) (c : ascii).

Lemma app_nil_string b : EmptyString +:+ b = b.
Proof. reflexivity. Qed.

Lemma app_cons_string c a b : String c a +:+ b = String c (a +:+ b).
Proof. reflexivity. Qed.

Lemma length_app_string a b :
  String.length (a +:+ b) = (String.length a + String.length b)%nat.
Proof.
  induction a; [done|]. rewrite app_cons_string. simpl. congruence.
Qed.

Lemma drop_app_string a b : Str.drop (String.length a) (a +:+ b) = b.
Proof. induction a; [done|]. by rewrite app_cons_string. Qed.

Lemma take_app_string k a b :
  (k <= String.length a)%nat -> Str.take k (a +:+ b) = Str.take k a.
Proof.
  revert k. induction a as [|c a IH]; intros k Hk; simpl in Hk.
  - by replace k with O by lia.
  - destruct k as [|k]; [done|]. rewrite app_cons_string. simpl.
    rewrite IH; [done|lia].
Qed.

Lemma take_all_string a : Str.take (String.length a) a = a.
Proof. induction a; simpl; congruence. Qed.

Lemma take_length_app a b : Str.take (String.length a) (a +:+ b) = a.
Proof. rewrite take_app_string by done. apply take_all_string. Qed.

Lemma drop_app_le k a b :
  (k <= String.length a)%nat -> Str.drop k (a +:+ b) = Str.drop k a +:+ b.
Proof.
  revert k. induction a as [|d a IH]; intros k Hk; simpl in Hk.
  - by replace k with O by lia.
  - destruct k as [|k]; [done|]. rewrite app_cons_string. simpl. apply IH. lia.
Qed.

Lemma length_drop_string k a : String.length (Str.drop k a) = (String.length a - k)%nat.
Proof. revert k. induction a; intros [|k]; simpl; auto. Qed.

Lemma lacks_nil c : lacks c EmptyString.
Proof. reflexivity. Qed.

Lemma lacks_cons c d s : lacks c (String d s) <-> Ascii.eqb c d = false /\ lacks c s.
Proof.
  unfold lacks. simpl. destruct (Ascii.eqb c d); [split; [done|by intros []]|].
  destruct (Str.index_of c s); simpl; split; try done; by intros [].
Qed.

Lemma lacks_app c a b : lacks c (a +:+ b) <-> lacks c a /\ lacks c b.
Proof.
  induction a as [|d a IH]; [rewrite app_nil_string; split; [done|by intros []]|].
  rewrite app_cons_string, !lacks_cons, IH. tauto.
Qed.

Lemma lacks_drop c k a : lacks c a -> lacks c (Str.drop k a).
Proof.
  revert k. induction a as [|d a IH]; intros [|k]; simpl; try done.
  intros [_ H]%lacks_cons. by apply IH.
Qed.

Lemma index_of_app c a r :
  lacks c a -> Str.index_of c (a +:+ String c r) = Some (String.length a).
Proof.
  induction a as [|d a IH].
  - intros _. rewrite app_nil_string. simpl. by rewrite Ascii.eqb_refl.
  - intros [E H]%lacks_cons. rewrite app_cons_string. simpl. by rewrite E, IH.
Qed.

Lemma index_of_app_lt c a b k :
  Str.index_of c (a +:+ b) = Some k -> lacks c b -> (k < String.length a)%nat.
Proof.
  revert k. induction a as [|d a IH]; intros k.
  - rewrite app_nil_string. unfold lacks. congruence.
  - rewrite app_cons_string. simpl. destruct (Ascii.eqb c d); [intros [= <-]; lia|].
    destruct (Str.index_of c (a +:+ b)) eqn:E; [|done]. simpl. intros [= <-] Hb.
    specialize (IH _ eq_refl Hb). lia.
Qed.

Lemma cstr_app a b : lacks Str.NUL a -> Str.cstr (a +:+ b) = a +:+ Str.cstr b.
Proof.
  induction a as [|c a IH]; [done|]. intros [E H]%lacks_cons.
  rewrite !app_cons_string. simpl. rewrite Ascii.eqb_sym, E. by rewrite IH.
Qed.

Lemma cstr_id a : lacks Str.NUL a -> Str.cstr a = a.
Proof.
  induction a as [|c a IH]; [done|]. intros [E H]%lacks_cons.
  simpl. rewrite Ascii.eqb_sym, E. by rewrite IH.
Qed.

Lemma lacks_cstr c a : lacks c a -> lacks c (Str.cstr a).
Proof.
  induction a as [|d a IH]; [done|]. intros [E H]%lacks_cons. simpl.
  destruct (Ascii.eqb d Str.NUL); [done|]. apply lacks_cons. auto.
Qed.

(** [find] on a string with a known first occurrence *)
Lemma str_find_app c a r j :
  lacks c a -> (j <= String.length a)%nat ->
  Str.find (a +:+ String c r) c j = Some (String.length a).
Proof.
  intros Ha Hj. unfold Str.find. rewrite drop_app_le by done.
  rewrite index_of_app by by apply lacks_drop. simpl.
  rewrite length_drop_string. f_equal. lia.
Qed.

Lemma str_find_none c s j : lacks c (Str.drop j s) -> Str.find s c j = None.
Proof. intros H. unfold Str.find. by rewrite H. Qed.

Lemma substr_app x t y :
  substr (x +:+ t +:+ y) (String.length x) (Some (String.length t)) = Val t.
Proof.
  unfold substr. rewrite length_app_string.
  destruct (Nat.ltb_spec (String.length x + String.length (t +:+ y)) (String.length x)); [lia|].
  by rewrite drop_app_string, take_length_app.
Qed.

Lemma substr_rest x t : substr (x +:+ t) (String.length x) None = Val t.
Proof.
  unfold substr. rewrite length_app_string.
  destruct (Nat.ltb_spec (String.length x + String.length t) (String.length x)); [lia|].
  by rewrite drop_app_string.
Qed.
End StringFacts.

(** ** The number parsers reject what is not a number in range *)

Section NumberFacts.
Implicit Types (s : string) (c : ascii).

Lemma is_digit_plain c :
  is_digit c = true -> isspace c = false /\ is_sign c = false /\ Ascii.eqb c Str.NUL = false.
Proof. destruct c as [[] [] [] [] [] [] [] []]; by vm_compute. Qed.

Lemma all_digits_lacks_NUL s : all_digits s = true -> lacks Str.NUL s.
Proof.
  induction s as [|c s IH]; [done|]. simpl. intros [Hc Hs]%andb_true_iff.
  apply lacks_cons. split; [|auto].
  rewrite Ascii.eqb_sym. by apply is_digit_plain.
Qed.

Lemma scan_all_digits s acc any :
  all_digits s = true ->
  scan_digits s acc any = (decimal acc s, any || negb (String.eqb s ""), EmptyString).
Proof.
  revert acc any. induction s as [|c s IH]; intros acc any; simpl.
  - intros _. by rewrite orb_false_r.
  - intros [Hc Hs]%andb_true_iff. unfold is_digit in Hc.
    destruct (digit_of c); [|done]. rewrite IH by done. by rewrite orb_true_r.
Qed.

Lemma strto_digits max s :
  s <> EmptyString -> all_digits s = true ->
  strto_unsigned max s =
    if max <? decimal 0 s
    then {| strto_value := max; strto_end := ""; strto_erange := true |}
    else {| strto_value := decimal 0 s; strto_end := ""; strto_erange := false |}.
Proof.
  intros Hne Hd. unfold strto_unsigned.
  destruct s as [|c r]; [done|]. pose proof Hd as Hd'. simpl in Hd'.
  apply andb_true_iff in Hd' as [Hc _].
  destruct (is_digit_plain _ Hc) as (Hsp & Hsg & _).
  simpl skip_space. rewrite Hsp.
  replace (match c with
           | "-"%char => (true, r) | "+"%char => (false, r)
           | _ => (false, String c r) end) with (false, String c r).
  2:{ unfold is_sign in Hsg. destruct c as [[] [] [] [] [] [] [] []]; done. }
  rewrite scan_all_digits by done. simpl. by destruct (max <? _).
Qed.

Lemma stoull_too_large s :
  s <> EmptyString -> all_digits s = true -> ULLONG_MAX < decimal 0 s ->
  stoull s = Raise (out_of_range s).
Proof.
  intros Hne Hd Hv. unfold stoull, strtoull.
  rewrite cstr_id by by apply all_digits_lacks_NUL.
  rewrite strto_digits by done. by destruct (Z.ltb_spec ULLONG_MAX (decimal 0 s)); [|lia].
Qed.

Lemma stoui_too_large s :
  s <> EmptyString -> all_digits s = true -> UINT_MAX < decimal 0 s ->
  stoui s = Raise (out_of_range s).
Proof.
  intros Hne Hd Hv. unfold stoui, strtoul.
  rewrite cstr_id by by apply all_digits_lacks_NUL.
  rewrite strto_digits by done.
  destruct (Z.ltb_spec ULONG_MAX (decimal 0 s)); simpl; [done|].
  by destruct (Z.ltb_spec UINT_MAX (decimal 0 s)); [|lia].
Qed.

Lemma stoull_raises s e : stoull s = Raise e -> layout_exn e.
Proof.
  unfold stoull. repeat case_match; intros [= <-]; exists s; auto.
Qed.

Lemma stoui_raises s e : stoui s = Raise e -> layout_exn e.
Proof.
  unfold stoui. repeat case_match; intros [= <-]; exists s; auto.
Qed.

End NumberFacts.

(** ** What the number parsers take *)

Section NumberShape.
Implicit Types (s t : string) (c : ascii).

Lemma lacks_NUL_cstr s : lacks Str.NUL (Str.cstr s).
Proof.
  induction s as [|c s IH]; [done|]. simpl.
  destruct (Ascii.eqb c Str.NUL) eqn:E; [done|].
  apply lacks_cons. split; [by rewrite Ascii.eqb_sym|done].
Qed.

Lemma lacks_skip_space c s : lacks c s -> lacks c (skip_space s).
Proof.
  induction s as [|d s IH]; [done|]. simpl. intros H.
  destruct (isspace d); [|done]. apply IH. by apply lacks_cons in H as [_ H].
Qed.

Lemma deref_lacks s :
  s <> EmptyString -> lacks Str.NUL s -> Ascii.eqb (Str.deref s) Str.NUL = false.
Proof.
  destruct s as [|c s]; [done|]. intros _ [E _]%lacks_cons. simpl.
  by rewrite Ascii.eqb_sym.
Qed.

Lemma scan_not_all_digits s acc any :
  all_digits s = false -> lacks Str.NUL s ->
  Ascii.eqb (Str.deref (scan_digits s acc any).2) Str.NUL = false.
Proof.
  revert acc any. induction s as [|c s IH]; intros acc any; [done|]. simpl.
  intros Hd Hn. unfold is_digit in Hd. destruct (digit_of c) as [d|].
  - simpl in Hd. apply IH; [done|]. by apply lacks_cons in Hn as [_ Hn].
  - by apply deref_lacks.
Qed.

Lemma sign_and_digits_cases t :
  sign_and_digits t = (false, skip_space t) \/
  exists neg c r, skip_space t = String c r /\ sign_and_digits t = (neg, r).
Proof.
  unfold sign_and_digits. destruct (skip_space t) as [|c r]; [by left|].
  destruct (Ascii.eqb_spec c "-") as [->|N1]; [right; by exists true, "-"%char, r|].
  destruct (Ascii.eqb_spec c "+") as [->|N2]; [right; by exists false, "+"%char, r|].
  left. destruct c as [[] [] [] [] [] [] [] []]; done.
Qed.

Lemma sign_and_digits_lacks c t :
  lacks c t -> lacks c (sign_and_digits t).2.
Proof.
  intros H%lacks_skip_space.
  destruct (sign_and_digits_cases t) as [->|(neg & d & r & E & ->)]; [done|].
  simpl. rewrite E in H. by apply lacks_cons in H as [_ H].
Qed.

Lemma sign_and_digits_empty : sign_and_digits "" = (false, EmptyString).
Proof. reflexivity. Qed.

Lemma strto_unsigned_eq max t :
  strto_unsigned max t =
    let '(neg, s2) := sign_and_digits t in
    let '(v, any, rest) := scan_digits s2 0 false in
    if negb any then {| strto_value := 0; strto_end := t; strto_erange := false |}
    else if max <? v then {| strto_value := max; strto_end := rest; strto_erange := true |}
    else {| strto_value := (if neg then (- v) mod (max + 1) else v);
            strto_end := rest; strto_erange := false |}.
Proof. reflexivity. Qed.

(** the three things [strtoul] can do with a C string *)
Lemma strto_shape max t :
  lacks Str.NUL t ->
  let neg := (sign_and_digits t).1 in
  let ds := (sign_and_digits t).2 in
  let r := strto_unsigned max t in
  if String.eqb t "" then
    r = {| strto_value := 0; strto_end := ""; strto_erange := false |}
  else if negb (all_digits ds) || String.eqb ds "" then
    Ascii.eqb (Str.deref (strto_end r)) Str.NUL = false
  else
    strto_end r = EmptyString /\ strto_erange r = (max <? decimal 0 ds) /\
    (strto_erange r = false ->
     strto_value r = if neg then (- decimal 0 ds) mod (max + 1) else decimal 0 ds).
Proof.
  intros Hn neg ds r.
  destruct (String.eqb_spec t "") as [->|Hne]; [done|].
  pose proof (sign_and_digits_lacks _ _ Hn) as Hds. fold ds in Hds.
  subst r. rewrite strto_unsigned_eq.
  subst neg ds. destruct (sign_and_digits t) as [neg ds]. simpl in *.
  destruct (all_digits ds) eqn:Hd; simpl.
  - rewrite scan_all_digits by done. simpl.
    destruct (String.eqb_spec ds "") as [->|Hds']; simpl.
    + by apply deref_lacks.
    + destruct (max <? decimal 0 ds); simpl; by repeat split.
  - pose proof (scan_not_all_digits ds 0 false Hd Hds) as Hr.
    destruct (scan_digits ds 0 false) as [[v any] rest]. simpl in Hr.
    destruct any; simpl; [by destruct (max <? v)|by apply deref_lacks].
Qed.

Lemma mod_below m : (m mod (ULLONG_MAX + 1) <= ULLONG_MAX).
Proof. pose proof (Z.mod_pos_bound m (ULLONG_MAX + 1)). unfold ULLONG_MAX in *. lia. Qed.

(** [stoull] throws exactly on the rejected texts *)
Lemma stoull_rejected s :
  match stoull s with
  | Val _ => rejected ULLONG_MAX s = false
  | Raise _ => rejected ULLONG_MAX s = true
  end.
Proof.
  unfold stoull, strtoull, rejected.
  pose proof (strto_shape ULLONG_MAX (Str.cstr s) (lacks_NUL_cstr s)) as H.
  simpl in H. destruct (sign_and_digits (Str.cstr s)) as [neg ds]. simpl in H.
  destruct (String.eqb (Str.cstr s) ""); [by rewrite H|]. cbn [negb andb].
  destruct (negb (all_digits ds) || String.eqb ds "") eqn:E.
  - by rewrite H.
  - destruct H as (-> & He & Hv). cbn [orb Str.deref negb]. rewrite Ascii.eqb_refl.
    cbn [negb]. change ULONG_MAX with ULLONG_MAX.
    destruct (strto_erange _); rewrite <- He; [done|]. simpl.
    apply Z.ltb_ge.
    destruct neg; [apply mod_below|]. symmetry in He. apply Z.ltb_ge in He. lia.
Qed.

(** ... and so does [stoui], with the range of [unsigned int] *)
Lemma stoui_rejected s :
  match stoui s with
  | Val _ => rejected UINT_MAX s = false
  | Raise _ => rejected UINT_MAX s = true
  end.
Proof.
  unfold stoui, strtoul, rejected.
  pose proof (strto_shape ULONG_MAX (Str.cstr s) (lacks_NUL_cstr s)) as H.
  simpl in H. destruct (sign_and_digits (Str.cstr s)) as [neg ds]. simpl in H.
  destruct (String.eqb (Str.cstr s) ""); [by rewrite H|]. cbn [negb andb].
  destruct (negb (all_digits ds) || String.eqb ds "") eqn:E.
  - by rewrite H.
  - destruct H as (-> & He & Hv). cbn [orb Str.deref negb]. rewrite Ascii.eqb_refl.
    cbn [negb].
    destruct (strto_erange _); rewrite <- He; [done|]. cbn [orb].
    rewrite Hv by done. by destruct (UINT_MAX <? _).
Qed.
End NumberShape.

(** ** The fillers on parameters of a known shape *)

Section FindFacts.
Implicit Types (x t y : string) (c : ascii).

Lemma app_assoc_string x t y : (x +:+ t) +:+ y = x +:+ t +:+ y.
Proof. induction x; [done|]. rewrite !app_cons_string. congruence. Qed.

Lemma drop_succ_app x c r : Str.drop (S (String.length x)) (x +:+ String c r) = r.
Proof. induction x; [done|]. by rewrite app_cons_string. Qed.

Lemma find_after x t c r :
  lacks c t ->
  Str.find (x +:+ t +:+ String c r) c (String.length x)
    = Some (String.length x + String.length t)%nat.
Proof.
  intros Ht. unfold Str.find. rewrite drop_app_string. by rewrite index_of_app.
Qed.

Lemma find_none_after x t c :
  lacks c t -> Str.find (x +:+ t) c (String.length x) = None.
Proof. intros Ht. apply str_find_none. by rewrite drop_app_string. Qed.

Lemma length_eqb_app x t :
  t <> EmptyString -> (String.length (x +:+ t) =? String.length x)%nat = false.
Proof.
  intros Ht. apply Nat.eqb_neq. rewrite length_app_string.
  destruct t; [done|]. simpl. lia.
Qed.
End FindFacts.

Section FillerFacts.
Variable defaults : CephFile.
Implicit Types (f : CephFile) (env : XrdOucEnv) (x t y : string).

(** a field followed by a comma, and a field that ends the parameters *)
Lemma fillCephNbStripes_inner params off x t y env f :
  params = x +:+ t +:+ "," +:+ y -> off = String.length x -> lacks "," t ->
  fillCephNbStripes defaults params off env f =
    ebind (stoui t) (fun n =>
      Val (String.length (x +:+ t +:+ ","),
           with_nbStripes n (with_nbStripes (nbStripes defaults) f))).
Proof.
  intros -> -> Ht. unfold fillCephNbStripes.
  change ("," +:+ y) with (String "," y).
  rewrite find_after by done.
  replace (String.length x + String.length t - String.length x)%nat
    with (String.length t) by lia.
  rewrite substr_app. simpl. destruct (stoui t); [|done]. simpl.
  rewrite !length_app_string. simpl. do 3 f_equal. lia.
Qed.

Lemma fillCephNbStripes_last params off x t env f :
  params = x +:+ t -> off = String.length x -> lacks "," t -> t <> EmptyString ->
  fillCephNbStripes defaults params off env f =
    ebind (stoui t) (fun n =>
      Val (String.length (x +:+ t),
           with_nbStripes n (with_nbStripes (nbStripes defaults) f))).
Proof.
  intros -> -> Ht Hne. unfold fillCephNbStripes.
  rewrite find_none_after, length_eqb_app, substr_rest by done. done.
Qed.

Lemma fillCephStripeUnit_inner params off x t y env f :
  params = x +:+ t +:+ "," +:+ y -> off = String.length x -> lacks "," t ->
  fillCephStripeUnit defaults params off env f =
    ebind (stoull t) (fun n =>
      Val (String.length (x +:+ t +:+ ","),
           with_stripeUnit n (with_stripeUnit (stripeUnit defaults) f))).
Proof.
  intros -> -> Ht. unfold fillCephStripeUnit.
  change ("," +:+ y) with (String "," y).
  rewrite find_after by done.
  replace (String.length x + String.length t - String.length x)%nat
    with (String.length t) by lia.
  rewrite substr_app. simpl. destruct (stoull t); [|done]. simpl.
  rewrite !length_app_string. simpl. do 3 f_equal. lia.
Qed.

Lemma fillCephStripeUnit_last params off x t env f :
  params = x +:+ t -> off = String.length x -> lacks "," t -> t <> EmptyString ->
  fillCephStripeUnit defaults params off env f =
    ebind (stoull t) (fun n =>
      Val (String.length (x +:+ t),
           with_stripeUnit n (with_stripeUnit (stripeUnit defaults) f))).
Proof.
  intros -> -> Ht Hne. unfold fillCephStripeUnit.
  rewrite find_none_after, length_eqb_app, substr_rest by done. done.
Qed.

Lemma fillCephObjectSize_last params off x t env f :
  params = x +:+ t -> off = String.length x -> t <> EmptyString ->
  fillCephObjectSize defaults params off env f =
    ebind (stoull t) (fun n =>
      Val (with_objectSize n (with_objectSize (objectSize defaults) f))).
Proof.
  intros -> -> Hne. unfold fillCephObjectSize.
  rewrite length_eqb_app, substr_rest by done. done.
Qed.

Lemma fillCephFile_colon params n env f :
  lacks ":" params -> lacks Str.NUL params ->
  fillCephFile defaults (params +:+ ":" +:+ n) env f =
    fillCephFileParams defaults params env (with_name (Str.cstr n) f).
Proof.
  intros Hc Hn. unfold fillCephFile. rewrite cstr_app by done.
  change (Str.cstr (":" +:+ n)) with (String ":" (Str.cstr n)).
  rewrite str_find_app by (done || lia).
  unfold substr. rewrite length_app_string. simpl String.length.
  destruct (Nat.ltb_spec (String.length params + S (String.length (Str.cstr n)))
              (S (String.length params))); [lia|].
  rewrite drop_succ_app. cbn [ebind]. change (Str.drop 0 ?s) with s.
  by rewrite take_length_app.
Qed.

Lemma fillCephFile_plain path env f :
  lacks ":" path ->
  fillCephFile defaults path env f =
    fillCephFileParams defaults "" env (with_name (Str.cstr path) f).
Proof.
  intros Hc. unfold fillCephFile.
  rewrite str_find_none; [done|]. simpl. by apply lacks_cstr.
Qed.

End FillerFacts.

(** ** The parser reads the fields of the syntax *)

Section FieldFacts.
Implicit Types (p r s t : string) (c : ascii) (off i k : nat).

Lemma index_of_bound c s i : Str.index_of c s = Some i -> (i < String.length s)%nat.
Proof.
  revert i. induction s as [|d s IH]; intros i; [done|]. simpl.
  destruct (Ascii.eqb c d); [intros [= <-]; lia|].
  destruct (Str.index_of c s) as [j|]; [|done]. simpl. intros [= <-].
  specialize (IH _ eq_refl). lia.
Qed.

Lemma drop_drop_string k off s : Str.drop k (Str.drop off s) = Str.drop (off + k) s.
Proof.
  revert off. induction s as [|d s IH]; intros [|off]; simpl; try done.
  - by destruct k.
Qed.

Lemma drop_empty_iff off s :
  (off <= String.length s)%nat ->
  (String.length s =? off)%nat = String.eqb (Str.drop off s) "".
Proof.
  intros H. pose proof (length_drop_string off s) as L.
  destruct (Str.drop off s) as [|d r]; simpl in *.
  - apply Nat.eqb_eq. lia.
  - apply Nat.eqb_neq. lia.
Qed.

Lemma substr_from s off : (off <= String.length s)%nat -> substr s off None = Val (Str.drop off s).
Proof. intros H. unfold substr. by destruct (Nat.ltb_spec (String.length s) off); [lia|]. Qed.

Lemma substr_piece s off k :
  (off <= String.length s)%nat -> substr s off (Some k) = Val (Str.take k (Str.drop off s)).
Proof. intros H. unfold substr. by destruct (Nat.ltb_spec (String.length s) off); [lia|]. Qed.

Lemma written_eqb r : written r = if String.eqb r "" then None else Some r.
Proof. by destruct r. Qed.

(** the position after the field at [off]: it is where the rest of
    [next_field] starts *)
Lemma next_field_offset p off :
  (off <= String.length p)%nat ->
  let off' := match Str.index_of "," (Str.drop off p) with
              | Some i => S (off + i)
              | None => String.length p
              end in
  (off' <= String.length p)%nat /\ Str.drop off' p = (next_field (Str.drop off p)).2.
Proof.
  intros H. unfold next_field.
  destruct (Str.index_of "," (Str.drop off p)) as [i|] eqn:E; cbn [snd].
  - apply index_of_bound in E. rewrite length_drop_string in E.
    split; [lia|]. rewrite drop_drop_string. f_equal. lia.
  - split; [done|]. pose proof (length_drop_string (String.length p) p) as L.
    destruct (Str.drop (String.length p) p); [done|]. simpl in L. lia.
Qed.
End FieldFacts.

Section FieldSteps.
Variable defaults : CephFile.
Implicit Types (p r s t : string) (env : XrdOucEnv) (f : CephFile) (off : nat).

Lemma fillCephUserId_step p env f :
  exists off f', fillCephUserId defaults p env f = Val (off, f') /\
                 (off <= String.length p)%nat /\ Str.drop off p = after_user p.
Proof.
  unfold fillCephUserId, after_user, Str.find. change (Str.drop 0 p) with p.
  destruct (Str.index_of "@" p) as [i|] eqn:E; cbn [option_map Nat.add].
  - apply index_of_bound in E. rewrite substr_piece by lia. cbn [ebind].
    eexists _, _. split; [done|]. split; [lia|done].
  - eexists _, _. split; [done|]. split; [lia|done].
Qed.

Lemma fillCephPool_step p off env f :
  (off <= String.length p)%nat ->
  exists off' f', fillCephPool defaults p off env f = Val (off', f') /\
                  (off' <= String.length p)%nat /\
                  Str.drop off' p = (next_field (Str.drop off p)).2.
Proof.
  intros H. destruct (next_field_offset p off H) as [H1 H2].
  unfold fillCephPool, Str.find.
  destruct (Str.index_of "," (Str.drop off p)) as [i|] eqn:E; cbn [option_map].
  - rewrite substr_piece by done. cbn [ebind]. by eexists _, _.
  - destruct (String.length p =? off)%nat; [by eexists _, _|].
    rewrite substr_from by done. cbn [ebind]. by eexists _, _.
Qed.

(** a numeric field: the text comes from the path or the environment and
    goes through the number parser *)
Lemma fillCephNbStripes_step p off env f :
  (off <= String.length p)%nat ->
  exists off',
    (off' <= String.length p)%nat /\
    Str.drop off' p = (next_field (Str.drop off p)).2 /\
    fillCephNbStripes defaults p off env f =
      match field_text (next_field (Str.drop off p)).1 env "cephNbStripes" with
      | Some t => ebind (stoui t) (fun n =>
                    Val (off', with_nbStripes n (with_nbStripes (nbStripes defaults) f)))
      | None => Val (off', with_nbStripes (nbStripes defaults) f)
      end.
Proof.
  intros H. destruct (next_field_offset p off H) as [H1 H2].
  eexists. split; [exact H1|]. split; [exact H2|].
  unfold fillCephNbStripes, Str.find, next_field.
  rewrite (drop_empty_iff off p H), written_eqb.
  destruct (Str.index_of "," (Str.drop off p)) as [i|] eqn:E;
    cbn [option_map fst field_text].
  - rewrite substr_piece by done. cbn [ebind].
    by replace (off + i - off)%nat with i by lia.
  - destruct (String.eqb (Str.drop off p) ""); cbn [field_text].
    + by destruct (env_Get env "cephNbStripes").
    + by rewrite substr_from.
Qed.

Lemma fillCephStripeUnit_step p off env f :
  (off <= String.length p)%nat ->
  exists off',
    (off' <= String.length p)%nat /\
    Str.drop off' p = (next_field (Str.drop off p)).2 /\
    fillCephStripeUnit defaults p off env f =
      match field_text (next_field (Str.drop off p)).1 env "cephStripeUnit" with
      | Some t => ebind (stoull t) (fun n =>
                    Val (off', with_stripeUnit n (with_stripeUnit (stripeUnit defaults) f)))
      | None => Val (off', with_stripeUnit (stripeUnit defaults) f)
      end.
Proof.
  intros H. destruct (next_field_offset p off H) as [H1 H2].
  eexists. split; [exact H1|]. split; [exact H2|].
  unfold fillCephStripeUnit, Str.find, next_field.
  rewrite (drop_empty_iff off p H), written_eqb.
  destruct (Str.index_of "," (Str.drop off p)) as [i|] eqn:E;
    cbn [option_map fst field_text].
  - rewrite substr_piece by done. cbn [ebind].
    by replace (off + i - off)%nat with i by lia.
  - destruct (String.eqb (Str.drop off p) ""); cbn [field_text].
    + by destruct (env_Get env "cephStripeUnit").
    + by rewrite substr_from.
Qed.

Lemma fillCephObjectSize_step p off env f :
  (off <= String.length p)%nat ->
  fillCephObjectSize defaults p off env f =
    match field_text (written (Str.drop off p)) env "cephObjectSize" with
    | Some t => ebind (stoull t) (fun n =>
                  Val (with_objectSize n (with_objectSize (objectSize defaults) f)))
    | None => Val (with_objectSize (objectSize defaults) f)
    end.
Proof.
  intros H. unfold fillCephObjectSize.
  rewrite (drop_empty_iff off p H), written_eqb.
  destruct (String.eqb (Str.drop off p) ""); cbn [field_text].
  - by destruct (env_Get env "cephObjectSize").
  - by rewrite substr_from.
Qed.

Lemma rejected_field_stoui text :
  match text with
  | Some t => match stoui t with
              | Val _ => rejected_field UINT_MAX text = false
              | Raise e => rejected_field UINT_MAX text = true /\ layout_exn e
              end
  | None => rejected_field UINT_MAX text = false
  end.
Proof.
  destruct text as [t|]; [|done]. simpl.
  pose proof (stoui_rejected t) as H. pose proof (stoui_raises t) as R.
  destruct (stoui t); [done|]. split; [done|]. by apply R.
Qed.

Lemma rejected_field_stoull text :
  match text with
  | Some t => match stoull t with
              | Val _ => rejected_field ULLONG_MAX text = false
              | Raise e => rejected_field ULLONG_MAX text = true /\ layout_exn e
              end
  | None => rejected_field ULLONG_MAX text = false
  end.
Proof.
  destruct text as [t|]; [|done]. simpl.
  pose proof (stoull_rejected t) as H. pose proof (stoull_raises t) as R.
  destruct (stoull t); [done|]. split; [done|]. by apply R.
Qed.

Lemma objectSize_bad p off env f r3 :
  (off <= String.length p)%nat -> Str.drop off p = r3 ->
  match fillCephObjectSize defaults p off env f with
  | Val _ => rejected_field ULLONG_MAX (field_text (written r3) env "cephObjectSize") = false
  | Raise e => rejected_field ULLONG_MAX (field_text (written r3) env "cephObjectSize") = true
               /\ layout_exn e
  end.
Proof.
  intros L <-. rewrite fillCephObjectSize_step by done.
  pose proof (rejected_field_stoull
                (field_text (written (Str.drop off p)) env "cephObjectSize")) as R.
  destruct (field_text _ env "cephObjectSize") as [t|]; [|done].
  by destruct (stoull t).
Qed.

Lemma stripeUnit_bad p off env f r2 b r3 :
  (off <= String.length p)%nat -> Str.drop off p = r2 -> next_field r2 = (b, r3) ->
  match ebind (fillCephStripeUnit defaults p off env f)
          (fun '(afterStripeUnit, f) =>
             fillCephObjectSize defaults p afterStripeUnit env f) with
  | Val _ =>
      rejected_field ULLONG_MAX (field_text b env "cephStripeUnit") ||
      rejected_field ULLONG_MAX (field_text (written r3) env "cephObjectSize") = false
  | Raise e =>
      rejected_field ULLONG_MAX (field_text b env "cephStripeUnit") ||
      rejected_field ULLONG_MAX (field_text (written r3) env "cephObjectSize") = true
      /\ layout_exn e
  end.
Proof.
  intros L <- N.
  destruct (fillCephStripeUnit_step p off env f L) as (o & Lo & Do & ->).
  rewrite N in Do |- *. cbn [fst snd] in *.
  pose proof (rejected_field_stoull (field_text b env "cephStripeUnit")) as R.
  destruct (field_text b env "cephStripeUnit") as [t|].
  - destruct (stoull t) as [n|e]; cbn [ebind]; [|destruct R as [-> ?]; by split].
    rewrite R. cbn [orb]. by apply objectSize_bad.
  - rewrite R. cbn [ebind orb]. by apply objectSize_bad.
Qed.

(** the parameters are turned down exactly when a field text is *)
Lemma fillCephFileParams_bad p env f :
  match fillCephFileParams defaults p env f with
  | Val _ => bad_params p env = false
  | Raise e => bad_params p env = true /\ layout_exn e
  end.
Proof.
  unfold fillCephFileParams, bad_params.
  destruct (fillCephUserId_step p env f) as (o0 & f0 & -> & L0 & D0). cbn [ebind].
  destruct (fillCephPool_step p o0 env f0 L0) as (o1 & f1 & -> & L1 & D1). cbn [ebind].
  rewrite D0 in D1.
  destruct (fillCephNbStripes_step p o1 env f1 L1) as (o2 & L2 & D2 & ->).
  rewrite D1 in D2 |- *.
  destruct (next_field (after_user p)) as [pl r1]. cbn [fst snd] in *.
  destruct (next_field r1) as [a r2]. cbn [fst snd] in *.
  destruct (next_field r2) as [b r3] eqn:N2.
  pose proof (rejected_field_stoui (field_text a env "cephNbStripes")) as R.
  destruct (field_text a env "cephNbStripes") as [t|].
  - destruct (stoui t) as [n|e]; cbn [ebind]; [|destruct R as [-> ?]; by split].
    rewrite R. cbn [orb]. by eapply stripeUnit_bad.
  - rewrite R. cbn [ebind orb]. by eapply stripeUnit_bad.
Qed.

Lemma fillCephFile_params path env f :
  exists n, fillCephFile defaults path env f =
            fillCephFileParams defaults (params_of path) env (with_name n f).
Proof.
  unfold fillCephFile, params_of, Str.find. change (Str.drop 0 ?s) with s.
  destruct (Str.index_of ":" (Str.cstr path)) as [i|] eqn:E; cbn [option_map Nat.add].
  - apply index_of_bound in E.
    rewrite substr_from by lia. rewrite substr_piece by lia. cbn [ebind].
    change (Str.drop 0 ?s) with s. by eexists.
  - by eexists.
Qed.

(** a layout is turned down exactly when it is bad, and then with one of
    the two exceptions of the number parsers *)
Lemma fillCephFile_verdict path env f :
  match fillCephFile defaults path env f with
  | Val _ => bad_layout path env = false
  | Raise e => bad_layout path env = true /\ layout_exn e
  end.
Proof.
  destruct (fillCephFile_params path env f) as (n & ->). apply fillCephFileParams_bad.
Qed.

Lemma fillCephFile_bad path env f :
  bad_layout path env = true ->
  exists e, fillCephFile defaults path env f = Raise e /\ layout_exn e.
Proof.
  intros H. pose proof (fillCephFile_verdict path env f) as B.
  destruct (fillCephFile defaults path env f) as [g|e]; [congruence|].
  exists e. by destruct B.
Qed.

Lemma good_layout_parses path env f :
  bad_layout path env = false ->
  exists g, fillCephFile defaults path env f = Val g.
Proof.
  intros H. pose proof (fillCephFile_verdict path env f) as B.
  destruct (fillCephFile defaults path env f) as [g|e]; [by exists g|].
  destruct B. congruence.
Qed.
End FieldSteps.

(** ** The pool, the heap and the descriptor table *)

Ltac run :=
  unfold bind, ret, get, modify, undefined, of_except in *; simpl in *.

Section PoolFacts.
Context {Store : Type} (lib : Librados Store).
Implicit Types (w : World Store) (f : CephFile).

Lemma World_eq w w' :
  g_radosStripers w = g_radosStripers w' -> g_ioCtx w = g_ioCtx w' ->
  g_cluster w = g_cluster w' -> g_fds w = g_fds w' ->
  g_filesOpenForWrite w = g_filesOpenForWrite w' ->
  g_nextCephFd w = g_nextCephFd w' -> g_defaultParams w = g_defaultParams w' ->
  live w = live w' -> store w = store w' -> w = w'.
Proof. destruct w, w'; simpl; intros; by subst. Qed.

Lemma delete_live p w :
  p ∈ live w -> cxx_delete (Some p) w = Ret tt (set_live (live w ∖ {[p]}) w).
Proof. intros H. unfold cxx_delete. by rewrite decide_True. Qed.

Lemma cluster_teardown_live c w :
  g_cluster w = Some c -> c ∈ live w ->
  cluster_teardown w = Ret tt (set_g_cluster None (set_live (live w ∖ {[c]}) w)).
Proof.
  intros Hc Hl. unfold cluster_teardown, cluster_deref, cxx_delete; run.
  rewrite Hc. by repeat (rewrite decide_True by done; simpl).
Qed.

(** the statements that undo a session under construction *)
Lemma rollback c io st w :
  g_cluster w = Some c -> c ∈ live w -> io ∈ live w -> st ∈ live w ->
  c <> io -> c <> st -> io <> st ->
  (bind (cxx_delete (Some st)) (fun _ => bind (cxx_delete (Some io)) (fun _ =>
     bind cluster_teardown (fun _ => ret (@None ptr))))) w
  = Ret None (set_g_cluster None (set_live (live w ∖ {[st]} ∖ {[io]} ∖ {[c]}) w)).
Proof.
  intros Hc Hl Hio Hst ? ? ?. unfold bind at 1. rewrite delete_live by done.
  unfold bind at 1. rewrite delete_live by (simpl; set_solver).
  unfold bind at 1. erewrite cluster_teardown_live by (simpl; done || set_solver).
  reflexivity.
Qed.

(** the pool never touches the descriptor table, the write intents, the
    defaults or the store, and never throws *)
Lemma getRadosStriper_frame f w r w' :
  getRadosStriper lib f w = Ret r w' -> same_files w w'.
Proof.
  unfold getRadosStriper, connect_cluster, cluster_teardown, cluster_deref,
    cxx_delete, cxx_new, same_files; run.
  intros H. repeat (case_match; simplify_eq/=); done.
Qed.

Lemma getRadosStriper_pooled f w s w' :
  getRadosStriper lib f w = Ret (Some s) w' ->
  g_radosStripers w' !! userAtPool f = Some s.
Proof.
  unfold getRadosStriper, connect_cluster, cluster_teardown, cluster_deref,
    cxx_delete, cxx_new; run.
  intros H. repeat (case_match; simplify_eq/=); done.
Qed.

Lemma getRadosStriper_hit f w s :
  g_radosStripers w !! userAtPool f = Some s ->
  getRadosStriper lib f w = Ret (Some s) w.
Proof. intros H. unfold getRadosStriper; run. by rewrite H. Qed.

Lemma delete_each_keeps ps w w' :
  cxx_delete_each ps w = Ret tt w' ->
  g_cluster w' = g_cluster w /\ g_radosStripers w' = g_radosStripers w /\
  g_ioCtx w' = g_ioCtx w /\ live w' ⊆ live w.
Proof.
  revert w. induction ps as [|p ps IH]; intros w; simpl.
  - run. by intros [= <-].
  - unfold bind at 1. unfold cxx_delete. case_decide; [|done]. intros HH.
    apply IH in HH as (-> & -> & -> & Hl). simpl in *. repeat split; set_solver.
Qed.

Lemma getCephFileRef_flags d path env fl md o fr :
  getCephFileRef d path env fl md o = Val fr -> flags fr = fl.
Proof.
  unfold getCephFileRef, ebind. destruct (fillCephFile _ _ _ _); [|done].
  by intros [= <-].
Qed.

Lemma to_int_small z : - 2 ^ 31 <= z < 2 ^ 31 -> to_int z = z.
Proof.
  intros H. unfold to_int.
  destruct (Z.ltb_spec (z mod 2 ^ 32) (2 ^ 31)) as [L|L].
  - destruct (Z.le_gt_cases 0 z).
    + rewrite Z.mod_small; lia.
    + rewrite <- (Z.mod_add _ 1) in L by lia. rewrite Z.mod_small in L; lia.
  - destruct (Z.le_gt_cases 0 z).
    + rewrite Z.mod_small in L; lia.
    + rewrite <- (Z.mod_add _ 1) by lia. rewrite Z.mod_small; lia.
Qed.

Lemma to_ull_small z : 0 <= z < 2 ^ 64 -> to_ull z = z.
Proof. intros H. unfold to_ull. by apply Z.mod_small. Qed.
End PoolFacts.

(** the in-memory store gives back what it accepted *)
Lemma mem_read_after_write : read_after_write MemStore.lib.
Proof.
  intros st s n buf off st'. simpl. unfold MemStore.write, MemStore.read.
  intros [= <-]. rewrite lookup_insert_eq.
  set (old := match st !! n with Some (data, _) => data | None => [] end).
  set (o := Z.to_nat off).
  assert (length (take o (old ++ MemStore.zeros (o - length old))) = o) as L.
  { rewrite length_take, length_app. unfold MemStore.zeros. rewrite length_replicate. lia. }
  rewrite drop_app_length' by done.
  by rewrite Nat2Z.id, take_app_length.
Qed.

(** ** The claims *)

Section Claims.
Context {Store : Type} (lib : Librados Store).
Implicit Types (w : World Store) (f : CephFile).


(** C2, what the code does at the failing input: an open with O_CREAT
    and O_EXCL of a name the store already holds returns -EEXIST, but the
    descriptor was entered in [g_fds] under the next handle, the handle
    counter was advanced and, for a write mode, the name was added to
    [g_filesOpenForWrite] before the probe, and nothing takes them back. *)
Theorem open_excl_existing_keeps_descriptor env path fl md w fr s w1 :
  getCephFileRef (g_defaultParams w) path env fl md 0 = Val fr ->
  Z.land fl O_CREAT <> 0 -> Z.land fl O_EXCL <> 0 ->
  getRadosStriper lib (file fr) (registered fr w) = Ret (Some s) w1 ->
  (striper_stat lib (store w1) s (name (file fr))).1.1 = 0 ->
  ceph_posix_open lib env path fl md w = Ret (- EEXIST) w1 /\
  g_fds w1 = <[g_nextCephFd w := fr]> (g_fds w) /\
  g_nextCephFd w1 = to_uint (g_nextCephFd w + 1) /\
  g_filesOpenForWrite w1 =
    (if accmode fl =? 0 then g_filesOpenForWrite w
     else {[+ name (file fr) +]} ⊎ g_filesOpenForWrite w).
Proof.
  intros Hfr Hc He Hs Hst.
  pose proof (getCephFileRef_flags _ _ _ _ _ _ _ Hfr) as Hfl.
  destruct (getRadosStriper_frame _ _ _ _ _ Hs) as (F1 & F2 & F3 & _).
  split.
  - unfold ceph_posix_open; run. rewrite Hfr.
    apply Z.eqb_neq in Hc, He. rewrite Hc, He. simpl.
    unfold registered, accmode in Hs. rewrite Hfl in Hs. simpl in Hs.
    destruct (Z.land fl (Z.lor O_WRONLY O_RDWR) =? 0); simpl in *; rewrite Hs;
      destruct (striper_stat _ _ _ _) as [[rc sz] tm]; simpl in Hst; by subst rc.
  - rewrite F1, F2, F3. unfold registered. rewrite Hfl.
    by destruct (accmode fl =? 0).
Qed.

(** the write guard lets a read-write handle through: with the session
    at hand and the store accepting the bytes, the write returns the count *)
Lemma write_accepts_read_write_handle fd buf w fr s w1 st' :
  find_fd fd w = Some fr ->
  accmode (flags fr) = O_RDWR ->
  getRadosStriper lib (file fr) w = Ret (Some s) w1 ->
  striper_write lib (store w1) s (name (file fr)) buf (offset fr) = (0, st') ->
  exists w2, ceph_posix_write lib fd buf w = Ret (Z.of_nat (length buf)) w2.
Proof.
  intros Hfd Hacc Hs Hst. unfold accmode in Hacc.
  unfold ceph_posix_write; run. rewrite Hfd, Hacc. simpl. rewrite Hs, Hst. simpl.
  by eexists.
Qed.

(** ... and stops a read-only handle *)
Lemma write_rejects_read_only_handle fd buf w fr :
  find_fd fd w = Some fr ->
  accmode (flags fr) = 0 ->
  ceph_posix_write lib fd buf w = Ret (- EBADF) w /\
  forall off, ceph_posix_pwrite lib fd buf off w = Ret (- EBADF) w.
Proof.
  intros Hfd Hacc. unfold accmode in Hacc.
  unfold ceph_posix_write, ceph_posix_pwrite; run. by rewrite Hfd, Hacc.
Qed.

(** C3, what the code does at the failing input: a known handle whose
    flags have O_WRONLY or O_RDWR set, so in particular a handle opened
    O_RDWR, is rejected with -EBADF by [ceph_posix_read] and by
    [ceph_posix_pread], and the world is left as it was. *)
Theorem read_rejects_read_write_handle fd count off w fr :
  find_fd fd w = Some fr ->
  accmode (flags fr) <> 0 ->
  ceph_posix_read lib fd count w = Ret (- EBADF, []) w /\
  ceph_posix_pread lib fd count off w = Ret (- EBADF, []) w.
Proof.
  intros Hfd Hacc. apply Z.eqb_neq in Hacc. unfold accmode in Hacc.
  unfold ceph_posix_read, ceph_posix_pread; run. by rewrite Hfd, Hacc.
Qed.

(** whatever a write through a handle returns, the handle is in a write
    mode afterwards as before, and a read through it is turned away *)
Lemma read_after_own_write_rejected fd buf count w fr r w1 :
  find_fd fd w = Some fr ->
  accmode (flags fr) <> 0 ->
  ceph_posix_write lib fd buf w = Ret r w1 ->
  ceph_posix_read lib fd count w1 = Ret (- EBADF, []) w1.
Proof.
  intros Hfd Hacc Hwr. apply Z.eqb_neq in Hacc. unfold accmode in Hacc.
  assert (exists fr', find_fd fd w1 = Some fr' /\ flags fr' = flags fr) as (fr' & Hfd' & Hfl).
  { unfold ceph_posix_write in Hwr. unfold bind at 1, get at 1 in Hwr.
    rewrite Hfd, Hacc in Hwr. unfold bind at 1 in Hwr.
    destruct (getRadosStriper lib (file fr) w) as [[s|] wa| |] eqn:Hs; try done.
    - destruct (getRadosStriper_frame _ _ _ _ _ Hs) as (F1 & _).
      unfold find_fd in *. run.
      destruct (striper_write _ _ _ _ _ _) as [rc st']. simpl in Hwr.
      destruct (rc =? 0); simpl in Hwr; injection Hwr as <- <-; simpl.
      + rewrite lookup_insert_eq. by eexists.
      + rewrite F1. by eexists.
    - destruct (getRadosStriper_frame _ _ _ _ _ Hs) as (F1 & _).
      run. injection Hwr as <- <-. unfold find_fd in *. rewrite F1. by eexists. }
  unfold ceph_posix_read; run. by rewrite Hfd', Hfl, Hacc.
Qed.

(** C4, as the code has it: over a store that gives back what it
    accepted, a cursor-based write of N bytes through a write-mode handle
    at cursor 0 that the store accepts returns N and leaves that handle's
    cursor at N; a cursor-based read of N bytes through a read-only
    handle on the same file, at cursor 0, then returns exactly the bytes
    written and leaves the reader's cursor at N and the writer's at N. *)
Theorem write_then_read_through_reader fdw fdr buf w frw frr s wa st' :
  read_after_write lib ->
  Z.of_nat (length buf) < 2 ^ 64 ->
  find_fd fdw w = Some frw -> offset frw = 0 -> accmode (flags frw) <> 0 ->
  find_fd fdr w = Some frr -> offset frr = 0 -> accmode (flags frr) = 0 ->
  file frr = file frw ->
  getRadosStriper lib (file frw) w = Ret (Some s) wa ->
  striper_write lib (store wa) s (name (file frw)) buf 0 = (0, st') ->
  exists w1 w2,
    ceph_posix_write lib fdw buf w = Ret (Z.of_nat (length buf)) w1 /\
    cursor fdw w1 = Some (Z.of_nat (length buf)) /\
    ceph_posix_read lib fdr (Z.of_nat (length buf)) w1
      = Ret (Z.of_nat (length buf), buf) w2 /\
    cursor fdr w2 = Some (Z.of_nat (length buf)) /\
    cursor fdw w2 = Some (Z.of_nat (length buf)).
Proof.
  intros Hlaw Hlen Hw Hw0 Hwm Hr Hr0 Hrm Hfile Hs Hst.
  set (N := Z.of_nat (length buf)) in *.
  assert (to_uint fdr <> to_uint fdw) as Hne.
  { unfold find_fd in *. intros E. rewrite E in Hr. congruence. }
  destruct (getRadosStriper_frame _ _ _ _ _ Hs) as (F1 & _).
  pose proof (getRadosStriper_pooled _ _ _ _ _ Hs) as Hp.
  pose proof (Hlaw _ _ _ _ _ _ Hst) as Hrd. fold N in Hrd.
  apply Z.eqb_neq in Hwm. unfold accmode in *.
  eexists _, _. split; [|split; [|split; [|split]]].
  - unfold ceph_posix_write; run. rewrite Hw, Hwm, Hs, Hw0, Hst. simpl. reflexivity.
  - unfold cursor, find_fd. simpl. rewrite lookup_insert_eq. simpl.
    by rewrite to_ull_small by lia.
  - unfold ceph_posix_read. unfold bind at 1, get at 1.
    unfold find_fd at 1. simpl. rewrite lookup_insert_ne, F1 by done.
    unfold find_fd in Hr. rewrite Hr, Hrm. simpl.
    unfold bind at 1. erewrite getRadosStriper_hit; last by rewrite Hfile.
    run. rewrite Hfile, Hr0, Hrd.
    destruct (Z.ltb_spec N 0); [lia|]. unfold bl_copy; run.
    unfold N. rewrite Z.ltb_irrefl, Nat2Z.id, firstn_all. reflexivity.
  - unfold cursor, find_fd. simpl. rewrite lookup_insert_eq. simpl.
    by rewrite to_ull_small by lia.
  - unfold cursor, find_fd. simpl. rewrite lookup_insert_ne, lookup_insert_eq by done.
    simpl. by rewrite to_ull_small by lia.
Qed.

(** C7, what the code does at the failing input: when the store's stat
    fails with a negative code [rc], [ceph_posix_fstat] and
    [ceph_posix_stat] (outside the write-intent case) return [-rc], a
    positive value. *)
Theorem stat_failure_returns_positive w s w1 rc size atime :
  - 2 ^ 31 < rc < 0 ->
  (forall fd buf fr,
      find_fd fd w = Some fr ->
      getRadosStriper lib (file fr) w = Ret (Some s) w1 ->
      striper_stat lib (store w1) s (name (file fr)) = (rc, size, atime) ->
      exists b, ceph_posix_fstat lib fd buf w = Ret (- rc, b) w1 /\ 0 < - rc) /\
  (forall now env path buf f,
      getCephFile (g_defaultParams w) path env = Val f ->
      getRadosStriper lib f w = Ret (Some s) w1 ->
      striper_stat lib (store w1) s (name f) = (rc, size, atime) ->
      (rc <> - ENOENT \/ (name f ∉ g_filesOpenForWrite w)) ->
      exists b, ceph_posix_stat lib now env path buf w = Ret (- rc, b) w1 /\ 0 < - rc).
Proof.
  intros Hrc.
  assert ((rc =? 0) = false) as Hz by lia.
  assert (to_int (- rc) = - rc) as Hi by (apply to_int_small; lia).
  split.
  - intros fd buf fr Hfd Hs Hst. eexists. split; [|lia].
    unfold ceph_posix_fstat; run. rewrite Hfd, Hs, Hst, Hz, Hi. reflexivity.
  - intros now env path buf f Hf Hs Hst Hnot. eexists. split; [|lia].
    destruct (getRadosStriper_frame _ _ _ _ _ Hs) as (_ & Hw & _).
    unfold ceph_posix_stat; run. rewrite Hf, Hs, Hst, Hz, Hi. simpl.
    rewrite Hw.
    destruct Hnot as [Hne|Hnot].
    + apply Z.eqb_neq in Hne. rewrite Hne. reflexivity.
    + rewrite bool_decide_eq_false_2 by done. rewrite andb_false_r. reflexivity.
Qed.

(** C8: a path-based stat of a name the store reports as not found
    (-ENOENT) while the name is in [g_filesOpenForWrite] returns 0 and
    fills the buffer with size 0, the current time in the access, modify
    and change fields, and mode 0666. *)
Theorem stat_write_intent now env path buf w f s w1 size atime :
  getCephFile (g_defaultParams w) path env = Val f ->
  getRadosStriper lib f w = Ret (Some s) w1 ->
  striper_stat lib (store w1) s (name f) = (- ENOENT, size, atime) ->
  name f ∈ g_filesOpenForWrite w ->
  ceph_posix_stat lib now env path buf w =
    Ret (0, {| st_size := 0; st_atime := now; st_mtime := now; st_ctime := now;
               st_mode := MODE_0666 |}) w1.
Proof.
  intros Hf Hs Hst Hin.
  destruct (getRadosStriper_frame _ _ _ _ _ Hs) as (_ & Hw & _).
  unfold ceph_posix_stat; run. rewrite Hf, Hs, Hst. simpl.
  rewrite Hw. by rewrite bool_decide_eq_true_2.
Qed.

(** C10, what the code does at the failing input: for a handle open for
    write whose name is in [g_filesOpenForWrite] and absent from the store
    (the store's stat answers -ENOENT), [ceph_posix_fstat] does not consult
    the write-intent set and synthesizes nothing, as the claim says: the
    buffer holds what the store left in it and neither the times nor the
    mode are filled.  What it returns, though, is [-rc]: the positive
    number ENOENT, and not the store's not-found error -ENOENT. *)
Theorem fstat_ignores_write_intent fd buf w fr s w1 size atime :
  find_fd fd w = Some fr ->
  accmode (flags fr) <> 0 ->
  name (file fr) ∈ g_filesOpenForWrite w ->
  getRadosStriper lib (file fr) w = Ret (Some s) w1 ->
  striper_stat lib (store w1) s (name (file fr)) = (- ENOENT, size, atime) ->
  ceph_posix_fstat lib fd buf w =
    Ret (ENOENT, {| st_size := size; st_atime := atime; st_mtime := 0;
                    st_ctime := 0; st_mode := 0 |}) w1 /\
  0 < ENOENT /\ ENOENT <> - ENOENT.
Proof.
  intros Hfd _ _ Hs Hst. split; [|by unfold ENOENT].
  unfold ceph_posix_fstat; run. by rewrite Hfd, Hs, Hst.
Qed.

(** C9, as the code has it: a stripe count, stripe unit or object size
    is the text written for it in the path (between the commas after the
    pool; the object size takes all that follows the third comma; an empty
    text at the very end of the parameters is not written) or, when none
    is written, the text the environment holds for it, whatever else the
    path contains.  If that text is not empty and is no number in range
    ([rejected]: it is not optional white space, an optional sign and one
    or more digits up to its end, or its digits denote more than 2^64-1,
    or, for the stripe count, its value is above 2^32-1, a minus sign
    negating modulo 2^64), the parser throws [std::invalid_argument] or
    [std::out_of_range]; no default is put in its place and the exception
    leaves every path-taking entry point below, with the world
    untouched. *)
Theorem bad_layout_raises w path env :
  bad_layout path env = true ->
  exists e,
    layout_exn e /\
    getCephFile (g_defaultParams w) path env = Raise e /\
    (forall fl md, ceph_posix_open lib env path fl md w = Throw e w) /\
    (forall now buf, ceph_posix_stat lib now env path buf w = Throw e w) /\
    (forall size, ceph_posix_truncate lib env path size w = Throw e w) /\
    ceph_posix_unlink lib env path w = Throw e w /\
    (forall alib attr size, ceph_posix_getxattr lib alib env path attr size w = Throw e w) /\
    (forall alib attr value fl,
       ceph_posix_setxattr lib alib env path attr value fl w = Throw e w) /\
    (forall alib attr, ceph_posix_removexattr lib alib env path attr w = Throw e w).
Proof.
  intros Hbad.
  destruct (fillCephFile_bad (g_defaultParams w) path env CephFile_fresh Hbad)
    as (e & He & Hl).
  exists e. split; [done|]. split; [done|].
  unfold ceph_posix_open, ceph_posix_stat, ceph_posix_truncate, ceph_posix_unlink,
    ceph_posix_getxattr, ceph_posix_setxattr, ceph_posix_removexattr,
    getCephFileRef, getCephFile; run.
  by rewrite He.
Qed.
End Claims.

Section DisconnectClaim.
Context {Store : Type}.
Implicit Types (w : World Store).

(** C5, what the code does at the failing input: a global disconnect of
    a process that holds a cluster handle deletes every pooled session
    and the cluster object and empties both pool maps, but leaves
    [g_cluster] pointing at the deleted object; the second call deletes
    that object again, which is undefined behaviour. *)
Theorem second_disconnect_deletes_twice w w' c :
  g_cluster w = Some c ->
  ceph_posix_disconnect_all w = Ret tt w' ->
  g_radosStripers w' = ∅ /\ g_ioCtx w' = ∅ /\ g_cluster w' = Some c /\
  (c ∉ live w') /\ ceph_posix_disconnect_all w' = Undefined.
Proof.
  intros Hc. unfold ceph_posix_disconnect_all.
  unfold bind at 1, get at 1. unfold bind at 1.
  destruct (cxx_delete_each _ w) as [[] w1| |] eqn:E1; [|done..].
  apply delete_each_keeps in E1 as (Hc1 & _ & Hi1 & _).
  unfold bind at 1, modify at 1. unfold bind at 1, get at 1. unfold bind at 1. simpl.
  destruct (cxx_delete_each _ _) as [[] w2| |] eqn:E2; [|done..].
  apply delete_each_keeps in E2 as (Hc2 & Hs2 & _ & _). simpl in *.
  unfold bind at 1, modify at 1. unfold bind at 1, get at 1. simpl.
  rewrite Hc2, Hc1, Hc. unfold cxx_delete. case_decide; [|done].
  intros [= <-]. simpl. rewrite Hs2, Hc2, Hc1, Hc.
  repeat split; [set_solver|].
  run. rewrite Hs2. repeat (rewrite map_to_list_empty; simpl).
  rewrite Hc2, Hc1, Hc. rewrite decide_False; [done|set_solver].
Qed.
End DisconnectClaim.

(** C6, what the code does at the failing input: when the cursor stands
    on the first-stripe key of a logical name that is shorter than the
    caller's buffer, [ceph_posix_readdir] returns the name without its last
    character (a name of one character comes back empty, which is the
    end-of-enumeration signal) and moves past the key. *)
Theorem readdir_drops_last_character d n rest blen :
  m_iterator d = (n +:+ first_stripe_suffix) :: rest ->
  lacks Str.NUL n ->
  0 < Z.of_nat (String.length n) < blen -> blen < 2 ^ 31 ->
  ceph_posix_readdir blen d =
    Ret (0, Str.take (String.length n - 1) n)
        {| m_iterator := rest; m_end_first := m_end_first d; m_ioctx := m_ioctx d |}.
Proof.
  intros Hd Hn Hlen Hb.
  assert (differs_from_first_stripe (n +:+ first_stripe_suffix) = Val false) as Hm.
  { unfold differs_from_first_stripe. rewrite length_app_string.
    change (String.length first_stripe_suffix) with 17%nat.
    destruct (Nat.ltb_spec (String.length n + 17) 17); [lia|].
    replace (String.length n + 17 - 17)%nat with (String.length n) by lia.
    by rewrite drop_app_string. }
  unfold ceph_posix_readdir. unfold bind at 1. rewrite Hd. simpl. rewrite Hm.
  unfold bind at 1, get at 1. simpl. rewrite length_app_string.
  change (String.length first_stripe_suffix) with 17%nat.
  replace (Z.of_nat (String.length n + 17) - 17) with (Z.of_nat (String.length n)) by lia.
  unfold to_int. rewrite Z.mod_small by lia.
  destruct (Z.ltb_spec (Z.of_nat (String.length n)) (2 ^ 31)); [|lia].
  destruct (Z.ltb_spec (Z.of_nat (String.length n)) blen); [|lia].
  destruct (Z.leb_spec (Z.of_nat (String.length n)) 0); [lia|].
  run. rewrite cstr_app by done.
  replace (Z.to_nat (Z.of_nat (String.length n) - 1)) with (String.length n - 1)%nat by lia.
  rewrite take_app_string by lia. reflexivity.
Qed.

(** once the listing is exhausted the loop condition still reads
    [iterator->first]: a key of 17 characters or more gives the empty
    result, a shorter one makes [compare] throw *)
Lemma readdir_at_end d blen :
  m_iterator d = [] ->
  ceph_posix_readdir blen d =
    if (String.length (m_end_first d) <? 17)%nat
    then Throw (out_of_range "basic_string::compare") d
    else Ret (0, EmptyString) d.
Proof.
  intros Hd. destruct d as [it e io]. simpl in Hd. subst it.
  unfold ceph_posix_readdir, differs_from_first_stripe; run.
  unfold differs_from_first_stripe. by destruct (String.length e <? 17)%nat.
Qed.

(** ** The claims at work on the in-memory store *)

Section Witnesses.
Import MemStore Scenario.



Lemma open_excl_existing_keeps_descriptor_witness :
  ceph_posix_open lib None "f" excl_flags 0 written = Ret (- EEXIST) reopened /\
  g_fds reopened = <[g_nextCephFd written := fr_excl]> (g_fds written) /\
  g_nextCephFd reopened = to_uint (g_nextCephFd written + 1) /\
  g_filesOpenForWrite reopened =
    (if accmode excl_flags =? 0 then g_filesOpenForWrite written
     else {[+ name (file fr_excl) +]} ⊎ g_filesOpenForWrite written).
Proof.
  apply (open_excl_existing_keeps_descriptor lib None "f" excl_flags 0 written
           fr_excl 3%positive reopened).
  - vm_compute. reflexivity.
  - vm_compute. discriminate.
  - vm_compute. discriminate.
  - vm_compute. reflexivity.
  - vm_compute. reflexivity.
Defined.

(** the failed exclusive open has left a second descriptor and a second
    write intent for "f" behind *)
Example failed_open_leaves_descriptor :
  g_fds written !! 1 = None /\ g_fds reopened !! 1 = Some fr_excl /\
  multiplicity "f" (g_filesOpenForWrite written) = 1%nat /\
  multiplicity "f" (g_filesOpenForWrite reopened) = 2%nat.
Proof. repeat split; vm_compute; reflexivity. Qed.

Lemma read_rejects_read_write_handle_witness :
  ceph_posix_read lib 0 16 opened_rdwr = Ret (- EBADF, []) opened_rdwr /\
  ceph_posix_pread lib 0 16 0 opened_rdwr = Ret (- EBADF, []) opened_rdwr.
Proof.
  apply (read_rejects_read_write_handle lib 0 16 0 opened_rdwr fr_rdwr).
  - vm_compute. reflexivity.
  - vm_compute. discriminate.
Defined.

(** the handle of the witness is read-write, and [ceph_posix_write] takes it *)
Example read_write_handle_writes :
  accmode (flags fr_rdwr) = O_RDWR /\
  exists w, ceph_posix_write lib 0 abc opened_rdwr = Ret 3 w.
Proof. split; [reflexivity|]. eexists. vm_compute. reflexivity. Qed.

Lemma write_then_read_through_reader_witness :
  exists w1 w2,
    ceph_posix_write lib 0 abc two_handles = Ret (Z.of_nat (length abc)) w1 /\
    cursor 0 w1 = Some (Z.of_nat (length abc)) /\
    ceph_posix_read lib 1 (Z.of_nat (length abc)) w1
      = Ret (Z.of_nat (length abc), abc) w2 /\
    cursor 1 w2 = Some (Z.of_nat (length abc)) /\
    cursor 0 w2 = Some (Z.of_nat (length abc)).
Proof.
  apply (write_then_read_through_reader lib 0 1 abc two_handles fr_write fr_read
           3%positive two_handles_pooled stored_abc).
  - exact mem_read_after_write.
  - vm_compute. reflexivity.
  - vm_compute. reflexivity.
  - reflexivity.
  - vm_compute. discriminate.
  - vm_compute. reflexivity.
  - reflexivity.
  - reflexivity.
  - reflexivity.
  - vm_compute. reflexivity.
  - vm_compute. reflexivity.
Defined.

(** C4 as stated fails: the read that follows the write on the same
    handle is rejected, and the cursor is 3, not 6. *)
Lemma read_after_write_same_handle_rejected :
  cursor 0 opened = Some 0 /\
  ceph_posix_write lib 0 abc opened = Ret 3 written /\
  ceph_posix_read lib 0 3 written = Ret (- EBADF, []) written /\
  cursor 0 written = Some 3 /\
  cursor 0 written <> Some (2 * 3).
Proof.
  repeat split; try (vm_compute; reflexivity); vm_compute; discriminate.
Qed.

Lemma second_disconnect_deletes_twice_witness :
  g_radosStripers disconnected = ∅ /\ g_ioCtx disconnected = ∅ /\
  g_cluster disconnected = Some 1%positive /\
  (1%positive ∉ live disconnected) /\
  ceph_posix_disconnect_all disconnected = Undefined.
Proof.
  apply (second_disconnect_deletes_twice pooled disconnected 1%positive).
  - vm_compute. reflexivity.
  - vm_compute. reflexivity.
Defined.

Lemma readdir_drops_last_character_witness :
  ceph_posix_readdir 256 listing_ab =
    Ret (0, Str.take (String.length "a" - 1) "a")
        {| m_iterator := ["a.0000000000000001"; "b.0000000000000000";
                          "b.0000000000000001"];
           m_end_first := m_end_first listing_ab; m_ioctx := m_ioctx listing_ab |}.
Proof.
  apply (readdir_drops_last_character listing_ab "a"
           ["a.0000000000000001"; "b.0000000000000000"; "b.0000000000000001"] 256).
  - reflexivity.
  - reflexivity.
  - simpl. lia.
  - lia.
Defined.

(** the first entry of the listing of "a" and "b" reads as the
    end-of-enumeration signal; a longer name loses its last character *)
Example readdir_ab_first_entry_empty :
  ceph_posix_readdir 256 listing_ab =
    Ret (0, "")
        {| m_iterator := ["a.0000000000000001"; "b.0000000000000000";
                          "b.0000000000000001"];
           m_end_first := ""; m_ioctx := 2%positive |}.
Proof. reflexivity. Qed.

Example readdir_run1 :
  ceph_posix_readdir 256 listing_run1 =
    Ret (0, "run") {| m_iterator := []; m_end_first := ""; m_ioctx := 2%positive |}.
Proof. reflexivity. Qed.

Lemma stat_failure_returns_positive_witness :
  (forall fd buf fr,
      find_fd fd written = Some fr ->
      getRadosStriper lib (file fr) written = Ret (Some 3%positive) written ->
      striper_stat lib (store written) 3%positive (name (file fr)) = (- ENOENT, 0, 0) ->
      exists b, ceph_posix_fstat lib fd buf written = Ret (- - ENOENT, b) written /\
                0 < - - ENOENT) /\
  (forall now env path buf f,
      getCephFile (g_defaultParams written) path env = Val f ->
      getRadosStriper lib f written = Ret (Some 3%positive) written ->
      striper_stat lib (store written) 3%positive (name f) = (- ENOENT, 0, 0) ->
      (- ENOENT <> - ENOENT \/ (name f ∉ g_filesOpenForWrite written)) ->
      exists b, ceph_posix_stat lib now env path buf written = Ret (- - ENOENT, b) written /\
                0 < - - ENOENT).
Proof.
  apply (stat_failure_returns_positive lib written 3%positive written (- ENOENT) 0 0).
  vm_compute. split; reflexivity.
Defined.

(** a stat of a name that is neither stored nor open for write returns 2 *)
Example stat_missing_returns_2 :
  ceph_posix_stat lib 1700000000 None "nofile" stat_zero written =
    Ret (2, stat_zero) written.
Proof. vm_compute. reflexivity. Qed.

Lemma stat_write_intent_witness :
  ceph_posix_stat lib 1700000000 None "f" stat_zero opened =
    Ret (0, {| st_size := 0; st_atime := 1700000000; st_mtime := 1700000000;
               st_ctime := 1700000000; st_mode := MODE_0666 |}) opened_pooled.
Proof.
  apply (stat_write_intent lib 1700000000 None "f" stat_zero opened file_f
           3%positive opened_pooled 0 0).
  - vm_compute. reflexivity.
  - vm_compute. reflexivity.
  - vm_compute. reflexivity.
  - vm_compute. reflexivity.
Defined.

Lemma fstat_ignores_write_intent_witness :
  ceph_posix_fstat lib 0 stat_zero opened =
    Ret (ENOENT, {| st_size := 0; st_atime := 0; st_mtime := 0;
                    st_ctime := 0; st_mode := 0 |}) opened_pooled /\
  0 < ENOENT /\ ENOENT <> - ENOENT.
Proof.
  apply (fstat_ignores_write_intent lib 0 stat_zero opened fr_write
           3%positive opened_pooled 0 0).
  - vm_compute. reflexivity.
  - vm_compute. discriminate.
  - vm_compute. reflexivity.
  - vm_compute. reflexivity.
  - vm_compute. reflexivity.
Defined.

(** on the handle that has just been opened for write, fstat returns 2
    where the path-based stat of the same name returns 0 *)
Example fstat_of_fresh_handle_returns_2 :
  ceph_posix_fstat lib 0 stat_zero opened = Ret (2, stat_zero) opened_pooled /\
  exists b, ceph_posix_stat lib 1700000000 None "f" stat_zero opened = Ret (0, b) opened_pooled.
Proof. split; [|eexists]; vm_compute; reflexivity. Qed.

Lemma bad_layout_raises_witness :
  exists e,
    layout_exn e /\
    getCephFile (g_defaultParams boot) "poolA,3:f" Tour.env_trailing_space = Raise e /\
    (forall fl md,
       ceph_posix_open lib Tour.env_trailing_space "poolA,3:f" fl md boot = Throw e boot) /\
    (forall now buf,
       ceph_posix_stat lib now Tour.env_trailing_space "poolA,3:f" buf boot = Throw e boot) /\
    (forall size,
       ceph_posix_truncate lib Tour.env_trailing_space "poolA,3:f" size boot = Throw e boot) /\
    ceph_posix_unlink lib Tour.env_trailing_space "poolA,3:f" boot = Throw e boot /\
    (forall alib attr size,
       ceph_posix_getxattr lib alib Tour.env_trailing_space "poolA,3:f" attr size boot
       = Throw e boot) /\
    (forall alib attr value fl,
       ceph_posix_setxattr lib alib Tour.env_trailing_space "poolA,3:f" attr value fl boot
       = Throw e boot) /\
    (forall alib attr,
       ceph_posix_removexattr lib alib Tour.env_trailing_space "poolA,3:f" attr boot
       = Throw e boot).
Proof.
  apply (bad_layout_raises lib boot "poolA,3:f" Tour.env_trailing_space).
  vm_compute. reflexivity.
Defined.

(** texts that are turned down, for the 64-bit fields and for the stripe
    count, and texts that are taken *)
Example rejected_texts :
  Forall (fun t => rejected ULLONG_MAX t = true /\ exists e, stoull t = Raise e)
    ["12 "; "1 2"; "-"; "--1"; "+99999999999999999999"; " "; "x1";
     "18446744073709551616"] /\
  Forall (fun t => rejected UINT_MAX t = true /\ exists e, stoui t = Raise e)
    ["12 "; "1 2"; "-"; "--1"; "+99999999999999999999"; "-1"; "4294967296"] /\
  Forall (fun t => rejected ULLONG_MAX t = false /\ exists n, stoull t = Val n)
    [""; "-1"; " 12"; "+7"; "18446744073709551615"] /\
  Forall (fun t => rejected UINT_MAX t = false /\ exists n, stoui t = Val n)
    [""; "-0"; " 12"; "+7"; "4294967295"].
Proof.
  repeat split; repeat constructor; try (eexists; vm_compute; reflexivity).
Qed.

(** the environment is read for what the path does not write, with or
    without a colon in the path *)
Example environment_read_behind_colon :
  bad_layout "poolA:f" (Some {["cephNbStripes" := "x"]}) = true /\
  getCephFile g_defaultParams_init "poolA:f" (Some {["cephNbStripes" := "x"]})
    = Raise (invalid_argument "x") /\
  bad_layout "poolA,:f" (Some {["cephNbStripes" := "x"]}) = true /\
  bad_layout "poolA,,:f" (Some {["cephNbStripes" := "x"]}) = false /\
  bad_layout "poolA,1,2,3,4:f" None = true /\
  getCephFile g_defaultParams_init "poolA,1,2,3,4:f" None = Raise (invalid_argument "3,4").
Proof. repeat split; vm_compute; reflexivity. Qed.

(** a stripe count from the environment above 2^32-1 *)
Example env_stripe_count_out_of_range :
  getCephFile g_defaultParams_init "data/run1" (Some {["cephNbStripes" := "4294967296"]})
  = Raise (out_of_range "4294967296").
Proof. vm_compute. reflexivity. Qed.

(** C9 as stated fails: a negative stripe unit is taken as 2^64-1, and
    an empty stripe count between two commas as 0, without any exception
    and without the default *)
Lemma negative_and_empty_fields_accepted :
  all_digits "-1" = false /\
  stoull "-1" = Val ULLONG_MAX /\
  getCephFile g_defaultParams_init "poolA,1,-1:f" None =
    Val {| name := "f"; pool := "poolA"; userId := "admin"; nbStripes := 1;
           stripeUnit := 18446744073709551615; objectSize := 4194304 |} /\
  all_digits "" = true /\ stoui "" = Val 0 /\
  getCephFile g_defaultParams_init "poolA,,65536:f" None =
    Val {| name := "f"; pool := "poolA"; userId := "admin"; nbStripes := 0;
           stripeUnit := 65536; objectSize := 4194304 |}.
Proof. repeat split; vm_compute; reflexivity. Qed.
End Witnesses.

(** * More of the adapter *)

(** ** Numerals *)

Section NumeralFacts.
Implicit Types (s : string) (d : Decimal.uint).

Lemma decimal_cons acc c r v :
  digit_of c = Some v -> decimal acc (String c r) = decimal (10 * acc + v) r.
Proof. simpl. by intros ->. Qed.

Lemma decimal_uint acc d : decimal acc (NilEmpty.string_of_uint d) = uint_value acc d.
Proof.
  revert acc. induction d; intros acc; cbn [NilEmpty.string_of_uint uint_value];
    [done|
     match goal with
     | |- context [String ?c _] =>
         let v := eval vm_compute in (digit_of c) in
         match v with Some ?k => rewrite (decimal_cons _ c _ k eq_refl) end
     end; rewrite IHd; f_equal; lia..].
Qed.

Lemma all_digits_uint d : all_digits (NilEmpty.string_of_uint d) = true.
Proof. induction d; simpl; done. Qed.

Lemma of_uint_acc_value d acc : Z.pos (Pos.of_uint_acc d acc) = uint_value (Z.pos acc) d.
Proof.
  revert acc. induction d; intros acc; cbn [Pos.of_uint_acc uint_value];
    [done|rewrite IHd; f_equal; lia..].
Qed.

Lemma of_uint_value d : Z.of_N (N.of_uint d) = uint_value 0 d.
Proof.
  unfold N.of_uint.
  induction d; cbn [Pos.of_uint uint_value]; try done;
    rewrite ?Z.mul_0_r, ?Z.add_0_l; try done;
    change (Z.of_N (N.pos ?p)) with (Z.pos p); by rewrite of_uint_acc_value.
Qed.

Lemma of_unsigned_digits z :
  0 <= z ->
  all_digits (Str.of_unsigned z) = true /\ decimal 0 (Str.of_unsigned z) = z /\
  Str.of_unsigned z <> EmptyString.
Proof.
  intros Hz. unfold Str.of_unsigned, NilZero.string_of_uint.
  pose proof (DecimalN.Unsigned.of_to (Z.to_N z)) as E.
  apply (f_equal Z.of_N) in E. rewrite of_uint_value, Z2N.id in E by done.
  destruct (N.to_uint (Z.to_N z)) eqn:D; try (simpl in E; by subst z);
    (split; [apply (all_digits_uint (_ _))|split; [by rewrite (decimal_uint _ (_ _))|done]]).
Qed.

Lemma all_digits_lacks c s : is_digit c = false -> all_digits s = true -> lacks c s.
Proof.
  intros Hc. induction s as [|a s IH]; [done|]. simpl. intros [Ha Hs]%andb_true_iff.
  apply lacks_cons. split; [|auto].
  destruct (Ascii.eqb_spec c a) as [->|]; congruence.
Qed.

Lemma stoull_digits s : digits_upto ULLONG_MAX s -> stoull s = Val (decimal 0 s).
Proof.
  intros [Hd Hv]. destruct s as [|c r]; [done|].
  unfold stoull, strtoull. rewrite cstr_id by by apply all_digits_lacks_NUL.
  rewrite strto_digits by done.
  set (v := decimal 0 (String c r)) in *. clearbody v.
  by destruct (Z.ltb_spec ULLONG_MAX v); [lia|].
Qed.

Lemma decimal_nonneg s acc : 0 <= acc -> 0 <= decimal acc s.
Proof.
  revert acc. induction s as [|c r IH]; intros acc Hacc; simpl; [done|].
  destruct (digit_of c) as [v|] eqn:E; [|done]. apply IH. unfold digit_of in E.
  destruct (_ && _) eqn:B; [|done]. injection E as <-.
  apply andb_true_iff in B as [?%Z.leb_le ?%Z.leb_le]. lia.
Qed.

Lemma stoui_digits s : digits_upto UINT_MAX s -> stoui s = Val (decimal 0 s).
Proof.
  intros [Hd Hv]. destruct s as [|c r]; [done|].
  unfold stoui, strtoul. rewrite cstr_id by by apply all_digits_lacks_NUL.
  rewrite strto_digits by done.
  pose proof (decimal_nonneg (String c r) 0 ltac:(done)).
  assert (UINT_MAX < ULONG_MAX) by (unfold UINT_MAX, ULONG_MAX; lia).
  set (v := decimal 0 (String c r)) in *. clearbody v.
  destruct (Z.ltb_spec ULONG_MAX v); [lia|]. simpl.
  destruct (Z.ltb_spec UINT_MAX v); [lia|]. simpl.
  unfold to_uint. rewrite Z.mod_small; [done|]. unfold UINT_MAX in *. lia.
Qed.
End NumeralFacts.

Section ParseFacts.
Variable d : CephFile.
Implicit Types (f : CephFile) (env : XrdOucEnv).

Lemma fillCephUserId_at u rest env f :
  lacks "@" u ->
  fillCephUserId d (u +:+ "@" +:+ rest) env f =
    Val (String.length (u +:+ "@"), with_userId u (with_userId (userId d) f)).
Proof.
  intros Hu. unfold fillCephUserId.
  change ("@" +:+ rest) with (String "@" rest).
  rewrite str_find_app by (done || lia). unfold substr. simpl.
  rewrite take_length_app, length_app_string. simpl. by rewrite Nat.add_1_r.
Qed.

Lemma fillCephPool_inner params off x p y env f :
  params = x +:+ p +:+ "," +:+ y -> off = String.length x -> lacks "," p ->
  fillCephPool d params off env f =
    Val (String.length (x +:+ p +:+ ","), with_pool p (with_pool (pool d) f)).
Proof.
  intros -> -> Hp. unfold fillCephPool.
  change ("," +:+ y) with (String "," y).
  rewrite find_after by done.
  replace (String.length x + String.length p - String.length x)%nat
    with (String.length p) by lia.
  rewrite substr_app. simpl.
  rewrite !length_app_string. simpl. do 3 f_equal. lia.
Qed.

Lemma digits_lacks max c s : is_digit c = false -> digits_upto max s -> lacks c s.
Proof. intros Hc [Hd _]. by apply all_digits_lacks. Qed.

(** the parameters [user@pool,a,b,c] with numbers in range
    are read field by field *)
Lemma fillCephFileParams_full u p a b c env f :
  lacks "@" u -> lacks "," p ->
  digits_upto UINT_MAX a -> digits_upto ULLONG_MAX b -> digits_upto ULLONG_MAX c ->
  c <> EmptyString ->
  fillCephFileParams d (u +:+ "@" +:+ p +:+ "," +:+ a +:+ "," +:+ b +:+ "," +:+ c) env f =
    Val {| name := name f; pool := p; userId := u; nbStripes := decimal 0 a;
           stripeUnit := decimal 0 b; objectSize := decimal 0 c |}.
Proof.
  intros Hu Hp Ha Hb Hc Hne. unfold fillCephFileParams.
  rewrite fillCephUserId_at by done. cbn [ebind].
  rewrite (fillCephPool_inner _ _ (u +:+ "@") p (a +:+ "," +:+ b +:+ "," +:+ c))
    by (by rewrite ?app_assoc_string). cbn [ebind].
  rewrite (fillCephNbStripes_inner _ _ _ ((u +:+ "@") +:+ p +:+ ",") a (b +:+ "," +:+ c))
    by (by rewrite ?app_assoc_string || by eapply digits_lacks).
  rewrite stoui_digits by done. cbn [ebind].
  rewrite (fillCephStripeUnit_inner _ _ _
             (((u +:+ "@") +:+ p +:+ ",") +:+ a +:+ ",") b c)
    by (by rewrite ?app_assoc_string || by eapply digits_lacks).
  rewrite stoull_digits by done. cbn [ebind].
  rewrite (fillCephObjectSize_last _ _ _
             ((((u +:+ "@") +:+ p +:+ ",") +:+ a +:+ ",") +:+ b +:+ ",") c)
    by (by rewrite ?app_assoc_string || done).
  rewrite stoull_digits by done. reflexivity.
Qed.

Lemma fillCephFileParams_empty f :
  fillCephFileParams d "" None f =
    Val {| name := name f; pool := pool d; userId := userId d; nbStripes := nbStripes d;
           stripeUnit := stripeUnit d; objectSize := objectSize d |}.
Proof. reflexivity. Qed.
End ParseFacts.

Section ParserProperties.
Implicit Types (d f g : CephFile) (env : XrdOucEnv).

Lemma of_unsigned_upto max z : 0 <= z <= max -> digits_upto max (Str.of_unsigned z).
Proof.
  intros Hz. destruct (of_unsigned_digits z ltac:(lia)) as (H1 & H2 & _).
  split; [done|]. rewrite H2. lia.
Qed.

(** the key of a keyed identity reads back as its layout *)
Lemma fillCephFileParams_key d f env f0 :
  keyed f ->
  fillCephFileParams d (userAtPool f) env f0 =
    Val {| name := name f0; pool := pool f; userId := userId f;
           nbStripes := nbStripes f; stripeUnit := stripeUnit f;
           objectSize := objectSize f |}.
Proof.
  intros ((U1 & U2 & U3 & U4) & (P1 & P2 & P3) & Hn & Hu & Ho).
  unfold userAtPool.
  destruct (of_unsigned_digits (nbStripes f) ltac:(lia)) as (_ & En & _).
  destruct (of_unsigned_digits (stripeUnit f) ltac:(lia)) as (_ & Eu & _).
  destruct (of_unsigned_digits (objectSize f) ltac:(lia)) as (_ & Eo & Hne).
  rewrite fillCephFileParams_full; try done; try by apply of_unsigned_upto.
  by rewrite En, Eu, Eo.
Qed.

Lemma userAtPool_clean f : keyed f -> lacks ":" (userAtPool f) /\ lacks Str.NUL (userAtPool f).
Proof.
  intros ((U1 & U2 & U3 & U4) & (P1 & P2 & P3) & Hn & Hu & Ho).
  destruct (of_unsigned_digits (nbStripes f) ltac:(lia)) as (Dn & _).
  destruct (of_unsigned_digits (stripeUnit f) ltac:(lia)) as (Du & _).
  destruct (of_unsigned_digits (objectSize f) ltac:(lia)) as (Do & _).
  unfold userAtPool. rewrite !lacks_app.
  repeat split; try done; by apply all_digits_lacks.
Qed.

(** X1: a path that spells out [user@pool,nbStripes,stripeUnit,objectSize:name]
    with a user free of '@' and ':', a pool free of ',' and ':', and three
    strings of decimal digits within the range of their types (the last one
    not empty) parses to exactly these fields, whatever the environment and
    the defaults say; the name is the part after the colon, read as a C
    string. *)
Theorem parse_full_path d env u p a b c n :
  lacks "@" u -> lacks ":" u -> lacks Str.NUL u ->
  lacks "," p -> lacks ":" p -> lacks Str.NUL p ->
  digits_upto UINT_MAX a -> digits_upto ULLONG_MAX b -> digits_upto ULLONG_MAX c ->
  c <> EmptyString ->
  getCephFile d (u +:+ "@" +:+ p +:+ "," +:+ a +:+ "," +:+ b +:+ "," +:+ c +:+ ":" +:+ n) env =
    Val {| name := Str.cstr n; pool := p; userId := u; nbStripes := decimal 0 a;
           stripeUnit := decimal 0 b; objectSize := decimal 0 c |}.
Proof.
  intros U1 U2 U3 P1 P2 P3 Ha Hb Hc Hne. unfold getCephFile.
  replace (u +:+ "@" +:+ p +:+ "," +:+ a +:+ "," +:+ b +:+ "," +:+ c +:+ ":" +:+ n)
    with ((u +:+ "@" +:+ p +:+ "," +:+ a +:+ "," +:+ b +:+ "," +:+ c) +:+ ":" +:+ n)
    by by rewrite !app_assoc_string.
  destruct Ha as [Da Va], Hb as [Db Vb], Hc as [Dc Vc].
  rewrite fillCephFile_colon
    by (rewrite !lacks_app; repeat split; try done; by apply all_digits_lacks).
  by rewrite fillCephFileParams_full.
Qed.

(** X2: a path without colon is the object name as it stands; each of the
    five layout fields comes from the environment when the environment has
    its key (cephUserId, cephPool, cephNbStripes, cephStripeUnit,
    cephObjectSize) and from the defaults otherwise, provided the numbers
    found in the environment are digit strings in range. *)
Theorem parse_bare_name d env path :
  lacks ":" path ->
  (forall s, env_Get env "cephNbStripes" = Some s -> digits_upto UINT_MAX s) ->
  (forall s, env_Get env "cephStripeUnit" = Some s -> digits_upto ULLONG_MAX s) ->
  (forall s, env_Get env "cephObjectSize" = Some s -> digits_upto ULLONG_MAX s) ->
  getCephFile d path env =
    Val {| name := Str.cstr path;
           pool := default (pool d) (env_Get env "cephPool");
           userId := default (userId d) (env_Get env "cephUserId");
           nbStripes := from_option (decimal 0) (nbStripes d) (env_Get env "cephNbStripes");
           stripeUnit := from_option (decimal 0) (stripeUnit d) (env_Get env "cephStripeUnit");
           objectSize := from_option (decimal 0) (objectSize d) (env_Get env "cephObjectSize") |}.
Proof.
  intros Hc Hn Hu Ho. unfold getCephFile. rewrite fillCephFile_plain by done.
  unfold fillCephFileParams, fillCephUserId, fillCephPool, fillCephNbStripes,
    fillCephStripeUnit, fillCephObjectSize. simpl.
  destruct (env_Get env "cephNbStripes") as [sn|]; simpl;
    [rewrite (stoui_digits sn) by auto; simpl|];
    (destruct (env_Get env "cephStripeUnit") as [su|]; simpl;
     [rewrite (stoull_digits su) by auto; simpl|]);
    (destruct (env_Get env "cephObjectSize") as [so|]; simpl;
     [rewrite (stoull_digits so) by auto; simpl|]);
    by destruct (env_Get env "cephUserId"), (env_Get env "cephPool").
Qed.

(** X3: the pool key reads back.  For an identity whose user and pool are
    free of the separators and whose numbers fit their types, parsing the key
    [userAtPool f] followed by a colon and the name gives the identity back,
    whatever the environment and the defaults. *)
Theorem key_round_trip d env f :
  keyed f -> lacks Str.NUL (name f) ->
  getCephFile d (userAtPool f +:+ ":" +:+ name f) env = Val f.
Proof.
  intros Hk Hn. destruct (userAtPool_clean f Hk) as [C1 C2].
  unfold getCephFile. rewrite fillCephFile_colon by done.
  rewrite (fillCephFileParams_key _ f) by done. simpl.
  rewrite cstr_id by done. by destruct f.
Qed.

(** X4: on such identities the pool key is injective up to the name: two of
    them have the same key exactly when user, pool, stripe count, stripe unit
    and object size agree, so two files share a pooled session only if they
    have the same layout. *)
Theorem userAtPool_injective f g :
  keyed f -> keyed g ->
  userAtPool f = userAtPool g <-> layout_equivalent f g.
Proof.
  intros Hf Hg. split.
  - intros E.
    pose proof (fillCephFileParams_key g_defaultParams_init f None CephFile_fresh Hf) as Pf.
    pose proof (fillCephFileParams_key g_defaultParams_init g None CephFile_fresh Hg) as Pg.
    rewrite E, Pg in Pf. injection Pf as E1 E2 E3 E4 E5. repeat split; congruence.
  - intros (E1 & E2 & E3 & E4 & E5). unfold userAtPool. by rewrite E1, E2, E3, E4, E5.
Qed.
(** X5: without that restriction the key is ambiguous.  A user [u@p] on
    pool [q] and a user [u] on pool [p@q] with the same numbers have the
    same key although the users differ, so the second finds the session
    that was set up for the first. *)
Theorem key_collision f g u p q :
  userId f = u +:+ "@" +:+ p -> pool f = q ->
  userId g = u -> pool g = p +:+ "@" +:+ q ->
  nbStripes f = nbStripes g -> stripeUnit f = stripeUnit g ->
  objectSize f = objectSize g ->
  userAtPool f = userAtPool g /\ userId f <> userId g /\ ~ layout_equivalent f g.
Proof.
  intros Uf Pf Ug Pg En Eu Eo.
  assert (userId f <> userId g) as Hne.
  { rewrite Uf, Ug. intros E. apply (f_equal String.length) in E.
    rewrite length_app_string in E. simpl in E. lia. }
  split_and!; [|done|by intros (? & _)].
  unfold userAtPool. rewrite Uf, Pf, Ug, Pg, En, Eu, Eo.
  by rewrite !app_assoc_string.
Qed.
End ParserProperties.

Section DefaultsProperties.
Context {Store : Type}.
Implicit Types (w : World Store) (f : CephFile).

(** X6: [ceph_posix_set_defaults] stores what the parameter string says:
    after it was called with the key of [f], a path without colon and no
    environment resolve to [f] under that path's name; called with no
    string, it changes nothing. *)
Theorem set_defaults_then_bare_name w f path :
  keyed f -> lacks ":" path ->
  let w' := set_g_defaultParams (with_name "" f) w in
  ceph_posix_set_defaults (Some (userAtPool f)) w = Ret tt w' /\
  getCephFile (g_defaultParams w') path None = Val (with_name (Str.cstr path) f) /\
  ceph_posix_set_defaults None w = Ret tt w.
Proof.
  intros Hk Hc w'. split; [|split; [|done]].
  - unfold ceph_posix_set_defaults. unfold bind, get, of_except, modify.
    by rewrite (fillCephFileParams_key _ f).
  - subst w'. simpl. unfold getCephFile. rewrite fillCephFile_plain by done.
    by rewrite fillCephFileParams_empty.
Qed.
End DefaultsProperties.

Section PoolProperties.
Context {Store : Type} (lib : Librados Store).
Implicit Types (w : World Store) (f g : CephFile).

Lemma connect_cluster_fails f w :
  g_cluster w = None ->
  rados_init lib (userId f) <> 0 \/ rados_conf_read_file lib <> 0 \/ rados_connect lib <> 0 ->
  connect_cluster lib f w = Ret false w.
Proof.
  intros Hc Hfail. unfold connect_cluster.
  unfold bind at 1, get at 1. rewrite Hc.
  unfold bind at 1, cxx_new at 1. set (c := fresh (live w)).
  assert (c ∉ live w) as Fc by apply is_fresh.
  unfold bind at 1, modify at 1.
  assert (cluster_teardown (set_g_cluster (Some c) (set_live ({[c]} ∪ live w) w))
          = Ret tt w) as Et.
  { erewrite cluster_teardown_live; [|done|simpl; set_solver].
    f_equal. apply World_eq; simpl; try done. set_solver. }
  destruct (Z.eqb_spec (rados_init lib (userId f)) 0) as [Hi|Hi]; cbn [negb].
  - destruct (Z.eqb_spec (rados_conf_read_file lib) 0) as [Hr|Hr]; cbn [negb].
    + destruct (Z.eqb_spec (rados_connect lib) 0) as [Hn|Hn]; cbn [negb]; [naive_solver|].
      unfold bind. by rewrite Et.
    + unfold bind. by rewrite Et.
  - unfold bind at 1. rewrite delete_live by (simpl; set_solver).
    unfold bind, modify, ret. simpl. f_equal.
    apply World_eq; simpl; try done. set_solver.
Qed.

Lemma getRadosStriper_unreachable f w :
  g_radosStripers w !! userAtPool f = None ->
  g_cluster w = None ->
  rados_init lib (userId f) <> 0 \/ rados_conf_read_file lib <> 0 \/ rados_connect lib <> 0 ->
  getRadosStriper lib f w = Ret None w.
Proof.
  intros Hmiss Hc Hfail.
  unfold getRadosStriper. unfold bind at 1, get at 1. rewrite Hmiss.
  unfold bind at 1. by rewrite connect_cluster_fails.
Qed.

(** X7: when the cluster cannot be set up ([init], [conf_read_file] or
    [connect] fails) for a key that is not pooled yet, [getRadosStriper]
    returns null and leaves the world exactly as it was: the cluster object
    that was allocated is freed again and [g_cluster] stays null; a truncate
    on top of it answers -EINVAL. *)
Theorem connect_failure_leaves_no_cluster f w :
  g_radosStripers w !! userAtPool f = None ->
  g_cluster w = None ->
  rados_init lib (userId f) <> 0 \/ rados_conf_read_file lib <> 0 \/ rados_connect lib <> 0 ->
  getRadosStriper lib f w = Ret None w /\
  forall size, ceph_posix_internal_truncate lib f size w = Ret (- EINVAL) w.
Proof.
  intros Hmiss Hc Hfail.
  pose proof (getRadosStriper_unreachable f w Hmiss Hc Hfail) as E.
  split; [done|]. intros size. unfold ceph_posix_internal_truncate, bind. by rewrite E.
Qed.
End PoolProperties.

Section PoolShape.
Context {Store : Type} (lib : Librados Store).
Implicit Types (w : World Store) (f g : CephFile).

Lemma getRadosStriper_on_cluster_eq f w c :
  g_radosStripers w !! userAtPool f = None ->
  g_cluster w = Some c -> c ∈ live w ->
  getRadosStriper lib f w =
    if (rados_ioctx_create lib (pool f) =? 0) && (striper_create lib =? 0) &&
       (set_object_layout_stripe_count lib (nbStripes f) =? 0) &&
       (set_object_layout_stripe_unit lib (stripeUnit f) =? 0) &&
       (set_object_layout_object_size lib (objectSize f) =? 0)
    then Ret (Some (fresh ({[fresh (live w)]} ∪ live w))) (session_world f w)
    else Ret None (failure_world w).
Proof.
  intros Hmiss Hc Hl.
  unfold getRadosStriper, connect_cluster, session_world, failure_world.
  unfold bind at 1, get at 1. rewrite Hmiss.
  unfold bind at 1. unfold bind at 1, get at 1. rewrite Hc.
  unfold ret at 1. cbn [negb]. unfold bind at 1, cxx_new at 1.
  set (io := fresh (live w)).
  assert (io ∉ live w) as Fio by apply is_fresh.
  unfold bind at 1, cluster_deref at 1. cbn [g_cluster set_live live]. rewrite Hc.
  rewrite decide_True by set_solver.
  assert (cluster_teardown (set_live ({[io]} ∪ live w) w) =
          Ret tt (set_g_cluster None (set_live (({[io]} ∪ live w) ∖ {[c]}) w))) as Et.
  { by erewrite cluster_teardown_live; [|done|simpl; set_solver]. }
  destruct (Z.eqb_spec (rados_ioctx_create lib (pool f)) 0) as [H1|H1]; cbn [negb andb].
  2:{ unfold bind at 1. rewrite Et.
      unfold bind at 1. rewrite delete_live by (simpl; set_solver).
      unfold ret. f_equal. apply World_eq; simpl; try done. set_solver. }
  unfold bind at 1, cxx_new at 1. cbn [g_cluster set_live live].
  set (st := fresh ({[io]} ∪ live w)).
  assert (st ∉ {[io]} ∪ live w) as Fst by apply is_fresh.
  assert ((bind (cxx_delete (Some st)) (fun _ => bind (cxx_delete (Some io)) (fun _ =>
             bind cluster_teardown (fun _ => ret (@None ptr)))))
            (set_live ({[st]} ∪ ({[io]} ∪ live w)) w)
          = Ret None (set_g_cluster None (set_live (live w ∖ {[c]}) w))) as R.
  { erewrite rollback; simpl; [|done|set_solver..].
    f_equal. apply World_eq; simpl; try done. set_solver. }
  destruct (Z.eqb_spec (striper_create lib) 0) as [H2|H2]; cbn [negb andb]; [|done].
  destruct (Z.eqb_spec (set_object_layout_stripe_count lib (nbStripes f)) 0) as [H3|H3];
    cbn [negb andb]; [|done].
  destruct (Z.eqb_spec (set_object_layout_stripe_unit lib (stripeUnit f)) 0) as [H4|H4];
    cbn [negb andb]; [|done].
  destruct (Z.eqb_spec (set_object_layout_object_size lib (objectSize f)) 0) as [H5|H5];
    cbn [negb andb]; [|done].
  unfold bind, modify, get, ret. simpl.
  assert (map_insert (userAtPool f) st (g_radosStripers w)
          = <[userAtPool f := st]> (g_radosStripers w)) as -> by (unfold map_insert; by rewrite Hmiss).
  rewrite lookup_insert_eq. f_equal; by apply World_eq.
Qed.

Lemma getRadosStriper_on_cluster f w c :
  g_radosStripers w !! userAtPool f = None ->
  g_cluster w = Some c -> c ∈ live w ->
  (session_accepted lib f ->
   getRadosStriper lib f w
   = Ret (Some (fresh ({[fresh (live w)]} ∪ live w))) (session_world f w)) /\
  (~ session_accepted lib f -> getRadosStriper lib f w = Ret None (failure_world w)).
Proof.
  intros Hmiss Hc Hl. rewrite (getRadosStriper_on_cluster_eq f w c) by done.
  unfold session_accepted.
  destruct (Z.eqb_spec (rados_ioctx_create lib (pool f)) 0);
    destruct (Z.eqb_spec (striper_create lib) 0);
    destruct (Z.eqb_spec (set_object_layout_stripe_count lib (nbStripes f)) 0);
    destruct (Z.eqb_spec (set_object_layout_stripe_unit lib (stripeUnit f)) 0);
    destruct (Z.eqb_spec (set_object_layout_object_size lib (objectSize f)) 0);
    cbn [andb]; naive_solver.
Qed.

Lemma connect_cluster_ok f w :
  g_cluster w = None ->
  rados_init lib (userId f) = 0 -> rados_conf_read_file lib = 0 -> rados_connect lib = 0 ->
  connect_cluster lib f w = Ret true (connected_world w).
Proof.
  intros Hc Hi Hr Hn. unfold connect_cluster, connected_world.
  unfold bind, get, cxx_new, modify, ret. rewrite Hc, Hi, Hr, Hn. simpl.
  f_equal; by apply World_eq.
Qed.

Lemma connect_cluster_have f w c :
  g_cluster w = Some c -> connect_cluster lib f w = Ret true w.
Proof. intros Hc. unfold connect_cluster, bind, get, ret. by rewrite Hc. Qed.

Lemma getRadosStriper_connects f w :
  g_radosStripers w !! userAtPool f = None ->
  g_cluster w = None ->
  rados_init lib (userId f) = 0 -> rados_conf_read_file lib = 0 -> rados_connect lib = 0 ->
  getRadosStriper lib f w = getRadosStriper lib f (connected_world w).
Proof.
  intros Hmiss Hc Hi Hr Hn.
  remember (getRadosStriper lib f (connected_world w)) as rhs eqn:Er.
  unfold getRadosStriper in *.
  unfold bind at 1, get at 1. rewrite Hmiss.
  unfold bind at 1. rewrite connect_cluster_ok by done.
  unfold bind at 1, get at 1 in Er.
  replace (g_radosStripers (connected_world w)) with (g_radosStripers w) in Er by done.
  rewrite Hmiss in Er. unfold bind at 1 in Er.
  rewrite (connect_cluster_have f (connected_world w) (fresh (live w))) in Er by done.
  by subst rhs.
Qed.
End PoolShape.

Section HeapInvariant.
Context {Store : Type} (lib : Librados Store).
Implicit Types (w : World Store) (f g : CephFile).

Lemma lookup_map_insert k v (m : gmap string ptr) k' x :
  map_insert k v m !! k' = Some x -> m !! k' = Some x \/ (k' = k /\ x = v /\ m !! k = None).
Proof.
  unfold map_insert. destruct (m !! k) eqn:E; [by left|].
  destruct (decide (k = k')) as [<-|Hne].
  - rewrite lookup_insert_eq. intros [= <-]. by right.
  - rewrite lookup_insert_ne by done. by left.
Qed.

Lemma heap_wf_failure w : heap_wf w -> heap_wf (failure_world w).
Proof.
  intros (H1 & H2 & H3 & H4 & H5 & H6). unfold failure_world.
  split_and!; simpl; try done.
  - intros k s Hs. specialize (H1 _ _ Hs).
    destruct (g_cluster w) as [c|] eqn:Hc; simpl; [|set_solver].
    destruct (H3 c eq_refl) as (_ & N & _). specialize (N k).
    assert (s <> c) by congruence. set_solver.
  - intros k i Hi. specialize (H2 _ _ Hi).
    destruct (g_cluster w) as [c|] eqn:Hc; simpl; [|set_solver].
    destruct (H3 c eq_refl) as (_ & _ & N). specialize (N k).
    assert (i <> c) by congruence. set_solver.
Qed.

Lemma heap_wf_connected w :
  heap_wf w -> g_cluster w = None -> heap_wf (connected_world w).
Proof.
  intros (H1 & H2 & H3 & H4 & H5 & H6) Hc. unfold connected_world.
  pose proof (is_fresh (live w)) as Fc.
  split_and!; simpl; try done.
  - intros k s Hs. specialize (H1 _ _ Hs). set_solver.
  - intros k i Hi. specialize (H2 _ _ Hi). set_solver.
  - intros c [= <-]. split_and!; [set_solver|..].
    + intros k Hk. by specialize (H1 _ _ Hk).
    + intros k Hk. by specialize (H2 _ _ Hk).
Qed.

Lemma heap_wf_session f w c :
  heap_wf w -> g_radosStripers w !! userAtPool f = None -> g_cluster w = Some c ->
  heap_wf (session_world f w).
Proof.
  intros (H1 & H2 & H3 & H4 & H5 & H6) Hmiss Hc. unfold session_world.
  set (io := fresh (live w)). set (st := fresh ({[io]} ∪ live w)).
  assert (io ∉ live w) as Fio by apply is_fresh.
  assert (st ∉ {[io]} ∪ live w) as Fst by apply is_fresh.
  assert (st ∉ live w) as Fst1 by set_solver.
  assert (st <> io) as Fst2 by set_solver.
  destruct (H3 c Hc) as (Lc & Nc1 & Nc2).
  assert (forall k x, <[userAtPool f:=st]> (g_radosStripers w) !! k = Some x ->
            g_radosStripers w !! k = Some x \/ (k = userAtPool f /\ x = st)) as LS.
  { intros k x. destruct (decide (userAtPool f = k)) as [<-|Hne].
    - rewrite lookup_insert_eq. intros [= <-]. by right.
    - rewrite lookup_insert_ne by done. by left. }
  split_and!; simpl.
  - intros k s [Hs|(-> & ->)]%LS; [specialize (H1 _ _ Hs)|]; set_solver.
  - intros k i [Hi|(-> & -> & _)]%lookup_map_insert; [specialize (H2 _ _ Hi)|]; set_solver.
  - rewrite Hc. intros ? [= <-]. split_and!; [set_solver|..].
    + intros k [Hs|(-> & ->)]%LS; [by eapply Nc1|congruence].
    + intros k [Hi|(-> & -> & _)]%lookup_map_insert; [by eapply Nc2|congruence].
  - intros k1 k2 s [E1|(-> & ->)]%LS [E2|(-> & E2)]%LS; try done.
    + by eapply H4.
    + subst. by specialize (H1 _ _ E1).
    + by specialize (H1 _ _ E2).
  - intros k1 k2 i [E1|(-> & -> & _)]%lookup_map_insert
      [E2|(-> & E2 & _)]%lookup_map_insert; try done.
    + by eapply H5.
    + subst. by specialize (H2 _ _ E1).
    + by specialize (H2 _ _ E2).
  - intros k1 k2 p [E1|(-> & ->)]%LS [E2|(-> & E2 & _)]%lookup_map_insert.
    + by eapply H6.
    + subst. by specialize (H1 _ _ E1).
    + by specialize (H2 _ _ E2).
    + congruence.
Qed.

(** characterisation of every call on a well-formed heap *)
Lemma getRadosStriper_outcomes f w :
  heap_wf w ->
  (exists s, g_radosStripers w !! userAtPool f = Some s /\
             getRadosStriper lib f w = Ret (Some s) w) \/
  (g_radosStripers w !! userAtPool f = None /\
   ((getRadosStriper lib f w = Ret None w) \/
    (getRadosStriper lib f w = Ret None (failure_world w)) \/
    (g_cluster w = None /\
       getRadosStriper lib f w = Ret None (failure_world (connected_world w))) \/
    (exists c, g_cluster w = Some c /\
       getRadosStriper lib f w
       = Ret (Some (fresh ({[fresh (live w)]} ∪ live w))) (session_world f w)) \/
    (g_cluster w = None /\
       getRadosStriper lib f w
       = Ret (Some (fresh ({[fresh (live (connected_world w))]} ∪ live (connected_world w))))
           (session_world f (connected_world w))))).
Proof.
  intros Hwf. destruct (g_radosStripers w !! userAtPool f) as [s|] eqn:Hk.
  { left. exists s. split; [done|]. by apply getRadosStriper_hit. }
  right. split; [done|].
  destruct (g_cluster w) as [c|] eqn:Hc.
  - destruct Hwf as (_ & _ & H3 & _). destruct (H3 c Hc) as (Lc & _).
    rewrite (getRadosStriper_on_cluster_eq lib f w c) by done.
    destruct (_ && _); [right; right; right; left; by exists c|right; by left].
  - destruct (Z.eq_dec (rados_init lib (userId f)) 0) as [Hi|Hi];
      [destruct (Z.eq_dec (rados_conf_read_file lib) 0) as [Hr|Hr];
       [destruct (Z.eq_dec (rados_connect lib) 0) as [Hn|Hn]|]|];
      try (left; apply getRadosStriper_unreachable; naive_solver).
    rewrite getRadosStriper_connects by done.
    rewrite (getRadosStriper_on_cluster_eq lib f (connected_world w) (fresh (live w)));
      [|done|done|simpl; set_solver].
    destruct (_ && _); [right; right; right; right; by split|right; right; left; by split].
Qed.

(** a request that returns leaves a well-formed heap well-formed *)
Lemma getRadosStriper_heap_wf f w r w' :
  heap_wf w -> getRadosStriper lib f w = Ret r w' -> heap_wf w'.
Proof.
  intros Hwf E.
  destruct (getRadosStriper_outcomes f w Hwf)
    as [(s & _ & E')|(Hk & [E'|[E'|[(Hc & E')|[(c & Hc & E')|(Hc & E')]]]])];
    rewrite E' in E; injection E as _ <-.
  - done.
  - done.
  - by apply heap_wf_failure.
  - by apply heap_wf_failure, heap_wf_connected.
  - by eapply heap_wf_session.
  - eapply (heap_wf_session f (connected_world w)); [by apply heap_wf_connected|done|done].
Qed.

(** X8: whatever the library answers, on a well-formed heap
    [getRadosStriper] returns (it neither throws nor runs into undefined
    behaviour) and leaves a well-formed heap: every pooled object is
    allocated, no object is pooled twice, and the cluster object is none of
    them. *)
Theorem getRadosStriper_keeps_heap f w :
  heap_wf w ->
  exists r w', getRadosStriper lib f w = Ret r w' /\ heap_wf w'.
Proof.
  intros Hwf.
  destruct (getRadosStriper_outcomes f w Hwf)
    as [(s & _ & ->)|(Hk & [->|[->|[(Hc & ->)|[(c & Hc & ->)|(Hc & ->)]]]])].
  - by eexists _, _.
  - by eexists _, _.
  - eexists _, _. split; [done|]. by apply heap_wf_failure.
  - eexists _, _. split; [done|]. by apply heap_wf_failure, heap_wf_connected.
  - eexists _, _. split; [done|]. by eapply heap_wf_session.
  - eexists _, _. split; [done|].
    eapply (heap_wf_session f (connected_world w)); [by apply heap_wf_connected|done|done].
Qed.

(** X9: a session that is set up for [f] is a newly allocated striper,
    entered in the pool under the key of [f], and every later request with
    the same key (any name) is answered with that striper without touching
    the world. *)
Theorem session_created_then_reused f g w :
  g_radosStripers w !! userAtPool f = None ->
  cluster_obtainable lib f w -> session_accepted lib f ->
  userAtPool g = userAtPool f ->
  exists s w',
    getRadosStriper lib f w = Ret (Some s) w' /\
    (s ∉ live w) /\ s ∈ live w' /\
    g_radosStripers w' = <[userAtPool f := s]> (g_radosStripers w) /\
    getRadosStriper lib g w' = Ret (Some s) w'.
Proof.
  intros Hmiss Hcl Hacc Hkey. unfold cluster_obtainable in Hcl.
  destruct (g_cluster w) as [c|] eqn:Hc.
  - destruct (getRadosStriper_on_cluster lib f w c Hmiss Hc Hcl) as [Hs _].
    rewrite (Hs Hacc).
    eexists _, _. split; [done|].
    pose proof (is_fresh ({[fresh (live w)]} ∪ live w)) as Fst.
    split_and!; [set_solver| simpl; set_solver | done |].
    apply getRadosStriper_hit. simpl. by rewrite Hkey, lookup_insert_eq.
  - destruct Hcl as (Hi & Hr & Hn). rewrite getRadosStriper_connects by done.
    destruct (getRadosStriper_on_cluster lib f (connected_world w) (fresh (live w)))
      as [Hs _]; [done|done|simpl; set_solver|].
    rewrite (Hs Hacc).
    eexists _, _. split; [done|].
    pose proof (is_fresh ({[fresh (live (connected_world w))]} ∪ live (connected_world w)))
      as Fst.
    split_and!; [simpl in *; set_solver| simpl; set_solver | done |].
    apply getRadosStriper_hit. simpl. by rewrite Hkey, lookup_insert_eq.
Qed.

(** X10: identities with different keys never get the same striper, and the
    second request leaves the first session in the pool. *)
Theorem distinct_keys_distinct_sessions f g w s1 w1 s2 w2 :
  heap_wf w ->
  getRadosStriper lib f w = Ret (Some s1) w1 ->
  getRadosStriper lib g w1 = Ret (Some s2) w2 ->
  userAtPool f <> userAtPool g ->
  s1 <> s2 /\ g_radosStripers w2 !! userAtPool f = Some s1 /\
  g_radosStripers w2 !! userAtPool g = Some s2.
Proof.
  intros Hwf H1 H2 Hne.
  pose proof (getRadosStriper_heap_wf _ _ _ _ Hwf H1) as Hwf1.
  pose proof (getRadosStriper_heap_wf _ _ _ _ Hwf1 H2) as Hwf2.
  pose proof (getRadosStriper_pooled _ _ _ _ _ H1) as P1.
  pose proof (getRadosStriper_pooled _ _ _ _ _ H2) as P2.
  assert (g_radosStripers w2 !! userAtPool f = Some s1) as P1'.
  { destruct (getRadosStriper_outcomes g w1 Hwf1)
      as [(s & _ & E)|(Hk & [E|[E|[(Hc & E)|[(c & Hc & E)|(Hc & E)]]]])];
      rewrite H2 in E; try done; injection E as _ ->; simpl; try done;
      by rewrite lookup_insert_ne. }
  split_and!; [|done..].
  intros <-. destruct Hwf2 as (_ & _ & _ & H4 & _). by specialize (H4 _ _ _ P1' P2).
Qed.

Lemma delete_each_ok ps w :
  NoDup ps -> (forall p, p ∈ ps -> p ∈ live w) ->
  cxx_delete_each ps w = Ret tt (set_live (live w ∖ list_to_set ps) w).
Proof.
  revert w. induction ps as [|p ps IH]; intros w Hnd Hl; cbn [cxx_delete_each].
  - unfold ret. f_equal. apply World_eq; simpl; try done. set_solver.
  - apply NoDup_cons in Hnd as [Hp Hnd].
    unfold bind. rewrite delete_live by (apply Hl; set_solver).
    rewrite IH; [|done|].
    + f_equal. apply World_eq; simpl; try done. set_solver.
    + intros q Hq. simpl. specialize (Hl q). set_solver.
Qed.

Lemma NoDup_pool_values (m : gmap string ptr) :
  (forall k1 k2 s, m !! k1 = Some s -> m !! k2 = Some s -> k1 = k2) ->
  NoDup (snd <$> map_to_list m).
Proof.
  intros Hinj. apply NoDup_fmap_2_strong; [|apply NoDup_map_to_list].
  intros [k1 s1] [k2 s2] E1%elem_of_map_to_list E2%elem_of_map_to_list. simpl.
  intros <-. f_equal. by eapply Hinj.
Qed.

Lemma elem_of_pool_values (m : gmap string ptr) p :
  p ∈ snd <$> map_to_list m <-> exists k, m !! k = Some p.
Proof.
  rewrite list_elem_of_fmap. split.
  - intros ([k s] & -> & E%elem_of_map_to_list). by exists k.
  - intros (k & E). exists (k, p). split; [done|]. by apply elem_of_map_to_list.
Qed.

(** X11: on a well-formed heap [ceph_posix_disconnect_all] returns, empties
    both pools, frees exactly the pooled stripers, the pooled contexts and
    the cluster object, and leaves descriptors, write intents, defaults and
    store alone; [g_cluster] keeps its now dangling value. *)
Theorem first_disconnect_frees_pool w :
  heap_wf w ->
  exists w',
    ceph_posix_disconnect_all w = Ret tt w' /\
    g_radosStripers w' = ∅ /\ g_ioCtx w' = ∅ /\ g_cluster w' = g_cluster w /\
    same_files w w' /\
    forall p, p ∈ live w' <->
      p ∈ live w /\ (forall k, g_radosStripers w !! k <> Some p) /\
      (forall k, g_ioCtx w !! k <> Some p) /\ g_cluster w <> Some p.
Proof.
  intros (H1 & H2 & H3 & H4 & H5 & H6). unfold ceph_posix_disconnect_all.
  unfold bind at 1, get at 1. unfold bind at 1.
  rewrite delete_each_ok;
    [|by apply NoDup_pool_values|by intros p (k & Hk)%elem_of_pool_values; eapply H1].
  unfold bind at 1, modify at 1. unfold bind at 1, get at 1. unfold bind at 1.
  cbn [g_ioCtx set_g_radosStripers set_live].
  rewrite delete_each_ok; [|by apply NoDup_pool_values|].
  2:{ intros p (k & Hk)%elem_of_pool_values. simpl.
      apply elem_of_difference. split; [by eapply H2|].
      rewrite elem_of_list_to_set. intros (k' & Hk')%elem_of_pool_values.
      by eapply H6. }
  unfold bind at 1, modify at 1. unfold bind at 1, get at 1.
  cbn [g_cluster set_g_radosStripers set_g_ioCtx set_live live].
  set (L := (live w ∖ list_to_set (snd <$> map_to_list (g_radosStripers w)))
              ∖ list_to_set (snd <$> map_to_list (g_ioCtx w))).
  assert (forall p, p ∈ L <-> p ∈ live w /\ (forall k, g_radosStripers w !! k <> Some p) /\
                              (forall k, g_ioCtx w !! k <> Some p)) as HL.
  { intros p. unfold L. rewrite !elem_of_difference, !elem_of_list_to_set,
      !elem_of_pool_values. naive_solver. }
  destruct (g_cluster w) as [c|] eqn:Hc.
  - destruct (H3 c eq_refl) as (Lc & N1 & N2).
    rewrite delete_live by (simpl; apply HL; naive_solver).
    eexists. split; [done|]. simpl. split_and!; try done.
    intros p. rewrite elem_of_difference, HL, elem_of_singleton. naive_solver.
  - eexists. split; [done|]. simpl. split_and!; try done.
    intros p. rewrite HL. naive_solver.
Qed.
End HeapInvariant.

Section DescriptorProperties.
Context {Store : Type} (lib : Librados Store) (alib : LibradosAttr Store).
Implicit Types (w : World Store) (f : CephFile) (fr : CephFileRef).

(** X12: every entry point that takes a descriptor answers -EBADF for a
    number that is not in the table, and leaves the world as it was. *)
Theorem unknown_handle_is_EBADF fd w :
  find_fd fd w = None ->
  ceph_posix_close fd w = Ret (- EBADF) w /\
  (forall off whence, ceph_posix_lseek fd off whence w = Ret (- EBADF) w /\
                      ceph_posix_lseek64 fd off whence w = Ret (- EBADF) w) /\
  (forall buf, ceph_posix_write lib fd buf w = Ret (- EBADF) w) /\
  (forall buf off, ceph_posix_pwrite lib fd buf off w = Ret (- EBADF) w) /\
  (forall count, ceph_posix_read lib fd count w = Ret (- EBADF, []) w) /\
  (forall count off, ceph_posix_pread lib fd count off w = Ret (- EBADF, []) w) /\
  (forall buf, ceph_posix_fstat lib fd buf w = Ret (- EBADF, buf) w) /\
  ceph_posix_fsync fd w = Ret (- EBADF) w /\
  (forall size, ceph_posix_ftruncate lib fd size w = Ret (- EBADF) w) /\
  (forall cmd, ceph_posix_fcntl fd cmd w = Ret (- EBADF) w) /\
  (forall attr size, ceph_posix_fgetxattr lib alib fd attr size w = Ret (- EBADF, []) w) /\
  (forall attr value fl, ceph_posix_fsetxattr lib alib fd attr value fl w = Ret (- EBADF) w) /\
  (forall attr, ceph_posix_fremovexattr lib alib fd attr w = Ret (- EBADF) w).
Proof.
  intros H.
  unfold ceph_posix_close, ceph_posix_lseek, ceph_posix_lseek64, ceph_posix_write,
    ceph_posix_pwrite, ceph_posix_read, ceph_posix_pread, ceph_posix_fstat,
    ceph_posix_fsync, ceph_posix_ftruncate, ceph_posix_fcntl, ceph_posix_fgetxattr,
    ceph_posix_fsetxattr, ceph_posix_fremovexattr, bind, get, ret.
  rewrite H. by repeat split.
Qed.

Lemma to_uint_to_int n : 0 <= n < 2 ^ 32 -> to_uint (to_int n) = n.
Proof.
  intros Hn. unfold to_uint, to_int. rewrite (Z.mod_small n) by lia.
  destruct (Z.ltb_spec n (2 ^ 31)).
  - apply Z.mod_small. lia.
  - replace (n - 2 ^ 32) with (n + (-1) * 2 ^ 32) by lia.
    rewrite Z.mod_add by lia. apply Z.mod_small. lia.
Qed.

Lemma handle_of_counter n : 0 <= n < 2 ^ 32 -> to_int (to_uint (n + 1) - 1) = to_int n.
Proof.
  intros Hn. unfold to_uint.
  destruct (Z.eq_dec n (2 ^ 32 - 1)) as [->|].
  - reflexivity.
  - by rewrite Z.mod_small, Z.add_simpl_r by lia.
Qed.

(** the world of an open that neither probes nor truncates *)
Lemma open_plain env path fl md w fr :
  counter_ok w ->
  getCephFileRef (g_defaultParams w) path env fl md 0 = Val fr ->
  Z.land fl O_CREAT = 0 \/ Z.land fl O_EXCL = 0 -> Z.land fl O_TRUNC = 0 ->
  ceph_posix_open lib env path fl md w = Ret (to_int (g_nextCephFd w)) (registered fr w).
Proof.
  intros Hn Hfr Hex Htr.
  pose proof (getCephFileRef_flags _ _ _ _ _ _ _ Hfr) as Hfl.
  unfold ceph_posix_open; run. rewrite Hfr, Htr. simpl.
  unfold registered, accmode. rewrite Hfl. simpl.
  assert (negb (Z.land fl O_CREAT =? 0) && negb (Z.land fl O_EXCL =? 0) = false) as ->.
  { destruct Hex as [-> | ->]; simpl; [done|by rewrite andb_false_r]. }
  destruct (Z.land fl (Z.lor O_WRONLY O_RDWR) =? 0); simpl;
    by rewrite handle_of_counter.
Qed.

(** X13: an open that neither probes (O_CREAT|O_EXCL) nor truncates
    (O_TRUNC) returns the value of the counter as the descriptor (the
    counter itself while it is below 2^31), registered with cursor 0;
    closing it returns 0 and restores the descriptor table and the write
    intents of before the open, the counter stays advanced, and a second
    close answers -EBADF. *)
Theorem open_then_close env path fl md w fr :
  counter_ok w ->
  getCephFileRef (g_defaultParams w) path env fl md 0 = Val fr ->
  Z.land fl O_CREAT = 0 \/ Z.land fl O_EXCL = 0 -> Z.land fl O_TRUNC = 0 ->
  g_fds w !! g_nextCephFd w = None ->
  let fd := to_int (g_nextCephFd w) in
  exists w1 w2,
    ceph_posix_open lib env path fl md w = Ret fd w1 /\
    (g_nextCephFd w < 2 ^ 31 -> fd = g_nextCephFd w) /\
    find_fd fd w1 = Some fr /\ cursor fd w1 = Some 0 /\
    ceph_posix_close fd w1 = Ret 0 w2 /\
    g_fds w2 = g_fds w /\ g_filesOpenForWrite w2 = g_filesOpenForWrite w /\
    g_nextCephFd w2 = to_uint (g_nextCephFd w + 1) /\
    ceph_posix_close fd w2 = Ret (- EBADF) w2.
Proof.
  intros Hn Hfr Hex Htr Hfree fd.
  pose proof (getCephFileRef_flags _ _ _ _ _ _ _ Hfr) as Hfl.
  assert (offset fr = 0) as Hoff.
  { unfold getCephFileRef, ebind in Hfr. destruct (fillCephFile _ _ _ _); [|done].
    by injection Hfr as <-. }
  assert (find_fd fd (registered fr w) = Some fr) as Hfd.
  { unfold find_fd, fd. rewrite to_uint_to_int by done. unfold registered.
    destruct (negb _); simpl; by rewrite lookup_insert_eq. }
  assert (exists w2, ceph_posix_close fd (registered fr w) = Ret 0 w2 /\
            g_fds w2 = base.delete (to_uint fd) (g_fds (registered fr w)) /\
            g_filesOpenForWrite w2 = g_filesOpenForWrite w /\
            g_nextCephFd w2 = to_uint (g_nextCephFd w + 1)) as (w2 & Hc & Hf2 & Hw2 & Hn2).
  { unfold ceph_posix_close. unfold bind at 1, get at 1. rewrite Hfd.
    unfold registered, accmode. rewrite Hfl.
    destruct (Z.land fl (Z.lor O_WRONLY O_RDWR) =? 0) eqn:Hm; simpl.
    - run. eexists. split; [reflexivity|]. by simpl.
    - run. rewrite decide_True by multiset_solver. simpl.
      eexists. split; [reflexivity|]. simpl. split_and!; [done|multiset_solver|done]. }
  assert (g_fds (registered fr w) = <[g_nextCephFd w := fr]> (g_fds w)) as Hreg.
  { unfold registered. by destruct (negb _). }
  exists (registered fr w), w2. split_and!.
  - by apply open_plain.
  - intros Hs. unfold fd. apply to_int_small. unfold counter_ok in Hn. lia.
  - done.
  - unfold cursor. by rewrite Hfd, <- Hoff.
  - done.
  - rewrite Hf2, Hreg. unfold fd. rewrite to_uint_to_int by done.
    by rewrite delete_insert_id.
  - done.
  - done.
  - unfold ceph_posix_close. unfold bind at 1, get at 1.
    unfold find_fd. rewrite Hf2, lookup_delete_eq. done.
Qed.
End DescriptorProperties.

Section DescriptorIO.
Context {Store : Type} (lib : Librados Store) (alib : LibradosAttr Store).
Implicit Types (w : World Store) (f : CephFile) (fr : CephFileRef).

Lemma getRadosStriper_no_throw f w e w' : getRadosStriper lib f w <> Throw e w'.
Proof.
  unfold getRadosStriper, connect_cluster, cluster_teardown, cluster_deref,
    cxx_delete, cxx_new; run.
  intros H. repeat (case_match; simplify_eq/=).
Qed.

(** X14: with O_CREAT|O_EXCL (and no O_TRUNC) the open is decided by the
    stat probe: -ENOENT lets it succeed with the new descriptor, 0 gives
    -EEXIST, any other code is returned as it is; the descriptor is in the
    table in every case. *)
Theorem open_excl_probe env path fl md w fr s w1 rc size atime :
  counter_ok w ->
  getCephFileRef (g_defaultParams w) path env fl md 0 = Val fr ->
  Z.land fl O_CREAT <> 0 -> Z.land fl O_EXCL <> 0 -> Z.land fl O_TRUNC = 0 ->
  getRadosStriper lib (file fr) (registered fr w) = Ret (Some s) w1 ->
  striper_stat lib (store w1) s (name (file fr)) = (rc, size, atime) ->
  ceph_posix_open lib env path fl md w =
    Ret (if rc =? - ENOENT then to_int (g_nextCephFd w)
         else if rc =? 0 then - EEXIST else rc) w1 /\
  find_fd (to_int (g_nextCephFd w)) w1 = Some fr.
Proof.
  intros Hn Hfr Hc Hx Htr Hs Hst.
  pose proof (getCephFileRef_flags _ _ _ _ _ _ _ Hfr) as Hfl.
  pose proof (getRadosStriper_frame _ _ _ _ _ Hs) as (Hfds & _ & Hnext & _).
  split.
  - unfold ceph_posix_open. unfold bind at 1, get at 1. rewrite Hfr.
    unfold of_except. unfold bind at 1.
    apply Z.eqb_neq in Hc, Hx. rewrite Hc, Hx, Htr. cbn [negb andb Z.eqb].
    set (rest := bind (getRadosStriper lib (file fr)) _).
    assert (rest (registered fr w) =
      Ret (if rc =? - ENOENT then to_int (g_nextCephFd w)
           else if rc =? 0 then - EEXIST else rc) w1) as <-.
    { unfold rest. unfold bind at 1. rewrite Hs. unfold bind at 1, get at 1.
      rewrite Hst. destruct (rc =? - ENOENT) eqn:E; cbn [negb].
      - unfold bind, get, ret. rewrite Hnext. unfold registered.
        destruct (negb _); simpl; by rewrite handle_of_counter.
      - by destruct (rc =? 0). }
    unfold registered, accmode. rewrite Hfl.
    destruct (Z.land fl (Z.lor O_WRONLY O_RDWR) =? 0); reflexivity.
  - unfold find_fd. rewrite to_uint_to_int by done. rewrite Hfds.
    unfold registered. destruct (negb _); simpl; by rewrite lookup_insert_eq.
Qed.

(** X15: with O_TRUNC (and no exclusive create) the file is truncated to 0
    through the store; the open fails with the store's code only when that
    code is negative and not -ENOENT, and returns the new descriptor
    otherwise; the descriptor is in the table in either case. *)
Theorem open_trunc env path fl md w fr s w1 rc st' :
  counter_ok w ->
  getCephFileRef (g_defaultParams w) path env fl md 0 = Val fr ->
  Z.land fl O_CREAT = 0 \/ Z.land fl O_EXCL = 0 -> Z.land fl O_TRUNC <> 0 ->
  getRadosStriper lib (file fr) (registered fr w) = Ret (Some s) w1 ->
  striper_trunc lib (store w1) s (name (file fr)) 0 = (rc, st') ->
  ceph_posix_open lib env path fl md w =
    Ret (if (rc <? 0) && negb (rc =? - ENOENT) then rc else to_int (g_nextCephFd w))
        (set_store st' w1) /\
  find_fd (to_int (g_nextCephFd w)) (set_store st' w1) = Some fr.
Proof.
  intros Hn Hfr Hex Htr Hs Hst.
  pose proof (getCephFileRef_flags _ _ _ _ _ _ _ Hfr) as Hfl.
  pose proof (getRadosStriper_frame _ _ _ _ _ Hs) as (Hfds & _ & Hnext & _).
  split.
  - unfold ceph_posix_open. unfold bind at 1, get at 1. rewrite Hfr.
    unfold of_except. unfold bind at 1.
    assert (negb (Z.land fl O_CREAT =? 0) && negb (Z.land fl O_EXCL =? 0) = false) as ->.
    { destruct Hex as [-> | ->]; simpl; [done|by rewrite andb_false_r]. }
    apply Z.eqb_neq in Htr. rewrite Htr. cbn [negb].
    set (rest := bind (ceph_posix_internal_truncate lib (file fr) 0) _).
    assert (rest (registered fr w) =
      Ret (if (rc <? 0) && negb (rc =? - ENOENT) then rc else to_int (g_nextCephFd w))
          (set_store st' w1)) as <-.
    { unfold rest, ceph_posix_internal_truncate. unfold bind at 1. unfold bind at 1.
      rewrite Hs. unfold bind at 1, get at 1. rewrite Hst.
      unfold bind at 1, modify at 1. unfold ret at 1.
      destruct ((rc <? 0) && negb (rc =? - ENOENT)); [done|].
      unfold bind, get, ret. simpl. rewrite Hnext. unfold registered.
      destruct (negb _); simpl; by rewrite handle_of_counter. }
    unfold registered, accmode. rewrite Hfl.
    destruct (Z.land fl (Z.lor O_WRONLY O_RDWR) =? 0); reflexivity.
  - unfold find_fd. rewrite to_uint_to_int by done. simpl. rewrite Hfds.
    unfold registered. destruct (negb _); simpl; by rewrite lookup_insert_eq.
Qed.

Lemma to_ssize_small z : - 2 ^ 63 <= z < 2 ^ 63 -> to_ssize z = z.
Proof.
  intros Hz. unfold to_ssize.
  destruct (Z.ltb_spec (z mod 2 ^ 64) (2 ^ 63)) as [H|H].
  - destruct (Z.lt_ge_cases z 0).
    + replace z with (z + 2 ^ 64 + (-1) * 2 ^ 64) in H by lia.
      rewrite Z.mod_add, Z.mod_small in H by lia. lia.
    + apply Z.mod_small. lia.
  - destruct (Z.lt_ge_cases z 0).
    + replace z with (z + 2 ^ 64 + (-1) * 2 ^ 64) at 1 by lia.
      rewrite Z.mod_add, Z.mod_small by lia. lia.
    + rewrite Z.mod_small in H by lia. lia.
Qed.

Lemma to_ssize_to_ull z : to_ssize (to_ull z) = to_ssize z.
Proof. unfold to_ssize, to_ull. by rewrite Z.mod_mod. Qed.

(** the world after moving the cursor of [fd] to [o] *)
Lemma lseek_known fd w fr off whence :
  find_fd fd w = Some fr ->
  ceph_posix_lseek64 fd off whence w = lseek_compute_offset fd fr off whence w /\
  ceph_posix_lseek fd off whence w = lseek_compute_offset fd fr off whence w.
Proof.
  intros Hfd. unfold ceph_posix_lseek64, ceph_posix_lseek, bind, get. by rewrite Hfd.
Qed.

Lemma lseek_compute_set fd fr off w :
  lseek_compute_offset fd fr off SEEK_SET w =
    Ret (to_ssize off)
        (set_g_fds (<[to_uint fd := with_offset (to_ull off) fr]> (g_fds w)) w).
Proof. unfold lseek_compute_offset, bind, modify, ret. simpl. by rewrite to_ssize_to_ull. Qed.

Lemma lseek_compute_cur fd fr off w :
  lseek_compute_offset fd fr off SEEK_CUR w =
    Ret (to_ssize (offset fr + off))
        (set_g_fds (<[to_uint fd := with_offset (to_ull (offset fr + off)) fr]> (g_fds w)) w).
Proof. unfold lseek_compute_offset, bind, modify, ret. simpl. by rewrite to_ssize_to_ull. Qed.

(** X16: on a known descriptor SEEK_SET to [o1] followed by SEEK_CUR by
    [o2] returns [o1] and then [o1 + o2] (offsets within off_t), and leaves
    the table entry with the cursor at [o1 + o2] and its other fields as
    they were; [lseek] and [lseek64] agree. *)
Theorem lseek_set_then_cur fd w fr o1 o2 :
  find_fd fd w = Some fr ->
  0 <= o1 < 2 ^ 63 -> 0 <= o1 + o2 < 2 ^ 63 ->
  exists w1 w2,
    ceph_posix_lseek64 fd o1 SEEK_SET w = Ret o1 w1 /\
    ceph_posix_lseek fd o1 SEEK_SET w = Ret o1 w1 /\
    cursor fd w1 = Some o1 /\
    ceph_posix_lseek64 fd o2 SEEK_CUR w1 = Ret (o1 + o2) w2 /\
    ceph_posix_lseek fd o2 SEEK_CUR w1 = Ret (o1 + o2) w2 /\
    find_fd fd w2 = Some (with_offset (o1 + o2) fr).
Proof.
  intros Hfd H1 H2.
  set (w1 := set_g_fds (<[to_uint fd := with_offset o1 fr]> (g_fds w)) w).
  assert (find_fd fd w1 = Some (with_offset o1 fr)) as Hfd1.
  { unfold find_fd, w1. simpl. by rewrite lookup_insert_eq. }
  destruct (lseek_known fd w fr o1 SEEK_SET Hfd) as [E1 E2].
  destruct (lseek_known fd w1 _ o2 SEEK_CUR Hfd1) as [E3 E4].
  rewrite lseek_compute_set in E1, E2. rewrite lseek_compute_cur in E3, E4.
  unfold to_ull in E1, E2. rewrite (Z.mod_small o1) in E1, E2 by lia.
  rewrite to_ssize_small in E1, E2 by lia.
  simpl in E3, E4. unfold to_ull in E3, E4.
  rewrite (Z.mod_small (o1 + o2)) in E3, E4 by lia.
  rewrite to_ssize_small in E3, E4 by lia.
  eexists w1, _. split_and!; [exact E1|exact E2| |exact E3|exact E4|].
  - unfold cursor. by rewrite Hfd1.
  - unfold find_fd. simpl. rewrite lookup_insert_eq. by destruct fr.
Qed.

(** X17: a [whence] other than SEEK_SET and SEEK_CUR (SEEK_END included) is
    answered with -EINVAL and leaves the cursor alone. *)
Theorem lseek_rejects_other_whence fd w fr off whence :
  find_fd fd w = Some fr ->
  whence <> SEEK_SET -> whence <> SEEK_CUR ->
  ceph_posix_lseek64 fd off whence w = Ret (- EINVAL) w /\
  ceph_posix_lseek fd off whence w = Ret (- EINVAL) w.
Proof.
  intros Hfd H1%Z.eqb_neq H2%Z.eqb_neq.
  destruct (lseek_known fd w fr off whence Hfd) as [-> ->].
  unfold lseek_compute_offset. by rewrite H1, H2.
Qed.

(** X18: SEEK_SET to a negative offset is not rejected: the call returns
    the negative offset and the cursor becomes the offset modulo 2^64. *)
Theorem lseek_negative_offset fd w fr off :
  find_fd fd w = Some fr ->
  - 2 ^ 63 <= off < 0 ->
  exists w1, ceph_posix_lseek64 fd off SEEK_SET w = Ret off w1 /\
             ceph_posix_lseek fd off SEEK_SET w = Ret off w1 /\
             cursor fd w1 = Some (2 ^ 64 + off).
Proof.
  intros Hfd Ho. destruct (lseek_known fd w fr off SEEK_SET Hfd) as [E3 E4].
  rewrite lseek_compute_set in E3, E4. rewrite to_ssize_small in E3, E4 by lia.
  eexists. split_and!; [exact E3|exact E4|].
  unfold cursor, find_fd. simpl. rewrite lookup_insert_eq. simpl. f_equal.
  unfold to_ull. replace off with (2 ^ 64 + off + (-1) * 2 ^ 64) at 1 by lia.
  rewrite Z.mod_add by lia. apply Z.mod_small. lia.
Qed.
End DescriptorIO.

Section CursorProperties.
Context {Store : Type} (lib : Librados Store) (alib : LibradosAttr Store).
Implicit Types (w : World Store) (f : CephFile) (fr : CephFileRef).

(** X19: a read through a read-only descriptor returns the number of bytes
    the store delivered and those bytes, and advances the cursor by that
    number (not by the count asked for); the store is unchanged.  The
    positional read at the same offset returns the same and leaves the
    cursor where it was. *)
Theorem read_moves_cursor_by_result fd count w fr s w1 rc bl :
  find_fd fd w = Some fr ->
  accmode (flags fr) = 0 ->
  getRadosStriper lib (file fr) w = Ret (Some s) w1 ->
  striper_read lib (store w1) s (name (file fr)) count (offset fr) = (rc, bl) ->
  0 <= rc <= Z.of_nat (length bl) ->
  exists w2,
    ceph_posix_read lib fd count w = Ret (rc, take (Z.to_nat rc) bl) w2 /\
    find_fd fd w2 = Some (with_offset (to_ull (offset fr + rc)) fr) /\
    store w2 = store w /\
    ceph_posix_pread lib fd count (offset fr) w = Ret (rc, take (Z.to_nat rc) bl) w1 /\
    find_fd fd w1 = Some fr.
Proof.
  intros Hfd Hacc Hs Hst Hrc. unfold accmode in Hacc.
  pose proof (getRadosStriper_frame _ _ _ _ _ Hs) as (Hfds & _ & _ & _ & Hstore).
  unfold ceph_posix_read, ceph_posix_pread, bl_copy; run.
  rewrite Hfd, Hacc. simpl. rewrite Hs, Hst.
  assert ((rc <? 0) = false) as -> by lia.
  assert ((Z.of_nat (length bl) <? rc) = false) as -> by lia.
  eexists. split_and!; [reflexivity| | |reflexivity|].
  - unfold find_fd. simpl. by rewrite lookup_insert_eq.
  - done.
  - unfold find_fd in *. by rewrite Hfds.
Qed.

(** X20: a negative code of the store's read is returned as it is, by
    [read] and [pread], with no bytes, and the cursor stays. *)
Theorem failed_read_keeps_cursor fd count w fr s w1 rc bl :
  find_fd fd w = Some fr ->
  accmode (flags fr) = 0 ->
  getRadosStriper lib (file fr) w = Ret (Some s) w1 ->
  striper_read lib (store w1) s (name (file fr)) count (offset fr) = (rc, bl) ->
  rc < 0 ->
  ceph_posix_read lib fd count w = Ret (rc, []) w1 /\
  ceph_posix_pread lib fd count (offset fr) w = Ret (rc, []) w1 /\
  find_fd fd w1 = Some fr.
Proof.
  intros Hfd Hacc Hs Hst Hrc. unfold accmode in Hacc.
  pose proof (getRadosStriper_frame _ _ _ _ _ Hs) as (Hfds & _).
  split_and!.
  - unfold ceph_posix_read; run. rewrite Hfd, Hacc. simpl. rewrite Hs, Hst.
    by assert ((rc <? 0) = true) as -> by lia.
  - unfold ceph_posix_pread; run. rewrite Hfd, Hacc. simpl. rewrite Hs, Hst.
    by assert ((rc <? 0) = true) as -> by lia.
  - unfold find_fd in *. by rewrite Hfds.
Qed.

(** X21: a non-zero code of the store's write is returned as it is, by
    [write] and [pwrite], and the cursor stays. *)
Theorem refused_write_keeps_cursor fd buf w fr s w1 rc st' :
  find_fd fd w = Some fr ->
  accmode (flags fr) <> 0 ->
  getRadosStriper lib (file fr) w = Ret (Some s) w1 ->
  striper_write lib (store w1) s (name (file fr)) buf (offset fr) = (rc, st') ->
  rc <> 0 ->
  ceph_posix_write lib fd buf w = Ret rc (set_store st' w1) /\
  ceph_posix_pwrite lib fd buf (offset fr) w = Ret rc (set_store st' w1) /\
  find_fd fd (set_store st' w1) = Some fr.
Proof.
  intros Hfd Hacc%Z.eqb_neq Hs Hst Hrc%Z.eqb_neq. unfold accmode in Hacc.
  pose proof (getRadosStriper_frame _ _ _ _ _ Hs) as (Hfds & _).
  split_and!.
  - unfold ceph_posix_write; run. rewrite Hfd, Hacc. rewrite Hs, Hst. simpl.
    by rewrite Hrc.
  - unfold ceph_posix_pwrite; run. rewrite Hfd, Hacc. rewrite Hs, Hst. simpl.
    by rewrite Hrc.
  - unfold find_fd in *. simpl. by rewrite Hfds.
Qed.

(** X22: [pread] and [pwrite] never change the descriptor table, the write
    intents or the counter, whatever the store answers; [pread] leaves
    the store alone too and throws nothing but [end_of_buffer]; [pwrite]
    never throws. *)
Theorem positional_transfer_keeps_descriptors fd w :
  (forall count off r w', ceph_posix_pread lib fd count off w = Ret r w' ->
                          same_files w w') /\
  (forall count off e w', ceph_posix_pread lib fd count off w = Throw e w' ->
                          e = end_of_buffer /\ same_files w w') /\
  (forall buf off r w', ceph_posix_pwrite lib fd buf off w = Ret r w' ->
                        g_fds w' = g_fds w /\
                        g_filesOpenForWrite w' = g_filesOpenForWrite w /\
                        g_nextCephFd w' = g_nextCephFd w) /\
  (forall buf off e w', ceph_posix_pwrite lib fd buf off w <> Throw e w').
Proof.
  assert (same_files w w) as Hrefl by (by unfold same_files).
  split_and!.
  - intros count off r w'. unfold ceph_posix_pread, bl_copy, bind at 1, get at 1.
    destruct (find_fd fd w) as [fr|]; [|unfold ret; by intros [= _ <-]].
    destruct (negb _); [unfold ret; by intros [= _ <-]|].
    unfold bind at 1.
    destruct (getRadosStriper lib (file fr) w) as [[s|] w1|e w1|] eqn:Hs; try done.
    + pose proof (getRadosStriper_frame _ _ _ _ _ Hs) as Hf.
      unfold bind at 1, get at 1.
      destruct (striper_read _ _ _ _ _ _) as [rc bl].
      destruct (rc <? 0); [unfold ret; by intros [= _ <-]|].
      unfold bind, of_except, ret. destruct (_ <? rc); [done|]. by intros [= _ <-].
    + pose proof (getRadosStriper_frame _ _ _ _ _ Hs) as Hf.
      unfold ret; by intros [= _ <-].
  - intros count off e w'. unfold ceph_posix_pread, bl_copy, bind at 1, get at 1.
    destruct (find_fd fd w) as [fr|]; [|done].
    destruct (negb _); [done|].
    unfold bind at 1.
    destruct (getRadosStriper lib (file fr) w) as [[s|] w1|e1 w1|] eqn:Hs; try done.
    + pose proof (getRadosStriper_frame _ _ _ _ _ Hs) as Hf.
      unfold bind at 1, get at 1.
      destruct (striper_read _ _ _ _ _ _) as [rc bl].
      destruct (rc <? 0); [done|].
      unfold bind, of_except, ret. destruct (_ <? rc); [|done]. by intros [= <- <-].
    + by apply getRadosStriper_no_throw in Hs.
  - intros buf off r w'. unfold ceph_posix_pwrite, bind at 1, get at 1.
    destruct (find_fd fd w) as [fr|]; [|unfold ret; by intros [= _ <-]].
    destruct (_ =? 0); [unfold ret; by intros [= _ <-]|].
    unfold bind at 1.
    destruct (getRadosStriper lib (file fr) w) as [[s|] w1|e w1|] eqn:Hs; try done.
    + pose proof (getRadosStriper_frame _ _ _ _ _ Hs) as (? & ? & ? & _).
      unfold bind at 1, get at 1.
      destruct (striper_write _ _ _ _ _ _) as [rc st'].
      unfold bind, modify, ret. destruct (negb _); by intros [= _ <-].
    + pose proof (getRadosStriper_frame _ _ _ _ _ Hs) as (? & ? & ? & _).
      unfold ret; by intros [= _ <-].
  - intros buf off e w'. unfold ceph_posix_pwrite, bind at 1, get at 1.
    destruct (find_fd fd w) as [fr|]; [|done].
    destruct (_ =? 0); [done|].
    unfold bind at 1.
    destruct (getRadosStriper lib (file fr) w) as [[s|] w1|e1 w1|] eqn:Hs; try done.
    + unfold bind at 1, get at 1.
      destruct (striper_write _ _ _ _ _ _) as [rc st'].
      unfold bind, modify, ret. by destruct (negb _).
    + by apply getRadosStriper_no_throw in Hs.
Qed.

(** X23: when the store's stat succeeds, [stat] by path and [fstat] on a
    descriptor of the same file fill the same buffer: the size, the store's
    time in all three timestamps, mode 0666; they return 0 and ignore the
    clock and the caller's buffer. *)
Theorem stat_success_fills_buffer now env path fd buf w f fr s w1 size atime :
  getCephFile (g_defaultParams w) path env = Val f ->
  find_fd fd w = Some fr -> file fr = f ->
  getRadosStriper lib f w = Ret (Some s) w1 ->
  striper_stat lib (store w1) s (name f) = (0, size, atime) ->
  let filled := {| st_size := size; st_atime := atime; st_mtime := atime;
                   st_ctime := atime; st_mode := MODE_0666 |} in
  ceph_posix_stat lib now env path buf w = Ret (0, filled) w1 /\
  ceph_posix_fstat lib fd buf w = Ret (0, filled) w1.
Proof.
  intros Hf Hfd <- Hs Hst filled.
  unfold ceph_posix_stat, ceph_posix_fstat; run.
  by rewrite Hf, Hfd, Hs, Hst.
Qed.

(** X24: F_GETFL on a freshly opened descriptor answers the [mode] argument
    of the open, not its flags; every other command is -EINVAL. *)
Theorem fcntl_getfl_answers_mode env path fl md w fr :
  counter_ok w ->
  getCephFileRef (g_defaultParams w) path env fl md 0 = Val fr ->
  Z.land fl O_CREAT = 0 \/ Z.land fl O_EXCL = 0 -> Z.land fl O_TRUNC = 0 ->
  exists w1,
    ceph_posix_open lib env path fl md w = Ret (to_int (g_nextCephFd w)) w1 /\
    ceph_posix_fcntl (to_int (g_nextCephFd w)) F_GETFL w1 = Ret (to_int md) w1 /\
    forall cmd, cmd <> F_GETFL ->
      ceph_posix_fcntl (to_int (g_nextCephFd w)) cmd w1 = Ret (- EINVAL) w1.
Proof.
  intros Hn Hfr Hex Htr.
  assert (mode fr = md) as Hmd.
  { unfold getCephFileRef, ebind in Hfr. destruct (fillCephFile _ _ _ _); [|done].
    by injection Hfr as <-. }
  assert (find_fd (to_int (g_nextCephFd w)) (registered fr w) = Some fr) as Hfd.
  { unfold find_fd. rewrite to_uint_to_int by done. unfold registered.
    destruct (negb _); simpl; by rewrite lookup_insert_eq. }
  exists (registered fr w). split_and!.
  - by apply open_plain.
  - unfold ceph_posix_fcntl, bind, get, ret. by rewrite Hfd, Hmd.
  - intros cmd Hc%Z.eqb_neq. unfold ceph_posix_fcntl, bind, get, ret.
    by rewrite Hfd, Hc.
Qed.
End CursorProperties.

Section Listing.
Implicit Types (d : DirIterator) (k n : string) (keys skipped rest : list string).

Lemma skip_other_stripes_app e io skipped keys :
  Forall other_stripe skipped ->
  skip_other_stripes e io (skipped ++ keys) = skip_other_stripes e io keys.
Proof.
  induction 1 as [|k ks Hk _ IH]; [done|].
  simpl. unfold other_stripe in Hk. by rewrite Hk.
Qed.

Lemma first_stripe_stops n :
  differs_from_first_stripe (n +:+ first_stripe_suffix) = Val false.
Proof.
  unfold differs_from_first_stripe. rewrite length_app_string.
  change (String.length first_stripe_suffix) with 17%nat.
  destruct (Nat.ltb_spec (String.length n + 17) 17); [lia|].
  replace (String.length n + 17 - 17)%nat with (String.length n) by lia.
  by rewrite drop_app_string.
Qed.

(** X25: [readdir] steps over the keys that are not a first stripe and stops
    at the first key [n.0000000000000000]; it returns the first
    [min(|n|, blen) - 1] characters of [n] and moves past that key. *)
Theorem readdir_skips_and_truncates d skipped n rest blen :
  m_iterator d = skipped ++ (n +:+ first_stripe_suffix) :: rest ->
  Forall other_stripe skipped ->
  lacks Str.NUL n ->
  0 < Z.of_nat (String.length n) < 2 ^ 31 -> 0 < blen ->
  ceph_posix_readdir blen d =
    Ret (0, Str.take (Z.to_nat (Z.min (Z.of_nat (String.length n)) blen - 1)) n)
        {| m_iterator := rest; m_end_first := m_end_first d; m_ioctx := m_ioctx d |}.
Proof.
  intros Hd Hsk Hn Hlen Hb.
  unfold ceph_posix_readdir. unfold bind at 1. rewrite Hd.
  rewrite skip_other_stripes_app by done. simpl. rewrite first_stripe_stops.
  unfold bind at 1, get at 1. simpl. rewrite length_app_string.
  change (String.length first_stripe_suffix) with 17%nat.
  replace (Z.of_nat (String.length n + 17) - 17) with (Z.of_nat (String.length n)) by lia.
  unfold to_int. rewrite Z.mod_small by lia.
  destruct (Z.ltb_spec (Z.of_nat (String.length n)) (2 ^ 31)); [|lia].
  rewrite cstr_app by done.
  destruct (Z.ltb_spec (Z.of_nat (String.length n)) blen).
  - destruct (Z.leb_spec (Z.of_nat (String.length n)) 0); [lia|].
    run. rewrite Z.min_l by lia.
    rewrite take_app_string by lia. reflexivity.
  - destruct (Z.leb_spec blen 0); [lia|].
    run. rewrite Z.min_r by lia.
    rewrite take_app_string by lia. reflexivity.
Qed.

(** X26: a key of fewer than 17 characters, met before any first stripe,
    makes [readdir] throw [out_of_range] with the cursor left on that
    key. *)
Theorem readdir_short_key_throws d skipped k rest blen :
  m_iterator d = skipped ++ k :: rest ->
  Forall other_stripe skipped ->
  (String.length k < 17)%nat ->
  ceph_posix_readdir blen d =
    Throw (out_of_range "basic_string::compare")
          {| m_iterator := k :: rest; m_end_first := m_end_first d; m_ioctx := m_ioctx d |}.
Proof.
  intros Hd Hsk Hk.
  unfold ceph_posix_readdir. unfold bind at 1. rewrite Hd.
  rewrite skip_other_stripes_app by done. simpl.
  unfold differs_from_first_stripe.
  by destruct (Nat.ltb_spec (String.length k) 17); [|lia].
Qed.

(** X27: when no first stripe is left, [readdir] runs to the end of the
    listing and then reads the key of the end position: if that has fewer
    than 17 characters the call throws [out_of_range], otherwise it returns
    0 with an empty name. *)
Theorem readdir_end_of_listing d blen :
  Forall other_stripe (m_iterator d) ->
  ceph_posix_readdir blen d =
    let d' := {| m_iterator := []; m_end_first := m_end_first d; m_ioctx := m_ioctx d |} in
    if (String.length (m_end_first d) <? 17)%nat
    then Throw (out_of_range "basic_string::compare") d'
    else Ret (0, EmptyString) d'.
Proof.
  intros Hsk.
  unfold ceph_posix_readdir. unfold bind at 1.
  rewrite <- (app_nil_r (m_iterator d)).
  rewrite skip_other_stripes_app by done. simpl.
  unfold differs_from_first_stripe.
  by destruct (String.length (m_end_first d) <? 17)%nat.
Qed.
End Listing.

Section PlugIn.
Context {Store : Type} (lib : Librados Store) (alib : LibradosAttr Store).
Implicit Types (w : World Store) (f : CephFile) (fr : CephFileRef).

(** X28: the exception that [ceph_posix_stat], [ceph_posix_truncate] and
    [ceph_posix_unlink] raise for a bad layout ([bad_layout]: a stripe
    count, stripe unit or object size, written in the path or read from
    the environment for what the path does not write, that is not empty
    and no number in range) does not leave the plug-in: [XrdCephOss::Stat],
    [Truncate] and [Unlink] answer -EINVAL, with the buffer and the world
    untouched (for any path but "/", which [Stat] answers before it
    parses). *)
Theorem oss_answers_bad_layout_with_EINVAL now path buff opts size env w :
  bad_layout path env = true ->
  Str.cstr path <> "/"%string ->
  (exists e, ceph_posix_stat lib now env path buff w = Throw e w /\ layout_exn e) /\
  XrdCephOss_Stat lib now path buff opts env w = Ret (- EINVAL, buff) w /\
  XrdCephOss_Truncate lib path size env w = Ret (- EINVAL) w /\
  XrdCephOss_Unlink lib path opts env w = Ret (- EINVAL) w.
Proof.
  intros Hbad Hroot.
  destruct (fillCephFile_bad (g_defaultParams w) path env CephFile_fresh Hbad)
    as (e & He & Hl).
  assert (getCephFile (g_defaultParams w) path env = Raise e) as Hg by exact He.
  apply String.eqb_neq in Hroot.
  assert (ceph_posix_stat lib now env path buff w = Throw e w) as E1.
  { unfold ceph_posix_stat. unfold bind at 1, get at 1. by rewrite Hg. }
  assert (ceph_posix_truncate lib env path size w = Throw e w) as E2.
  { unfold ceph_posix_truncate. unfold bind at 1, get at 1. by rewrite Hg. }
  assert (ceph_posix_unlink lib env path w = Throw e w) as E3.
  { unfold ceph_posix_unlink. unfold bind at 1, get at 1. by rewrite Hg. }
  unfold XrdCephOss_Stat, XrdCephOss_Truncate, XrdCephOss_Unlink, try_catch.
  rewrite Hroot, E1, E2, E3. split; [by exists e|done].
Qed.

(** X29: [getxattr] and [fgetxattr] return [min(rc, size)] and that many
    bytes of the attribute, [rc] being the length the store reports. *)
Theorem getxattr_returns_at_most_size env path fd attr size w f fr s w1 rc bl :
  getCephFile (g_defaultParams w) path env = Val f ->
  find_fd fd w = Some fr -> file fr = f ->
  getRadosStriper lib f w = Ret (Some s) w1 ->
  striper_getxattr alib (store w1) s (name f) attr = (rc, bl) ->
  0 <= rc <= Z.of_nat (length bl) -> 0 <= size ->
  let n := Z.min rc size in
  ceph_posix_getxattr lib alib env path attr size w = Ret (n, take (Z.to_nat n) bl) w1 /\
  ceph_posix_fgetxattr lib alib fd attr size w = Ret (n, take (Z.to_nat n) bl) w1.
Proof.
  intros Hf Hfd <- Hs Hst Hrc Hsz n.
  unfold ceph_posix_getxattr, ceph_posix_fgetxattr, ceph_posix_internal_getxattr, bl_copy.
  run. rewrite Hf, Hfd, Hs, Hst.
  assert ((rc <? 0) = false) as -> by lia.
  assert ((if rc <? size then rc else size) = n) as ->.
  { unfold n. destruct (Z.ltb_spec rc size); lia. }
  assert ((Z.of_nat (length bl) <? n) = false) as -> by lia.
  done.
Qed.

(** X30: a negative code of the store's [setxattr] or [rmxattr] is returned
    negated, that is as a positive number, by [ceph_posix_setxattr] and
    [ceph_posix_removexattr]. *)
Theorem xattr_failure_comes_back_positive env path attr value fl w f s w1 rc1 st1 rc2 st2 :
  getCephFile (g_defaultParams w) path env = Val f ->
  getRadosStriper lib f w = Ret (Some s) w1 ->
  striper_setxattr alib (store w1) s (name f) attr value = (rc1, st1) ->
  striper_rmxattr alib (store w1) s (name f) attr = (rc2, st2) ->
  - 2 ^ 31 < rc1 < 0 -> - 2 ^ 31 < rc2 < 0 ->
  ceph_posix_setxattr lib alib env path attr value fl w = Ret (- rc1) (set_store st1 w1) /\
  ceph_posix_removexattr lib alib env path attr w = Ret (- rc2) (set_store st2 w1) /\
  0 < - rc1 /\ 0 < - rc2.
Proof.
  intros Hf Hs H1 H2 Hr1 Hr2.
  unfold ceph_posix_setxattr, ceph_posix_removexattr, ceph_posix_internal_setxattr,
    ceph_posix_internal_removexattr.
  run. rewrite Hf, Hs, H1, H2.
  assert ((rc1 =? 0) = false) as -> by lia.
  assert ((rc2 =? 0) = false) as -> by lia.
  simpl. rewrite !to_int_small by lia. repeat split; lia.
Qed.
End PlugIn.

(** ** The properties at work on the in-memory store *)

Section MoreWitnesses.
Import MemStore Scenario Tour.

Ltac side :=
  solve [ reflexivity | vm_compute; reflexivity | vm_compute; discriminate
        | vm_compute; lia
        | split; side ].

Lemma heap_wf_boot : heap_wf boot.
Proof.
  unfold heap_wf, boot; simpl. split_and!; intros; try done;
    rewrite ?lookup_empty in *; done.
Qed.

Lemma heap_wf_exec f w : heap_wf w -> heap_wf (exec (getRadosStriper lib f) w).
Proof.
  intros H. unfold exec.
  destruct (getRadosStriper lib f w) as [r w'|e w'|] eqn:E; [|exfalso|done].
  - by eapply getRadosStriper_heap_wf.
  - by eapply getRadosStriper_no_throw.
Qed.

Lemma heap_wf_pooled : heap_wf pooled.
Proof. apply heap_wf_exec, heap_wf_boot. Qed.

Lemma parse_full_path_witness :
  getCephFile g_defaultParams_init "alice@poolA,3,65536,262144:data/run1" env_poolB = Val alice.
Proof.
  apply (parse_full_path g_defaultParams_init env_poolB "alice" "poolA" "3" "65536" "262144"
           "data/run1"); side.
Defined.

Lemma parse_bare_name_witness :
  getCephFile alice "data/run3" env_poolB =
    Val {| name := "data/run3"; pool := "poolB"; userId := "alice"; nbStripes := 4;
           stripeUnit := 65536; objectSize := 262144 |}.
Proof.
  refine (eq_trans (parse_bare_name alice env_poolB "data/run3" _ _ _ _) _).
  - reflexivity.
  - intros s E. vm_compute in E. injection E as <-. split; [reflexivity|].
    vm_compute. discriminate.
  - intros s E. vm_compute in E. discriminate.
  - intros s E. vm_compute in E. discriminate.
  - vm_compute. reflexivity.
Defined.

Lemma key_round_trip_witness :
  getCephFile g_defaultParams_init (userAtPool alice +:+ ":" +:+ name alice) env_poolB = Val alice.
Proof.
  apply (key_round_trip g_defaultParams_init env_poolB alice).
  - unfold keyed. repeat split; vm_compute; (reflexivity || discriminate).
  - reflexivity.
Defined.

Lemma userAtPool_injective_witness :
  userAtPool alice = userAtPool alice_other <-> layout_equivalent alice alice_other.
Proof.
  apply (userAtPool_injective alice alice_other).
  - unfold keyed. repeat split; vm_compute; (reflexivity || discriminate).
  - unfold keyed. repeat split; vm_compute; (reflexivity || discriminate).
Defined.

Lemma key_collision_witness :
  userAtPool at_in_user = userAtPool at_in_pool /\ userId at_in_user <> userId at_in_pool /\
  ~ layout_equivalent at_in_user at_in_pool.
Proof.
  apply (key_collision at_in_user at_in_pool "a" "b" "c"); reflexivity.
Defined.

Lemma set_defaults_then_bare_name_witness :
  let w' := set_g_defaultParams (with_name "" alice) boot in
  ceph_posix_set_defaults (Some (userAtPool alice)) boot = Ret tt w' /\
  getCephFile (g_defaultParams w') "data/run2" None = Val (with_name (Str.cstr "data/run2") alice) /\
  ceph_posix_set_defaults None boot = Ret tt boot.
Proof.
  apply (set_defaults_then_bare_name boot alice "data/run2").
  - unfold keyed. repeat split; vm_compute; (reflexivity || discriminate).
  - reflexivity.
Defined.

Lemma connect_failure_leaves_no_cluster_witness :
  getRadosStriper unreachable alice boot = Ret None boot /\
  forall size, ceph_posix_internal_truncate unreachable alice size boot = Ret (- EINVAL) boot.
Proof.
  apply (connect_failure_leaves_no_cluster unreachable alice boot).
  - vm_compute. reflexivity.
  - reflexivity.
  - right. right. vm_compute. discriminate.
Defined.

Lemma getRadosStriper_keeps_heap_witness :
  exists r w', getRadosStriper lib zero_stripes pooled = Ret r w' /\ heap_wf w'.
Proof.
  apply (getRadosStriper_keeps_heap lib zero_stripes pooled). exact heap_wf_pooled.
Defined.

Lemma session_created_then_reused_witness :
  exists s w',
    getRadosStriper lib alice pooled = Ret (Some s) w' /\
    (s ∉ live pooled) /\ s ∈ live w' /\
    g_radosStripers w' = <[userAtPool alice := s]> (g_radosStripers pooled) /\
    getRadosStriper lib alice_other w' = Ret (Some s) w'.
Proof.
  apply (session_created_then_reused lib alice alice_other pooled).
  - vm_compute. reflexivity.
  - vm_compute. reflexivity.
  - unfold session_accepted. repeat split; vm_compute; reflexivity.
  - reflexivity.
Defined.

Lemma distinct_keys_distinct_sessions_witness :
  3%positive <> 5%positive /\
  g_radosStripers two_sessions !! userAtPool g_defaultParams_init = Some 3%positive /\
  g_radosStripers two_sessions !! userAtPool alice = Some 5%positive.
Proof.
  apply (distinct_keys_distinct_sessions lib g_defaultParams_init alice boot
           3%positive pooled 5%positive two_sessions).
  - exact heap_wf_boot.
  - vm_compute. reflexivity.
  - vm_compute. reflexivity.
  - vm_compute. discriminate.
Defined.

Lemma first_disconnect_frees_pool_witness :
  exists w',
    ceph_posix_disconnect_all pooled = Ret tt w' /\
    g_radosStripers w' = ∅ /\ g_ioCtx w' = ∅ /\ g_cluster w' = g_cluster pooled /\
    same_files pooled w' /\
    forall p, p ∈ live w' <->
      p ∈ live pooled /\ (forall k, g_radosStripers pooled !! k <> Some p) /\
      (forall k, g_ioCtx pooled !! k <> Some p) /\ g_cluster pooled <> Some p.
Proof.
  apply (first_disconnect_frees_pool pooled). exact heap_wf_pooled.
Defined.

Lemma unknown_handle_is_EBADF_witness :
  ceph_posix_close 7 opened = Ret (- EBADF) opened /\
  (forall off whence, ceph_posix_lseek 7 off whence opened = Ret (- EBADF) opened /\
                      ceph_posix_lseek64 7 off whence opened = Ret (- EBADF) opened) /\
  (forall buf, ceph_posix_write lib 7 buf opened = Ret (- EBADF) opened) /\
  (forall buf off, ceph_posix_pwrite lib 7 buf off opened = Ret (- EBADF) opened) /\
  (forall count, ceph_posix_read lib 7 count opened = Ret (- EBADF, []) opened) /\
  (forall count off, ceph_posix_pread lib 7 count off opened = Ret (- EBADF, []) opened) /\
  (forall buf, ceph_posix_fstat lib 7 buf opened = Ret (- EBADF, buf) opened) /\
  ceph_posix_fsync 7 opened = Ret (- EBADF) opened /\
  (forall size, ceph_posix_ftruncate lib 7 size opened = Ret (- EBADF) opened) /\
  (forall cmd, ceph_posix_fcntl 7 cmd opened = Ret (- EBADF) opened) /\
  (forall attr size, ceph_posix_fgetxattr lib alib 7 attr size opened = Ret (- EBADF, []) opened) /\
  (forall attr value fl,
     ceph_posix_fsetxattr lib alib 7 attr value fl opened = Ret (- EBADF) opened) /\
  (forall attr, ceph_posix_fremovexattr lib alib 7 attr opened = Ret (- EBADF) opened).
Proof.
  apply (unknown_handle_is_EBADF lib alib 7 opened). vm_compute. reflexivity.
Defined.

Lemma open_then_close_witness :
  let fd := to_int (g_nextCephFd opened) in
  exists w1 w2,
    ceph_posix_open lib None "g" O_RDWR 0 opened = Ret fd w1 /\
    (g_nextCephFd opened < 2 ^ 31 -> fd = g_nextCephFd opened) /\
    find_fd fd w1 = Some fr_rdwr /\ cursor fd w1 = Some 0 /\
    ceph_posix_close fd w1 = Ret 0 w2 /\
    g_fds w2 = g_fds opened /\ g_filesOpenForWrite w2 = g_filesOpenForWrite opened /\
    g_nextCephFd w2 = to_uint (g_nextCephFd opened + 1) /\
    ceph_posix_close fd w2 = Ret (- EBADF) w2.
Proof.
  apply (open_then_close lib None "g" O_RDWR 0 opened fr_rdwr).
  - vm_compute. split; [discriminate|reflexivity].
  - vm_compute. reflexivity.
  - left. reflexivity.
  - reflexivity.
  - vm_compute. reflexivity.
Defined.

Lemma open_excl_probe_witness :
  ceph_posix_open lib None "new" excl_flags 0 pooled =
    Ret (if - ENOENT =? - ENOENT then to_int (g_nextCephFd pooled)
         else if - ENOENT =? 0 then - EEXIST else - ENOENT) (registered fr_new pooled) /\
  find_fd (to_int (g_nextCephFd pooled)) (registered fr_new pooled) = Some fr_new.
Proof.
  apply (open_excl_probe lib None "new" excl_flags 0 pooled fr_new 3%positive
           (registered fr_new pooled) (- ENOENT) 0 0).
  - vm_compute. split; [discriminate|reflexivity].
  - vm_compute. reflexivity.
  - vm_compute. discriminate.
  - vm_compute. discriminate.
  - reflexivity.
  - vm_compute. reflexivity.
  - vm_compute. reflexivity.
Defined.

Lemma open_trunc_witness :
  let w1 := registered fr_trunc written in
  let st' := (MemStore.trunc (store w1) 3%positive "f" 0).2 in
  ceph_posix_open lib None "f" trunc_flags 0 written =
    Ret (if (0 <? 0) && negb (0 =? - ENOENT) then 0 else to_int (g_nextCephFd written))
        (set_store st' w1) /\
  find_fd (to_int (g_nextCephFd written)) (set_store st' w1) = Some fr_trunc.
Proof.
  apply (open_trunc lib None "f" trunc_flags 0 written fr_trunc 3%positive
           (registered fr_trunc written) 0).
  - vm_compute. split; [discriminate|reflexivity].
  - vm_compute. reflexivity.
  - right. reflexivity.
  - vm_compute. discriminate.
  - vm_compute. reflexivity.
  - vm_compute. reflexivity.
Defined.

Lemma lseek_set_then_cur_witness :
  exists w1 w2,
    ceph_posix_lseek64 0 10 SEEK_SET opened = Ret 10 w1 /\
    ceph_posix_lseek 0 10 SEEK_SET opened = Ret 10 w1 /\
    cursor 0 w1 = Some 10 /\
    ceph_posix_lseek64 0 (- 4) SEEK_CUR w1 = Ret (10 + - 4) w2 /\
    ceph_posix_lseek 0 (- 4) SEEK_CUR w1 = Ret (10 + - 4) w2 /\
    find_fd 0 w2 = Some (with_offset (10 + - 4) fr_write).
Proof.
  apply (lseek_set_then_cur 0 opened fr_write 10 (- 4)).
  - vm_compute. reflexivity.
  - lia.
  - lia.
Defined.

Lemma lseek_rejects_other_whence_witness :
  ceph_posix_lseek64 0 0 2 opened = Ret (- EINVAL) opened /\
  ceph_posix_lseek 0 0 2 opened = Ret (- EINVAL) opened.
Proof.
  apply (lseek_rejects_other_whence 0 opened fr_write 0 2).
  - vm_compute. reflexivity.
  - vm_compute. discriminate.
  - vm_compute. discriminate.
Defined.

Lemma lseek_negative_offset_witness :
  exists w1, ceph_posix_lseek64 0 (- 22) SEEK_SET opened = Ret (- 22) w1 /\
             ceph_posix_lseek 0 (- 22) SEEK_SET opened = Ret (- 22) w1 /\
             cursor 0 w1 = Some (2 ^ 64 + - 22).
Proof.
  apply (lseek_negative_offset 0 opened fr_write (- 22)).
  - vm_compute. reflexivity.
  - lia.
Defined.

Lemma read_moves_cursor_by_result_witness :
  exists w2,
    ceph_posix_read lib 1 16 two_written = Ret (3, take (Z.to_nat 3) abc) w2 /\
    find_fd 1 w2 = Some (with_offset (to_ull (offset fr_read + 3)) fr_read) /\
    store w2 = store two_written /\
    ceph_posix_pread lib 1 16 (offset fr_read) two_written
      = Ret (3, take (Z.to_nat 3) abc) two_written /\
    find_fd 1 two_written = Some fr_read.
Proof.
  apply (read_moves_cursor_by_result lib 1 16 two_written fr_read 3%positive
           two_written 3 abc).
  - vm_compute. reflexivity.
  - reflexivity.
  - vm_compute. reflexivity.
  - vm_compute. reflexivity.
  - simpl. lia.
Defined.

Lemma failed_read_keeps_cursor_witness :
  ceph_posix_read lib 0 16 missing_opened = Ret (- ENOENT, []) missing_opened /\
  ceph_posix_pread lib 0 16 (offset fr_missing) missing_opened
    = Ret (- ENOENT, []) missing_opened /\
  find_fd 0 missing_opened = Some fr_missing.
Proof.
  apply (failed_read_keeps_cursor lib 0 16 missing_opened fr_missing 3%positive
           missing_opened (- ENOENT) []).
  - vm_compute. reflexivity.
  - reflexivity.
  - vm_compute. reflexivity.
  - vm_compute. reflexivity.
  - vm_compute. reflexivity.
Defined.

Lemma refused_write_keeps_cursor_witness :
  ceph_posix_write full 0 abc opened
    = Ret (- 28) (set_store (store opened_pooled) opened_pooled) /\
  ceph_posix_pwrite full 0 abc (offset fr_write) opened
    = Ret (- 28) (set_store (store opened_pooled) opened_pooled) /\
  find_fd 0 (set_store (store opened_pooled) opened_pooled) = Some fr_write.
Proof.
  apply (refused_write_keeps_cursor full 0 abc opened fr_write 3%positive
           opened_pooled (- 28) (store opened_pooled)).
  - vm_compute. reflexivity.
  - vm_compute. discriminate.
  - vm_compute. reflexivity.
  - vm_compute. reflexivity.
  - discriminate.
Defined.

Lemma stat_success_fills_buffer_witness :
  let filled := {| st_size := 3; st_atime := 1; st_mtime := 1;
                   st_ctime := 1; st_mode := MODE_0666 |} in
  ceph_posix_stat lib 1700000000 None "f" stat_zero two_written = Ret (0, filled) two_written /\
  ceph_posix_fstat lib 1 stat_zero two_written = Ret (0, filled) two_written.
Proof.
  apply (stat_success_fills_buffer lib 1700000000 None "f" 1 stat_zero two_written
           file_f fr_read 3%positive two_written 3 1).
  - vm_compute. reflexivity.
  - vm_compute. reflexivity.
  - reflexivity.
  - vm_compute. reflexivity.
  - vm_compute. reflexivity.
Defined.

Lemma fcntl_getfl_answers_mode_witness :
  exists w1,
    ceph_posix_open lib None "f" O_RDONLY 420 boot = Ret (to_int (g_nextCephFd boot)) w1 /\
    ceph_posix_fcntl (to_int (g_nextCephFd boot)) F_GETFL w1 = Ret (to_int 420) w1 /\
    forall cmd, cmd <> F_GETFL ->
      ceph_posix_fcntl (to_int (g_nextCephFd boot)) cmd w1 = Ret (- EINVAL) w1.
Proof.
  apply (fcntl_getfl_answers_mode lib None "f" O_RDONLY 420 boot fr_0644).
  - vm_compute. split; [discriminate|reflexivity].
  - vm_compute. reflexivity.
  - left. reflexivity.
  - reflexivity.
Defined.

Lemma readdir_skips_and_truncates_witness :
  ceph_posix_readdir 3 listing_mixed =
    Ret (0, Str.take (Z.to_nat (Z.min (Z.of_nat (String.length "run1")) 3 - 1)) "run1")
        {| m_iterator := ["tail.0000000000000000"];
           m_end_first := m_end_first listing_mixed; m_ioctx := m_ioctx listing_mixed |}.
Proof.
  apply (readdir_skips_and_truncates listing_mixed
           ["other.0000000000000002"; "run1.0000000000000001"] "run1"
           ["tail.0000000000000000"] 3).
  - reflexivity.
  - repeat constructor.
  - reflexivity.
  - simpl. lia.
  - lia.
Defined.

Lemma readdir_short_key_throws_witness :
  ceph_posix_readdir 256 listing_foreign =
    Throw (out_of_range "basic_string::compare")
          {| m_iterator := ["README"; "run1.0000000000000000"];
             m_end_first := m_end_first listing_foreign;
             m_ioctx := m_ioctx listing_foreign |}.
Proof.
  apply (readdir_short_key_throws listing_foreign ["other.0000000000000002"] "README"
           ["run1.0000000000000000"] 256).
  - reflexivity.
  - repeat constructor.
  - simpl. lia.
Defined.

Lemma readdir_end_of_listing_witness :
  ceph_posix_readdir 256 listing_others =
    let d' := {| m_iterator := []; m_end_first := m_end_first listing_others;
                 m_ioctx := m_ioctx listing_others |} in
    if (String.length (m_end_first listing_others) <? 17)%nat
    then Throw (out_of_range "basic_string::compare") d'
    else Ret (0, EmptyString) d'.
Proof.
  apply (readdir_end_of_listing listing_others 256). repeat constructor.
Defined.

Lemma oss_answers_bad_layout_with_EINVAL_witness :
  (exists e, ceph_posix_stat lib 1700000000 env_no_number "poolA:f" stat_zero boot
             = Throw e boot /\ layout_exn e) /\
  XrdCephOss_Stat lib 1700000000 "poolA:f" stat_zero 0 env_no_number boot
    = Ret (- EINVAL, stat_zero) boot /\
  XrdCephOss_Truncate lib "poolA:f" 0 env_no_number boot = Ret (- EINVAL) boot /\
  XrdCephOss_Unlink lib "poolA:f" 0 env_no_number boot = Ret (- EINVAL) boot.
Proof.
  apply (oss_answers_bad_layout_with_EINVAL lib 1700000000 "poolA:f"
           stat_zero 0 0 env_no_number boot).
  - vm_compute. reflexivity.
  - vm_compute. discriminate.
Defined.

Lemma getxattr_returns_at_most_size_witness :
  let n := Z.min 5 3 in
  let hello := [Byte.x68; Byte.x65; Byte.x6c; Byte.x6c; Byte.x6f] in
  ceph_posix_getxattr lib alib None "f" "user.tag" 3 opened
    = Ret (n, take (Z.to_nat n) hello) opened_pooled /\
  ceph_posix_fgetxattr lib alib 0 "user.tag" 3 opened
    = Ret (n, take (Z.to_nat n) hello) opened_pooled.
Proof.
  apply (getxattr_returns_at_most_size lib alib None "f" 0 "user.tag" 3 opened file_f
           fr_write 3%positive opened_pooled 5
           [Byte.x68; Byte.x65; Byte.x6c; Byte.x6c; Byte.x6f]).
  - vm_compute. reflexivity.
  - vm_compute. reflexivity.
  - reflexivity.
  - vm_compute. reflexivity.
  - reflexivity.
  - simpl. lia.
  - lia.
Defined.

Lemma xattr_failure_comes_back_positive_witness :
  ceph_posix_setxattr lib alib None "f" "user.tag" abc 0 opened
    = Ret (- - ENOENT) (set_store (store opened_pooled) opened_pooled) /\
  ceph_posix_removexattr lib alib None "f" "user.tag" opened
    = Ret (- - ENOENT) (set_store (store opened_pooled) opened_pooled) /\
  0 < - - ENOENT /\ 0 < - - ENOENT.
Proof.
  apply (xattr_failure_comes_back_positive lib alib None "f" "user.tag" abc 0 opened file_f
           3%positive opened_pooled (- ENOENT) (store opened_pooled)
           (- ENOENT) (store opened_pooled)).
  - vm_compute. reflexivity.
  - vm_compute. reflexivity.
  - reflexivity.
  - reflexivity.
  - unfold ENOENT. lia.
  - unfold ENOENT. lia.
Defined.
End MoreWitnesses.
